(** * Scallywag-Engine: the Direct3D 12 frame lifecycle

    A shallow embedding of [src/main.cpp] (the triangle variant) and of
    [src/dx12window.cpp] (the clear-only variant).

    The two programs are sequences of calls into Win32, DXGI and Direct3D 12.
    Those libraries are not part of the repository, so every call is an
    _event_ answered by an environment [api], a function from the call and the
    state of the outside world to a response and a new world.  The program is
    written in a small state-and-exception monad over
      - the process-wide globals of the source ([g_device], [g_fenceValue], ...),
      - the world,
      - the list of calls made so far, with their responses, and
      - the list of every configuration the run went through.

    Integer widths follow the source: [UINT] is 32 bits, [UINT64] and [SIZE_T]
    are 64 bits (an x64 build), with the wrap-around written out.  [float]
    literals are kept as the decimal rationals written in the source; the
    rounding to binary32 is not modelled. *)

From Stdlib Require Import ZArith List String Bool Lia QArith.
Import ListNotations.
Local Open Scope Z_scope.

Set Implicit Arguments.

(* ------------------------------------------------------------------ *)
(** * Data *)

(** COM interface pointers, [HANDLE]s and [HWND]s: an address, [NULL] is 0. *)
Definition handle := Z.
Definition NULL : handle := 0.

Definition HRESULT := Z.
Definition S_OK : HRESULT := 0.
(** [FAILED(hr)] of winerror.h: the sign bit. *)
Definition FAILED (hr : HRESULT) : bool := hr <? 0.

Definition UINT_wrap (z : Z) : Z := z mod 2 ^ 32.
Definition UINT64_wrap (z : Z) : Z := z mod 2 ^ 64.
Definition SIZE_T_wrap (z : Z) : Z := z mod 2 ^ 64.
Definition UINT_MAX : Z := 2 ^ 32 - 1.

Inductive D3D_FEATURE_LEVEL := D3D_FEATURE_LEVEL_11_0 | D3D_FEATURE_LEVEL_12_0.
Inductive D3D12_COMMAND_LIST_TYPE :=
  D3D12_COMMAND_LIST_TYPE_DIRECT | D3D12_COMMAND_LIST_TYPE_BUNDLE
| D3D12_COMMAND_LIST_TYPE_COMPUTE | D3D12_COMMAND_LIST_TYPE_COPY.
Inductive DXGI_FORMAT :=
  DXGI_FORMAT_UNKNOWN | DXGI_FORMAT_R8G8B8A8_UNORM
| DXGI_FORMAT_R32G32B32_FLOAT | DXGI_FORMAT_R32G32B32A32_FLOAT.
Inductive DXGI_USAGE := DXGI_USAGE_RENDER_TARGET_OUTPUT | DXGI_USAGE_SHADER_INPUT.
Inductive DXGI_SWAP_EFFECT :=
  DXGI_SWAP_EFFECT_DISCARD | DXGI_SWAP_EFFECT_FLIP_SEQUENTIAL | DXGI_SWAP_EFFECT_FLIP_DISCARD.
Inductive D3D12_DESCRIPTOR_HEAP_TYPE :=
  D3D12_DESCRIPTOR_HEAP_TYPE_CBV_SRV_UAV | D3D12_DESCRIPTOR_HEAP_TYPE_SAMPLER
| D3D12_DESCRIPTOR_HEAP_TYPE_RTV | D3D12_DESCRIPTOR_HEAP_TYPE_DSV.
Inductive D3D12_DESCRIPTOR_HEAP_FLAGS :=
  D3D12_DESCRIPTOR_HEAP_FLAG_NONE | D3D12_DESCRIPTOR_HEAP_FLAG_SHADER_VISIBLE.
Inductive D3D12_FENCE_FLAGS := D3D12_FENCE_FLAG_NONE | D3D12_FENCE_FLAG_SHARED.
Inductive D3D12_ROOT_SIGNATURE_FLAGS :=
  D3D12_ROOT_SIGNATURE_FLAG_NONE
| D3D12_ROOT_SIGNATURE_FLAG_ALLOW_INPUT_ASSEMBLER_INPUT_LAYOUT.
Inductive D3D_ROOT_SIGNATURE_VERSION := D3D_ROOT_SIGNATURE_VERSION_1.
Inductive D3DCOMPILE_FLAG :=
  D3DCOMPILE_DEBUG | D3DCOMPILE_SKIP_OPTIMIZATION | D3DCOMPILE_ENABLE_STRICTNESS.
Inductive D3D12_INPUT_CLASSIFICATION :=
  D3D12_INPUT_CLASSIFICATION_PER_VERTEX_DATA | D3D12_INPUT_CLASSIFICATION_PER_INSTANCE_DATA.
Inductive D3D12_PRIMITIVE_TOPOLOGY_TYPE :=
  D3D12_PRIMITIVE_TOPOLOGY_TYPE_UNDEFINED | D3D12_PRIMITIVE_TOPOLOGY_TYPE_POINT
| D3D12_PRIMITIVE_TOPOLOGY_TYPE_LINE | D3D12_PRIMITIVE_TOPOLOGY_TYPE_TRIANGLE.
Inductive D3D_PRIMITIVE_TOPOLOGY :=
  D3D_PRIMITIVE_TOPOLOGY_POINTLIST | D3D_PRIMITIVE_TOPOLOGY_LINELIST
| D3D_PRIMITIVE_TOPOLOGY_TRIANGLELIST | D3D_PRIMITIVE_TOPOLOGY_TRIANGLESTRIP.
Inductive D3D12_HEAP_TYPE :=
  D3D12_HEAP_TYPE_DEFAULT | D3D12_HEAP_TYPE_UPLOAD | D3D12_HEAP_TYPE_READBACK.
Inductive D3D12_HEAP_FLAGS := D3D12_HEAP_FLAG_NONE.
Inductive D3D12_RESOURCE_DIMENSION :=
  D3D12_RESOURCE_DIMENSION_UNKNOWN | D3D12_RESOURCE_DIMENSION_BUFFER
| D3D12_RESOURCE_DIMENSION_TEXTURE2D.
Inductive D3D12_TEXTURE_LAYOUT :=
  D3D12_TEXTURE_LAYOUT_UNKNOWN | D3D12_TEXTURE_LAYOUT_ROW_MAJOR.
Inductive D3D12_RESOURCE_STATES :=
  D3D12_RESOURCE_STATE_PRESENT | D3D12_RESOURCE_STATE_RENDER_TARGET
| D3D12_RESOURCE_STATE_GENERIC_READ | D3D12_RESOURCE_STATE_COPY_DEST.
(** The [D3D12_DEFAULT] tag of the [CD3DX12_*] helper constructors. *)
Inductive CD3DX12_DESC := D3D12_DEFAULT.
(** The time-out argument of [WaitForSingleObject]. *)
Inductive timeout := INFINITE | milliseconds (ms : Z).

Record D3D12_COMMAND_QUEUE_DESC := {
  cq_Type : D3D12_COMMAND_LIST_TYPE }.

Record DXGI_SWAP_CHAIN_DESC1 := {
  BufferCount : Z;
  sc_Width : Z;
  sc_Height : Z;
  sc_Format : DXGI_FORMAT;
  BufferUsage : DXGI_USAGE;
  SwapEffect : DXGI_SWAP_EFFECT;
  sc_SampleDesc_Count : Z }.

Record D3D12_DESCRIPTOR_HEAP_DESC := {
  NumDescriptors : Z;
  dh_Type : D3D12_DESCRIPTOR_HEAP_TYPE;
  dh_Flags : D3D12_DESCRIPTOR_HEAP_FLAGS }.

Record D3D12_ROOT_SIGNATURE_DESC := {
  NumParameters : Z;
  pParameters : handle;
  rs_Flags : D3D12_ROOT_SIGNATURE_FLAGS }.

Record D3D12_INPUT_ELEMENT_DESC := {
  SemanticName : string;
  SemanticIndex : Z;
  ie_Format : DXGI_FORMAT;
  InputSlot : Z;
  AlignedByteOffset : Z;
  InputSlotClass : D3D12_INPUT_CLASSIFICATION;
  InstanceDataStepRate : Z }.

(** A [{ pointer, size }] pair, as [D3D12_SHADER_BYTECODE]. *)
Record D3D12_SHADER_BYTECODE := {
  pShaderBytecode : Z;
  BytecodeLength : Z }.

Record D3D12_GRAPHICS_PIPELINE_STATE_DESC := {
  InputLayout : list D3D12_INPUT_ELEMENT_DESC * Z;
  pRootSignature : handle;
  VS : D3D12_SHADER_BYTECODE;
  PS : D3D12_SHADER_BYTECODE;
  RasterizerState : CD3DX12_DESC;
  BlendState : CD3DX12_DESC;
  DepthStencilState : CD3DX12_DESC;
  SampleMask : Z;
  PrimitiveTopologyType : D3D12_PRIMITIVE_TOPOLOGY_TYPE;
  NumRenderTargets : Z;
  RTVFormats0 : DXGI_FORMAT;
  pso_SampleDesc_Count : Z }.

Record D3D12_HEAP_PROPERTIES := {
  hp_Type : D3D12_HEAP_TYPE }.

Record D3D12_RESOURCE_DESC := {
  Dimension : D3D12_RESOURCE_DIMENSION;
  rd_Width : Z;
  rd_Height : Z;
  DepthOrArraySize : Z;
  MipLevels : Z;
  rd_SampleDesc_Count : Z;
  Layout : D3D12_TEXTURE_LAYOUT }.

(** [CD3DX12_RANGE(begin, end)]. *)
Record D3D12_RANGE := {
  Begin : Z;
  End_ : Z }.

Record D3D12_VIEWPORT := {
  TopLeftX : Q; TopLeftY : Q; vp_Width : Q; vp_Height : Q;
  MinDepth : Q; MaxDepth : Q }.

Record D3D12_RECT := {
  left : Z; top : Z; right : Z; bottom : Z }.

Record D3D12_RESOURCE_TRANSITION_BARRIER := {
  pResource : handle;
  StateBefore : D3D12_RESOURCE_STATES;
  StateAfter : D3D12_RESOURCE_STATES }.

(** [struct Vertex { float pos[3]; float col[4]; };] *)
Record Vertex := {
  pos : list Q;
  col : list Q }.

Definition sizeof_float : Z := 4.
(** Two arrays of [float]; every member has alignment 4, so there is no
    padding between or after them. *)
Definition sizeof_Vertex : Z := 3 * sizeof_float + 4 * sizeof_float.
Definition offsetof_Vertex_pos : Z := 0.
Definition offsetof_Vertex_col : Z := 3 * sizeof_float.
Definition countof {A} (a : list A) : Z := Z.of_nat (List.length a).
(** [sizeof] of an array of [Vertex]. *)
Definition sizeof_Vertices (a : list Vertex) : Z := countof a * sizeof_Vertex.

(** [D3D12_VERTEX_BUFFER_VIEW], with the field names the source uses. *)
Record D3D12_VERTEX_BUFFER_VIEW := {
  BufferLocation : Z;
  StrideInBytes : Z;
  SizeInElements : Z }.

Record WNDCLASS := {
  lpfnWndProc : string;
  wc_hInstance : handle;
  lpszClassName : string }.

Inductive WINDOW_STYLE := WS_OVERLAPPEDWINDOW.
Inductive WINDOW_POS := CW_USEDEFAULT.
Inductive PEEK_FLAGS := PM_NOREMOVE | PM_REMOVE.

Record MSG := {
  msg_hwnd : handle;
  message : Z;
  wParam : Z;
  lParam : Z }.

(** winuser.h *)
Definition WM_DESTROY : Z := 2.
Definition WM_QUIT : Z := 18.

(* ------------------------------------------------------------------ *)
(** * The calls the programs make, and what each answers *)

Inductive call : Type :=
(* DXGI and device *)
| CreateDXGIFactory1
| D3D12CreateDevice (pAdapter : handle) (level : D3D_FEATURE_LEVEL)
| ID3D12Device_CreateCommandQueue (device : handle) (desc : D3D12_COMMAND_QUEUE_DESC)
| IDXGIFactory_CreateSwapChainForHwnd
    (factory queue hwnd : handle) (desc : DXGI_SWAP_CHAIN_DESC1)
    (pFullscreenDesc pRestrictToOutput : handle)
| IDXGISwapChain1_As (swapChain1 : handle)
| IDXGISwapChain3_GetCurrentBackBufferIndex (swapChain : handle)
| ID3D12Device_CreateDescriptorHeap (device : handle) (desc : D3D12_DESCRIPTOR_HEAP_DESC)
| ID3D12Device_GetDescriptorHandleIncrementSize
    (device : handle) (type : D3D12_DESCRIPTOR_HEAP_TYPE)
| ID3D12DescriptorHeap_GetCPUDescriptorHandleForHeapStart (heap : handle)
| IDXGISwapChain_GetBuffer (swapChain : handle) (i : Z)
| ID3D12Device_CreateRenderTargetView
    (device resource pDesc : handle) (DestDescriptor : Z)
| ID3D12Device_CreateCommandAllocator (device : handle) (type : D3D12_COMMAND_LIST_TYPE)
| ID3D12Device_CreateCommandList
    (device : handle) (nodeMask : Z) (type : D3D12_COMMAND_LIST_TYPE)
    (allocator pInitialState : handle)
| ID3D12Device_CreateFence (device : handle) (InitialValue : Z) (flags : D3D12_FENCE_FLAGS)
| CreateEvent (lpEventAttributes : handle) (bManualReset bInitialState : bool)
    (lpName : handle)
(* pipeline *)
| D3D12SerializeRootSignature
    (desc : D3D12_ROOT_SIGNATURE_DESC) (version : D3D_ROOT_SIGNATURE_VERSION)
| ID3DBlob_GetBufferPointer (blob : handle)
| ID3DBlob_GetBufferSize (blob : handle)
| ID3D12Device_CreateRootSignature (device : handle) (nodeMask : Z) (pBlob size : Z)
| D3DCompile (src : string) (len : Z) (entry target : string)
    (flags1 : list D3DCOMPILE_FLAG) (flags2 : Z)
| OutputDebugStringA (text : Z)
| ID3D12Device_CreateGraphicsPipelineState
    (device : handle) (desc : D3D12_GRAPHICS_PIPELINE_STATE_DESC)
(* vertex buffer *)
| ID3D12Device_CreateCommittedResource
    (device : handle) (heapProps : D3D12_HEAP_PROPERTIES) (heapFlags : D3D12_HEAP_FLAGS)
    (desc : D3D12_RESOURCE_DESC) (InitialResourceState : D3D12_RESOURCE_STATES)
    (pOptimizedClearValue : handle)
| ID3D12Resource_Map (resource : handle) (Subresource : Z) (pReadRange : option D3D12_RANGE)
| memcpy (dst : Z) (src : list Vertex) (n : Z)
| ID3D12Resource_Unmap (resource : handle) (Subresource : Z)
    (pWrittenRange : option D3D12_RANGE)
| ID3D12Resource_GetGPUVirtualAddress (resource : handle)
(* recording *)
| ID3D12CommandAllocator_Reset (allocator : handle)
| ID3D12GraphicsCommandList_Reset (cmdList allocator pInitialState : handle)
| ID3D12GraphicsCommandList_RSSetViewports (cmdList : handle) (n : Z) (vp : D3D12_VIEWPORT)
| ID3D12GraphicsCommandList_RSSetScissorRects (cmdList : handle) (n : Z) (r : D3D12_RECT)
| ID3D12GraphicsCommandList_OMSetRenderTargets
    (cmdList : handle) (n : Z) (rtv : Z) (RTsSingleHandleToDescriptorRange : bool)
    (pDepthStencilDescriptor : handle)
| ID3D12GraphicsCommandList_ClearRenderTargetView
    (cmdList : handle) (rtv : Z) (ColorRGBA : list Q) (NumRects : Z) (pRects : handle)
| ID3D12GraphicsCommandList_IASetPrimitiveTopology
    (cmdList : handle) (topology : D3D_PRIMITIVE_TOPOLOGY)
| ID3D12GraphicsCommandList_IASetVertexBuffers
    (cmdList : handle) (StartSlot NumViews : Z) (view : D3D12_VERTEX_BUFFER_VIEW)
| ID3D12GraphicsCommandList_DrawInstanced
    (cmdList : handle)
    (VertexCountPerInstance InstanceCount StartVertexLocation StartInstanceLocation : Z)
| ID3D12GraphicsCommandList_ResourceBarrier
    (cmdList : handle) (n : Z) (barrier : D3D12_RESOURCE_TRANSITION_BARRIER)
| ID3D12GraphicsCommandList_Close (cmdList : handle)
(* submission and synchronisation *)
| ID3D12CommandQueue_ExecuteCommandLists (queue : handle) (n : Z) (lists : list handle)
| IDXGISwapChain_Present (swapChain : handle) (SyncInterval Flags : Z)
| ID3D12CommandQueue_Signal (queue fence : handle) (Value : Z)
| ID3D12Fence_GetCompletedValue (fence : handle)
| ID3D12Fence_SetEventOnCompletion (fence : handle) (Value : Z) (hEvent : handle)
| WaitForSingleObject (hHandle : handle) (dwMilliseconds : timeout)
(* Win32 *)
| RegisterClass (wc : WNDCLASS)
| CreateWindowEx
    (dwExStyle : Z) (lpClassName lpWindowName : string) (dwStyle : WINDOW_STYLE)
    (X Y : WINDOW_POS) (nWidth nHeight : Z) (hWndParent hMenu hInstance lpParam : handle)
| ShowWindow (hwnd : handle) (nCmdShow : Z)
| UpdateWindow (hwnd : handle)
| PeekMessage (hwnd : handle) (wMsgFilterMin wMsgFilterMax : Z) (wRemoveMsg : PEEK_FLAGS)
| TranslateMessage (msg : MSG)
| DispatchMessage (msg : MSG)
| PostQuitMessage (nExitCode : Z)
| DefWindowProc (hwnd : handle) (uMsg wParam lParam : Z)
| CloseHandle (h : handle).

(** The type of the answer to each call.  A call with a COM out-parameter
    answers the [HRESULT] and the pointer written to the out-parameter. *)
Definition ret (c : call) : Type :=
  match c with
  | CreateDXGIFactory1 | D3D12CreateDevice _ _ | ID3D12Device_CreateCommandQueue _ _
  | IDXGIFactory_CreateSwapChainForHwnd _ _ _ _ _ _ | IDXGISwapChain1_As _
  | ID3D12Device_CreateDescriptorHeap _ _ | IDXGISwapChain_GetBuffer _ _
  | ID3D12Device_CreateCommandAllocator _ _ | ID3D12Device_CreateCommandList _ _ _ _ _
  | ID3D12Device_CreateFence _ _ _ | ID3D12Device_CreateRootSignature _ _ _ _
  | ID3D12Device_CreateGraphicsPipelineState _ _
  | ID3D12Device_CreateCommittedResource _ _ _ _ _ _ => HRESULT * handle
  | ID3D12Resource_Map _ _ _ => HRESULT * Z
  (* the HRESULT, the byte-code blob and the error blob *)
  | D3D12SerializeRootSignature _ _ | D3DCompile _ _ _ _ _ _ => HRESULT * handle * handle
  | ID3D12CommandAllocator_Reset _ | ID3D12GraphicsCommandList_Reset _ _ _
  | ID3D12GraphicsCommandList_Close _ | IDXGISwapChain_Present _ _ _
  | ID3D12CommandQueue_Signal _ _ _ | ID3D12Fence_SetEventOnCompletion _ _ _ => HRESULT
  | IDXGISwapChain3_GetCurrentBackBufferIndex _
  | ID3D12Device_GetDescriptorHandleIncrementSize _ _
  | ID3D12DescriptorHeap_GetCPUDescriptorHandleForHeapStart _
  | ID3DBlob_GetBufferPointer _ | ID3DBlob_GetBufferSize _
  | ID3D12Resource_GetGPUVirtualAddress _ | ID3D12Fence_GetCompletedValue _
  | WaitForSingleObject _ _ | RegisterClass _ | DefWindowProc _ _ _ _ => Z
  | CreateEvent _ _ _ _ | CreateWindowEx _ _ _ _ _ _ _ _ _ _ _ _ => handle
  | PeekMessage _ _ _ _ => bool * MSG
  | ShowWindow _ _ | UpdateWindow _ | TranslateMessage _ | CloseHandle _ => bool
  | _ => unit
  end.

(** A call together with its answer. *)
Inductive event := Ev (c : call) (r : ret c).

Definition call_of (e : event) : call := let 'Ev c _ := e in c.

(* ------------------------------------------------------------------ *)
(** * Program state *)

(** The process-wide globals of the two translation units.  [main.cpp]
    declares all of them; [dx12window.cpp] declares the first eleven and never
    touches the last four. *)
Record globals := {
  g_device : handle;
  g_swapChain : handle;
  g_commandQueue : handle;
  g_commandAllocator : handle;
  g_commandList : handle;
  g_rtvHeap : handle;
  g_fence : handle;
  g_fenceValue : Z;
  g_fenceEvent : handle;
  g_renderTargets : list handle;
  g_frameIndex : Z;
  g_rootSig : handle;
  g_pipelineState : handle;
  g_vertexBuffer : handle;
  g_vbView : D3D12_VERTEX_BUFFER_VIEW }.

(** Static initialisation: null pointers and zeros. *)
Definition globals0 : globals := {|
  g_device := NULL; g_swapChain := NULL; g_commandQueue := NULL;
  g_commandAllocator := NULL; g_commandList := NULL; g_rtvHeap := NULL;
  g_fence := NULL; g_fenceValue := 0; g_fenceEvent := NULL;
  g_renderTargets := [NULL; NULL]; g_frameIndex := 0;
  g_rootSig := NULL; g_pipelineState := NULL; g_vertexBuffer := NULL;
  g_vbView := {| BufferLocation := 0; StrideInBytes := 0; SizeInElements := 0 |} |}.

Definition set_g_device (v : handle) (g : globals) : globals :=
  {| g_device := v; g_swapChain := g_swapChain g; g_commandQueue := g_commandQueue g;
     g_commandAllocator := g_commandAllocator g; g_commandList := g_commandList g;
     g_rtvHeap := g_rtvHeap g; g_fence := g_fence g; g_fenceValue := g_fenceValue g;
     g_fenceEvent := g_fenceEvent g; g_renderTargets := g_renderTargets g;
     g_frameIndex := g_frameIndex g; g_rootSig := g_rootSig g;
     g_pipelineState := g_pipelineState g; g_vertexBuffer := g_vertexBuffer g;
     g_vbView := g_vbView g |}.
Definition set_g_swapChain (v : handle) (g : globals) : globals :=
  {| g_device := g_device g; g_swapChain := v; g_commandQueue := g_commandQueue g;
     g_commandAllocator := g_commandAllocator g; g_commandList := g_commandList g;
     g_rtvHeap := g_rtvHeap g; g_fence := g_fence g; g_fenceValue := g_fenceValue g;
     g_fenceEvent := g_fenceEvent g; g_renderTargets := g_renderTargets g;
     g_frameIndex := g_frameIndex g; g_rootSig := g_rootSig g;
     g_pipelineState := g_pipelineState g; g_vertexBuffer := g_vertexBuffer g;
     g_vbView := g_vbView g |}.
Definition set_g_commandQueue (v : handle) (g : globals) : globals :=
  {| g_device := g_device g; g_swapChain := g_swapChain g; g_commandQueue := v;
     g_commandAllocator := g_commandAllocator g; g_commandList := g_commandList g;
     g_rtvHeap := g_rtvHeap g; g_fence := g_fence g; g_fenceValue := g_fenceValue g;
     g_fenceEvent := g_fenceEvent g; g_renderTargets := g_renderTargets g;
     g_frameIndex := g_frameIndex g; g_rootSig := g_rootSig g;
     g_pipelineState := g_pipelineState g; g_vertexBuffer := g_vertexBuffer g;
     g_vbView := g_vbView g |}.
Definition set_g_commandAllocator (v : handle) (g : globals) : globals :=
  {| g_device := g_device g; g_swapChain := g_swapChain g; g_commandQueue := g_commandQueue g;
     g_commandAllocator := v; g_commandList := g_commandList g;
     g_rtvHeap := g_rtvHeap g; g_fence := g_fence g; g_fenceValue := g_fenceValue g;
     g_fenceEvent := g_fenceEvent g; g_renderTargets := g_renderTargets g;
     g_frameIndex := g_frameIndex g; g_rootSig := g_rootSig g;
     g_pipelineState := g_pipelineState g; g_vertexBuffer := g_vertexBuffer g;
     g_vbView := g_vbView g |}.
Definition set_g_commandList (v : handle) (g : globals) : globals :=
  {| g_device := g_device g; g_swapChain := g_swapChain g; g_commandQueue := g_commandQueue g;
     g_commandAllocator := g_commandAllocator g; g_commandList := v;
     g_rtvHeap := g_rtvHeap g; g_fence := g_fence g; g_fenceValue := g_fenceValue g;
     g_fenceEvent := g_fenceEvent g; g_renderTargets := g_renderTargets g;
     g_frameIndex := g_frameIndex g; g_rootSig := g_rootSig g;
     g_pipelineState := g_pipelineState g; g_vertexBuffer := g_vertexBuffer g;
     g_vbView := g_vbView g |}.
Definition set_g_rtvHeap (v : handle) (g : globals) : globals :=
  {| g_device := g_device g; g_swapChain := g_swapChain g; g_commandQueue := g_commandQueue g;
     g_commandAllocator := g_commandAllocator g; g_commandList := g_commandList g;
     g_rtvHeap := v; g_fence := g_fence g; g_fenceValue := g_fenceValue g;
     g_fenceEvent := g_fenceEvent g; g_renderTargets := g_renderTargets g;
     g_frameIndex := g_frameIndex g; g_rootSig := g_rootSig g;
     g_pipelineState := g_pipelineState g; g_vertexBuffer := g_vertexBuffer g;
     g_vbView := g_vbView g |}.
Definition set_g_fence (v : handle) (g : globals) : globals :=
  {| g_device := g_device g; g_swapChain := g_swapChain g; g_commandQueue := g_commandQueue g;
     g_commandAllocator := g_commandAllocator g; g_commandList := g_commandList g;
     g_rtvHeap := g_rtvHeap g; g_fence := v; g_fenceValue := g_fenceValue g;
     g_fenceEvent := g_fenceEvent g; g_renderTargets := g_renderTargets g;
     g_frameIndex := g_frameIndex g; g_rootSig := g_rootSig g;
     g_pipelineState := g_pipelineState g; g_vertexBuffer := g_vertexBuffer g;
     g_vbView := g_vbView g |}.
Definition set_g_fenceValue (v : Z) (g : globals) : globals :=
  {| g_device := g_device g; g_swapChain := g_swapChain g; g_commandQueue := g_commandQueue g;
     g_commandAllocator := g_commandAllocator g; g_commandList := g_commandList g;
     g_rtvHeap := g_rtvHeap g; g_fence := g_fence g; g_fenceValue := v;
     g_fenceEvent := g_fenceEvent g; g_renderTargets := g_renderTargets g;
     g_frameIndex := g_frameIndex g; g_rootSig := g_rootSig g;
     g_pipelineState := g_pipelineState g; g_vertexBuffer := g_vertexBuffer g;
     g_vbView := g_vbView g |}.
Definition set_g_fenceEvent (v : handle) (g : globals) : globals :=
  {| g_device := g_device g; g_swapChain := g_swapChain g; g_commandQueue := g_commandQueue g;
     g_commandAllocator := g_commandAllocator g; g_commandList := g_commandList g;
     g_rtvHeap := g_rtvHeap g; g_fence := g_fence g; g_fenceValue := g_fenceValue g;
     g_fenceEvent := v; g_renderTargets := g_renderTargets g;
     g_frameIndex := g_frameIndex g; g_rootSig := g_rootSig g;
     g_pipelineState := g_pipelineState g; g_vertexBuffer := g_vertexBuffer g;
     g_vbView := g_vbView g |}.
Definition set_g_renderTargets (v : list handle) (g : globals) : globals :=
  {| g_device := g_device g; g_swapChain := g_swapChain g; g_commandQueue := g_commandQueue g;
     g_commandAllocator := g_commandAllocator g; g_commandList := g_commandList g;
     g_rtvHeap := g_rtvHeap g; g_fence := g_fence g; g_fenceValue := g_fenceValue g;
     g_fenceEvent := g_fenceEvent g; g_renderTargets := v;
     g_frameIndex := g_frameIndex g; g_rootSig := g_rootSig g;
     g_pipelineState := g_pipelineState g; g_vertexBuffer := g_vertexBuffer g;
     g_vbView := g_vbView g |}.
Definition set_g_frameIndex (v : Z) (g : globals) : globals :=
  {| g_device := g_device g; g_swapChain := g_swapChain g; g_commandQueue := g_commandQueue g;
     g_commandAllocator := g_commandAllocator g; g_commandList := g_commandList g;
     g_rtvHeap := g_rtvHeap g; g_fence := g_fence g; g_fenceValue := g_fenceValue g;
     g_fenceEvent := g_fenceEvent g; g_renderTargets := g_renderTargets g;
     g_frameIndex := v; g_rootSig := g_rootSig g;
     g_pipelineState := g_pipelineState g; g_vertexBuffer := g_vertexBuffer g;
     g_vbView := g_vbView g |}.
Definition set_g_rootSig (v : handle) (g : globals) : globals :=
  {| g_device := g_device g; g_swapChain := g_swapChain g; g_commandQueue := g_commandQueue g;
     g_commandAllocator := g_commandAllocator g; g_commandList := g_commandList g;
     g_rtvHeap := g_rtvHeap g; g_fence := g_fence g; g_fenceValue := g_fenceValue g;
     g_fenceEvent := g_fenceEvent g; g_renderTargets := g_renderTargets g;
     g_frameIndex := g_frameIndex g; g_rootSig := v;
     g_pipelineState := g_pipelineState g; g_vertexBuffer := g_vertexBuffer g;
     g_vbView := g_vbView g |}.
Definition set_g_pipelineState (v : handle) (g : globals) : globals :=
  {| g_device := g_device g; g_swapChain := g_swapChain g; g_commandQueue := g_commandQueue g;
     g_commandAllocator := g_commandAllocator g; g_commandList := g_commandList g;
     g_rtvHeap := g_rtvHeap g; g_fence := g_fence g; g_fenceValue := g_fenceValue g;
     g_fenceEvent := g_fenceEvent g; g_renderTargets := g_renderTargets g;
     g_frameIndex := g_frameIndex g; g_rootSig := g_rootSig g;
     g_pipelineState := v; g_vertexBuffer := g_vertexBuffer g;
     g_vbView := g_vbView g |}.
Definition set_g_vertexBuffer (v : handle) (g : globals) : globals :=
  {| g_device := g_device g; g_swapChain := g_swapChain g; g_commandQueue := g_commandQueue g;
     g_commandAllocator := g_commandAllocator g; g_commandList := g_commandList g;
     g_rtvHeap := g_rtvHeap g; g_fence := g_fence g; g_fenceValue := g_fenceValue g;
     g_fenceEvent := g_fenceEvent g; g_renderTargets := g_renderTargets g;
     g_frameIndex := g_frameIndex g; g_rootSig := g_rootSig g;
     g_pipelineState := g_pipelineState g; g_vertexBuffer := v;
     g_vbView := g_vbView g |}.
Definition set_g_vbView (v : D3D12_VERTEX_BUFFER_VIEW) (g : globals) : globals :=
  {| g_device := g_device g; g_swapChain := g_swapChain g; g_commandQueue := g_commandQueue g;
     g_commandAllocator := g_commandAllocator g; g_commandList := g_commandList g;
     g_rtvHeap := g_rtvHeap g; g_fence := g_fence g; g_fenceValue := g_fenceValue g;
     g_fenceEvent := g_fenceEvent g; g_renderTargets := g_renderTargets g;
     g_frameIndex := g_frameIndex g; g_rootSig := g_rootSig g;
     g_pipelineState := g_pipelineState g; g_vertexBuffer := g_vertexBuffer g;
     g_vbView := v |}.

(** [a[i] = v] on a fixed-size array; the source only indexes within bounds. *)
Fixpoint array_set {A} (a : list A) (i : nat) (v : A) : list A :=
  match a, i with
  | [], _ => []
  | _ :: t, O => v :: t
  | x :: t, S j => x :: array_set t j v
  end.

(** Where control is.  This and the frame number are ghost state: the
    programs never read them. *)
Inductive phase := Startup | Initializing | Idle | Rendering | Exited.

Inductive outcome (A : Type) :=
| Normal (a : A)
| Thrown (what : string)      (* a [std::runtime_error] on its way out *)
| OutOfFuel.                  (* the loop bound of the model was reached *)
Arguments Thrown {A}.
Arguments OutOfFuel {A}.

Section Machine.
Context {W : Type}.
(** The outside world: every call is answered, and the world moves on. *)
Variable api : forall c : call, W -> ret c * W.

Record config := {
  cg : globals;          (* the globals *)
  cw : W;                (* the world *)
  cphase : phase;        (* ghost *)
  cframe : nat }.        (* ghost: frames started so far *)

Record state := {
  cur : config;
  trace : list event;    (* oldest first *)
  hist : list config }.  (* oldest first *)

Definition M (A : Type) := state -> outcome A * state.

Definition ret_ {A} (a : A) : M A := fun s => (Normal a, s).
Definition throw {A} (what : string) : M A := fun s => (Thrown what, s).
Definition out_of_fuel {A} : M A := fun s => (OutOfFuel, s).
Definition bind {A B} (m : M A) (k : A -> M B) : M B :=
  fun s =>
    match m s with
    | (Normal a, s') => k a s'
    | (Thrown e, s') => (Thrown e, s')
    | (OutOfFuel, s') => (OutOfFuel, s')
    end.

Definition move (c' : config) (s : state) : state :=
  {| cur := c'; trace := trace s; hist := hist s ++ [c'] |}.

(** Make a call: the world answers, the call is logged. *)
Definition call_ (c : call) : M (ret c) :=
  fun s =>
    let k := cur s in
    let r := api c (cw k) in
    let k' := {| cg := cg k; cw := snd r; cphase := cphase k; cframe := cframe k |} in
    (Normal (fst r),
     {| cur := k'; trace := trace s ++ [Ev c (fst r)]; hist := hist s ++ [k'] |}).

(** Read the globals. *)
Definition now : M globals := fun s => (Normal (cg (cur s)), s).

(** Assign to a global. *)
Definition write (f : globals -> globals) : M unit :=
  fun s =>
    let k := cur s in
    (Normal tt,
     move {| cg := f (cg k); cw := cw k; cphase := cphase k; cframe := cframe k |} s).

(** Ghost updates. *)
Definition enter (p : phase) : M unit :=
  fun s =>
    let k := cur s in
    (Normal tt, move {| cg := cg k; cw := cw k; cphase := p; cframe := cframe k |} s).
Definition begin_frame : M unit :=
  fun s =>
    let k := cur s in
    (Normal tt,
     move {| cg := cg k; cw := cw k; cphase := Rendering; cframe := S (cframe k) |} s).

(** [inline void ThrowIfFailed(HRESULT hr)] *)
Definition ThrowIfFailed (hr : HRESULT) : M unit :=
  if FAILED hr then throw "HRESULT failed" else ret_ tt.
End Machine.

Declare Scope prog_scope.
Delimit Scope prog_scope with prog.
Notation "x <- m ;; k" := (bind m (fun x => k))
  (at level 61, m at next level, right associativity) : prog_scope.
Notation "' p <- m ;; k" := (bind m (fun x => let 'p := x in k))
  (at level 61, p pattern, m at next level, right associativity) : prog_scope.
Notation "m ;; k" := (bind m (fun _ => k))
  (at level 61, right associativity) : prog_scope.

Arguments config : clear implicits.
Arguments state : clear implicits.

Local Open Scope prog_scope.

(** [rtvHandle.ptr += g_frameIndex * rtvSize]: the product is a [UINT], the
    sum a [SIZE_T]. *)
Definition rtv_offset (frameIndex rtvSize : Z) : Z := UINT_wrap (frameIndex * rtvSize).
Definition rtv_handle (heapStart frameIndex rtvSize : Z) : Z :=
  SIZE_T_wrap (heapStart + rtv_offset frameIndex rtvSize).

(* ------------------------------------------------------------------ *)
(** * What the two files share

    [main.cpp] and [dx12window.cpp] contain the same text for the loop that
    creates the render-target views, for [WindowProc] and for the main loop of
    [WinMain] (which differs only in the [Render] it calls).  That text is
    modelled once. *)

Module Host.
Section Program.
Context {W : Type}.
Variable api : forall c : call, W -> ret c * W.
Local Abbreviation sys := (call_ api).

(** The body of [for (UINT i = 0; i < 2; ++i)] (main.cpp lines 126-131,
    dx12window.cpp lines 77-82), run for the [n] indices from [i] on; the
    local [rtvHandle] is threaded through. *)
Fixpoint rtv_loop (n : nat) (i : Z) (rtvSize rtvHandle : Z) : M unit :=
  match n with
  | O => ret_ tt
  | S n' =>
      g <- now ;;
      '(hr, buffer) <- sys (IDXGISwapChain_GetBuffer (g_swapChain g) i) ;;
      write (fun g => set_g_renderTargets
                        (array_set (g_renderTargets g) (Z.to_nat i) buffer) g) ;;
      ThrowIfFailed hr ;;
      g <- now ;;
      sys (ID3D12Device_CreateRenderTargetView
             (g_device g) (nth (Z.to_nat i) (g_renderTargets g) NULL) NULL rtvHandle) ;;
      rtv_loop n' (UINT_wrap (i + 1)) rtvSize (SIZE_T_wrap (rtvHandle + rtvSize))
  end.

(** [LRESULT CALLBACK WindowProc(hwnd, uMsg, wParam, lParam)] (main.cpp
    lines 331-339, dx12window.cpp lines 129-137). *)
Definition WindowProc (hwnd : handle) (uMsg wParam lParam : Z) : M Z :=
  if uMsg =? WM_DESTROY then
    sys (PostQuitMessage 0) ;;
    ret_ 0
  else sys (DefWindowProc hwnd uMsg wParam lParam).

(** What [DispatchMessage] does with a message: one addressed to a window
    reaches the window procedure registered for it, a thread message (null
    [hwnd], as [WM_QUIT] is) reaches none. *)
Definition dispatch (msg : MSG) : M unit :=
  sys (DispatchMessage msg) ;;
  if msg_hwnd msg =? NULL then ret_ tt
  else WindowProc (msg_hwnd msg) (message msg) (wParam msg) (lParam msg) ;;
       ret_ tt.

(** The inner [while (PeekMessage(...))] (main.cpp lines 367-372,
    dx12window.cpp lines 162-167).  [true] is the [goto cleanup]; [fuel]
    bounds the messages drained in one go. *)
Fixpoint pump (fuel : nat) : M bool :=
  match fuel with
  | O => out_of_fuel
  | S fuel' =>
      '(pending, msg) <- sys (PeekMessage NULL 0 0 PM_REMOVE) ;;
      if pending : bool then
        sys (TranslateMessage msg) ;;
        dispatch msg ;;
        if message msg =? WM_QUIT then ret_ true else pump fuel'
      else ret_ false
  end.

(** The outer [while (true)] (main.cpp lines 365-374, dx12window.cpp lines
    160-169) around the file's own [Render]; [fuel] bounds the frames.  The
    two ghost updates mark where a frame starts and ends. *)
Variable Render : M (W := W) unit.

Fixpoint main_loop (fuel : nat) : M unit :=
  match fuel with
  | O => out_of_fuel
  | S fuel' =>
      quit <- pump (S fuel') ;;
      if quit : bool then ret_ tt
      else
        begin_frame ;;
        Render ;;
        enter Idle ;;
        main_loop fuel'
  end.

(** [WinMain] from its call of [InitD3D12] to its [return 0] (main.cpp lines
    362-378, dx12window.cpp lines 156-173), around the file's own
    [InitD3D12] and [Render].  Each [WinMain] below is written out in full;
    this is the part of it that the two share, so that a lemma about it is
    stated once. *)
Variable InitD3D12 : handle -> M (W := W) unit.

Definition WinMain_rest (fuel : nat) (hwnd : handle) : M Z :=
  enter Initializing ;;
  InitD3D12 hwnd ;;
  enter Idle ;;
  main_loop fuel ;;
  g <- now ;;
  sys (CloseHandle (g_fenceEvent g)) ;;
  enter Exited ;;
  ret_ 0.
End Program.
End Host.

(* ------------------------------------------------------------------ *)
(** * [src/main.cpp]: the triangle *)

Module Triangle.
Section Program.
Context {W : Type}.
Variable api : forall c : call, W -> ret c * W.
Local Abbreviation sys := (call_ api).

(** [void Render()], main.cpp lines 283-326. *)
Definition Render : M unit :=
  let clearColor := [0.2; 0.4; 0.6; 1.0]%Q in
  g <- now ;;
  hr <- sys (ID3D12CommandAllocator_Reset (g_commandAllocator g)) ;;
  ThrowIfFailed hr ;;
  hr <- sys (ID3D12GraphicsCommandList_Reset
                (g_commandList g) (g_commandAllocator g) (g_pipelineState g)) ;;
  ThrowIfFailed hr ;;
  (* Viewport & scissor *)
  let vp := {| TopLeftX := 0.0; TopLeftY := 0.0; vp_Width := 800.0; vp_Height := 600.0;
               MinDepth := 0.0; MaxDepth := 1.0 |}%Q in
  let scissor := {| left := 0; top := 0; right := 800; bottom := 600 |} in
  sys (ID3D12GraphicsCommandList_RSSetViewports (g_commandList g) 1 vp) ;;
  sys (ID3D12GraphicsCommandList_RSSetScissorRects (g_commandList g) 1 scissor) ;;
  (* Render target *)
  rtvSize <- sys (ID3D12Device_GetDescriptorHandleIncrementSize
                     (g_device g) D3D12_DESCRIPTOR_HEAP_TYPE_RTV) ;;
  heapStart <- sys (ID3D12DescriptorHeap_GetCPUDescriptorHandleForHeapStart
                       (g_rtvHeap g)) ;;
  let rtvHandle := rtv_handle heapStart (g_frameIndex g) rtvSize in
  sys (ID3D12GraphicsCommandList_OMSetRenderTargets
          (g_commandList g) 1 rtvHandle false NULL) ;;
  (* Clear *)
  sys (ID3D12GraphicsCommandList_ClearRenderTargetView
          (g_commandList g) rtvHandle clearColor 0 NULL) ;;
  (* Draw triangle *)
  sys (ID3D12GraphicsCommandList_IASetPrimitiveTopology
          (g_commandList g) D3D_PRIMITIVE_TOPOLOGY_TRIANGLELIST) ;;
  sys (ID3D12GraphicsCommandList_IASetVertexBuffers (g_commandList g) 0 1 (g_vbView g)) ;;
  sys (ID3D12GraphicsCommandList_DrawInstanced (g_commandList g) 3 1 0 0) ;;
  hr <- sys (ID3D12GraphicsCommandList_Close (g_commandList g)) ;;
  ThrowIfFailed hr ;;
  let lists := [g_commandList g] in
  sys (ID3D12CommandQueue_ExecuteCommandLists (g_commandQueue g) (countof lists) lists) ;;
  hr <- sys (IDXGISwapChain_Present (g_swapChain g) 1 0) ;;
  ThrowIfFailed hr ;;
  (* GPU-CPU sync *)
  hr <- sys (ID3D12CommandQueue_Signal (g_commandQueue g) (g_fence g) (g_fenceValue g)) ;;
  ThrowIfFailed hr ;;
  completed <- sys (ID3D12Fence_GetCompletedValue (g_fence g)) ;;
  (if completed <? g_fenceValue g then
     hr <- sys (ID3D12Fence_SetEventOnCompletion
                   (g_fence g) (g_fenceValue g) (g_fenceEvent g)) ;;
     ThrowIfFailed hr ;;
     sys (WaitForSingleObject (g_fenceEvent g) INFINITE) ;;
     ret_ tt
   else ret_ tt) ;;
  write (fun g => set_g_fenceValue (UINT64_wrap (g_fenceValue g + 1)) g) ;;
  index <- sys (IDXGISwapChain3_GetCurrentBackBufferIndex (g_swapChain g)) ;;
  write (set_g_frameIndex index).

(** [ComPtr<ID3DBlob> CompileShader(src, entry, target)], lines 58-74.
    [_DEBUG] is the build configuration. *)
Variable _DEBUG : bool.

Definition CompileShader (src entry target : string) : M handle :=
  let flags := [D3DCOMPILE_ENABLE_STRICTNESS] in
  let flags :=
    if _DEBUG then flags ++ [D3DCOMPILE_DEBUG; D3DCOMPILE_SKIP_OPTIMIZATION] else flags in
  '(hr, byteCode, errors) <-
    sys (D3DCompile src (Z.of_nat (String.length src)) entry target flags 0) ;;
  if FAILED hr then
    (if errors =? NULL then ret_ tt
     else text <- sys (ID3DBlob_GetBufferPointer errors) ;;
          sys (OutputDebugStringA text)) ;;
    throw "Shader compilation failed"
  else ret_ byteCode.

Definition vsSource : string := "
struct VSInput
{
    float3 pos : POSITION;
    float4 col : COLOR0;
};

struct PSOutput
{
    float4 pos : SV_POSITION;
    float4 col : COLOR0;
};

PSOutput main(VSInput input)
{
    PSOutput output;
    output.pos = float4(input.pos, 1.0);
    output.col = input.col;
    return output;
}
".

Definition psSource : string := "
struct PSInput
{
    float4 pos : SV_POSITION;
    float4 col : COLOR0;
};

float4 main(PSInput input) : SV_TARGET
{
    return input.col;
}
".

Definition vertices : list Vertex :=
  [ {| pos := [ 0.0;  0.5; 0.0]; col := [1.0; 0.0; 0.0; 1.0] |};
    {| pos := [-0.5; -0.5; 0.0]; col := [0.0; 1.0; 0.0; 1.0] |};
    {| pos := [ 0.5; -0.5; 0.0]; col := [0.0; 0.0; 1.0; 1.0] |} ]%Q.

(** [void InitD3D12(HWND hwnd)], lines 79-278.  A COM out-parameter is
    stored by the call itself, before its [HRESULT] is tested. *)
Definition InitD3D12 (hwnd : handle) : M unit :=
  (* Factory *)
  '(hr, factory) <- sys CreateDXGIFactory1 ;;
  ThrowIfFailed hr ;;
  (* Device *)
  '(hr, p) <- sys (D3D12CreateDevice NULL D3D_FEATURE_LEVEL_11_0) ;;
  write (set_g_device p) ;;
  ThrowIfFailed hr ;;
  (* Command queue *)
  let queueDesc := {| cq_Type := D3D12_COMMAND_LIST_TYPE_DIRECT |} in
  g <- now ;;
  '(hr, p) <- sys (ID3D12Device_CreateCommandQueue (g_device g) queueDesc) ;;
  write (set_g_commandQueue p) ;;
  ThrowIfFailed hr ;;
  (* Swap chain *)
  let swapDesc := {| BufferCount := 2; sc_Width := 800; sc_Height := 600;
                     sc_Format := DXGI_FORMAT_R8G8B8A8_UNORM;
                     BufferUsage := DXGI_USAGE_RENDER_TARGET_OUTPUT;
                     SwapEffect := DXGI_SWAP_EFFECT_FLIP_DISCARD;
                     sc_SampleDesc_Count := 1 |} in
  g <- now ;;
  '(hr, swapChain1) <-
    sys (IDXGIFactory_CreateSwapChainForHwnd
           factory (g_commandQueue g) hwnd swapDesc NULL NULL) ;;
  ThrowIfFailed hr ;;
  '(hr, p) <- sys (IDXGISwapChain1_As swapChain1) ;;
  write (set_g_swapChain p) ;;
  ThrowIfFailed hr ;;
  g <- now ;;
  index <- sys (IDXGISwapChain3_GetCurrentBackBufferIndex (g_swapChain g)) ;;
  write (set_g_frameIndex index) ;;
  (* RTV heap *)
  let rtvHeapDesc := {| NumDescriptors := BufferCount swapDesc;
                        dh_Type := D3D12_DESCRIPTOR_HEAP_TYPE_RTV;
                        dh_Flags := D3D12_DESCRIPTOR_HEAP_FLAG_NONE |} in
  '(hr, p) <- sys (ID3D12Device_CreateDescriptorHeap (g_device g) rtvHeapDesc) ;;
  write (set_g_rtvHeap p) ;;
  ThrowIfFailed hr ;;
  (* Render target views *)
  g <- now ;;
  rtvSize <- sys (ID3D12Device_GetDescriptorHandleIncrementSize
                    (g_device g) D3D12_DESCRIPTOR_HEAP_TYPE_RTV) ;;
  rtvHandle <- sys (ID3D12DescriptorHeap_GetCPUDescriptorHandleForHeapStart
                      (g_rtvHeap g)) ;;
  Host.rtv_loop api 2 0 rtvSize rtvHandle ;;
  (* Command allocator & list *)
  '(hr, p) <- sys (ID3D12Device_CreateCommandAllocator
                     (g_device g) D3D12_COMMAND_LIST_TYPE_DIRECT) ;;
  write (set_g_commandAllocator p) ;;
  ThrowIfFailed hr ;;
  g <- now ;;
  '(hr, p) <- sys (ID3D12Device_CreateCommandList
                     (g_device g) 0 D3D12_COMMAND_LIST_TYPE_DIRECT
                     (g_commandAllocator g) NULL) ;;
  write (set_g_commandList p) ;;
  ThrowIfFailed hr ;;
  g <- now ;;
  sys (ID3D12GraphicsCommandList_Close (g_commandList g)) ;;
  (* Fence *)
  '(hr, p) <- sys (ID3D12Device_CreateFence (g_device g) 0 D3D12_FENCE_FLAG_NONE) ;;
  write (set_g_fence p) ;;
  ThrowIfFailed hr ;;
  write (set_g_fenceValue 1) ;;
  ev <- sys (CreateEvent NULL false false NULL) ;;
  write (set_g_fenceEvent ev) ;;
  g <- now ;;
  (if g_fenceEvent g =? NULL then throw "Failed to create fence event" else ret_ tt) ;;
  (* Root signature *)
  let desc := {| NumParameters := 0; pParameters := NULL;
                 rs_Flags := D3D12_ROOT_SIGNATURE_FLAG_ALLOW_INPUT_ASSEMBLER_INPUT_LAYOUT |} in
  '(hr, signatureBlob, errorBlob) <-
    sys (D3D12SerializeRootSignature desc D3D_ROOT_SIGNATURE_VERSION_1) ;;
  (if FAILED hr then throw "Failed to serialize root signature" else ret_ tt) ;;
  (* the two arguments are evaluated in an unspecified order; left to right here *)
  pBlob <- sys (ID3DBlob_GetBufferPointer signatureBlob) ;;
  size <- sys (ID3DBlob_GetBufferSize signatureBlob) ;;
  '(hr, p) <- sys (ID3D12Device_CreateRootSignature (g_device g) 0 pBlob size) ;;
  write (set_g_rootSig p) ;;
  ThrowIfFailed hr ;;
  (* Shaders *)
  vsBlob <- CompileShader vsSource "main" "vs_5_0" ;;
  psBlob <- CompileShader psSource "main" "ps_5_0" ;;
  (* PSO *)
  let inputLayout :=
    [ {| SemanticName := "POSITION"; SemanticIndex := 0;
         ie_Format := DXGI_FORMAT_R32G32B32_FLOAT; InputSlot := 0;
         AlignedByteOffset := offsetof_Vertex_pos;
         InputSlotClass := D3D12_INPUT_CLASSIFICATION_PER_VERTEX_DATA;
         InstanceDataStepRate := 0 |};
      {| SemanticName := "COLOR"; SemanticIndex := 0;
         ie_Format := DXGI_FORMAT_R32G32B32A32_FLOAT; InputSlot := 0;
         AlignedByteOffset := offsetof_Vertex_col;
         InputSlotClass := D3D12_INPUT_CLASSIFICATION_PER_VERTEX_DATA;
         InstanceDataStepRate := 0 |} ] in
  g <- now ;;
  vsPtr <- sys (ID3DBlob_GetBufferPointer vsBlob) ;;
  vsLen <- sys (ID3DBlob_GetBufferSize vsBlob) ;;
  psPtr <- sys (ID3DBlob_GetBufferPointer psBlob) ;;
  psLen <- sys (ID3DBlob_GetBufferSize psBlob) ;;
  let psoDesc :=
    {| InputLayout := (inputLayout, countof inputLayout);
       pRootSignature := g_rootSig g;
       VS := {| pShaderBytecode := vsPtr; BytecodeLength := vsLen |};
       PS := {| pShaderBytecode := psPtr; BytecodeLength := psLen |};
       RasterizerState := D3D12_DEFAULT;
       BlendState := D3D12_DEFAULT;
       DepthStencilState := D3D12_DEFAULT;
       SampleMask := UINT_MAX;
       PrimitiveTopologyType := D3D12_PRIMITIVE_TOPOLOGY_TYPE_TRIANGLE;
       NumRenderTargets := 1;
       RTVFormats0 := DXGI_FORMAT_R8G8B8A8_UNORM;
       pso_SampleDesc_Count := 1 |} in
  '(hr, p) <- sys (ID3D12Device_CreateGraphicsPipelineState (g_device g) psoDesc) ;;
  write (set_g_pipelineState p) ;;
  ThrowIfFailed hr ;;
  (* Vertex buffer *)
  let vbSize := sizeof_Vertices vertices in
  let heapProps := {| hp_Type := D3D12_HEAP_TYPE_UPLOAD |} in
  let bufferDesc := {| Dimension := D3D12_RESOURCE_DIMENSION_BUFFER;
                       rd_Width := vbSize; rd_Height := 1; DepthOrArraySize := 1;
                       MipLevels := 1; rd_SampleDesc_Count := 1;
                       Layout := D3D12_TEXTURE_LAYOUT_ROW_MAJOR |} in
  '(hr, p) <- sys (ID3D12Device_CreateCommittedResource
                     (g_device g) heapProps D3D12_HEAP_FLAG_NONE bufferDesc
                     D3D12_RESOURCE_STATE_GENERIC_READ NULL) ;;
  write (set_g_vertexBuffer p) ;;
  ThrowIfFailed hr ;;
  (* Copy data *)
  let readRange := {| Begin := 0; End_ := 0 |} in
  g <- now ;;
  '(hr, pData) <- sys (ID3D12Resource_Map (g_vertexBuffer g) 0 (Some readRange)) ;;
  ThrowIfFailed hr ;;
  sys (memcpy pData vertices vbSize) ;;
  sys (ID3D12Resource_Unmap (g_vertexBuffer g) 0 None) ;;
  (* View *)
  address <- sys (ID3D12Resource_GetGPUVirtualAddress (g_vertexBuffer g)) ;;
  write (fun g => set_g_vbView
           {| BufferLocation := address;
              StrideInBytes := StrideInBytes (g_vbView g);
              SizeInElements := SizeInElements (g_vbView g) |} g) ;;
  write (fun g => set_g_vbView
           {| BufferLocation := BufferLocation (g_vbView g);
              StrideInBytes := sizeof_Vertex;
              SizeInElements := SizeInElements (g_vbView g) |} g) ;;
  write (fun g => set_g_vbView
           {| BufferLocation := BufferLocation (g_vbView g);
              StrideInBytes := StrideInBytes (g_vbView g);
              SizeInElements := countof vertices |} g).

(** [int WINAPI WinMain(hInstance, , , nCmdShow)], lines 344-379.  An
    exception that leaves [InitD3D12] or [Render] is caught nowhere: it
    leaves [WinMain] too, and the statements after it are not run. *)
Definition WinMain (fuel : nat) (hInstance : handle) (nCmdShow : Z) : M Z :=
  let CLASS_NAME := "DX12WindowClass"%string in
  let wc := {| lpfnWndProc := "WindowProc"; wc_hInstance := hInstance;
               lpszClassName := CLASS_NAME |} in
  sys (RegisterClass wc) ;;
  hwnd <- sys (CreateWindowEx 0 CLASS_NAME "Triangle DX12" WS_OVERLAPPEDWINDOW
                 CW_USEDEFAULT CW_USEDEFAULT 800 600 NULL NULL hInstance NULL) ;;
  sys (ShowWindow hwnd nCmdShow) ;;
  sys (UpdateWindow hwnd) ;;
  enter Initializing ;;
  InitD3D12 hwnd ;;
  enter Idle ;;
  Host.main_loop api Render fuel ;;
  (* cleanup: *)
  g <- now ;;
  sys (CloseHandle (g_fenceEvent g)) ;;
  enter Exited ;;
  ret_ 0.
End Program.
End Triangle.

(* ------------------------------------------------------------------ *)
(** * [src/dx12window.cpp]: the cleared window *)

Module Window.
Section Program.
Context {W : Type}.
Variable api : forall c : call, W -> ret c * W.
Local Abbreviation sys := (call_ api).

(** [void InitD3D12(HWND hwnd)], lines 31-94. *)
Definition InitD3D12 (hwnd : handle) : M unit :=
  (* Device *)
  '(hr, factory) <- sys CreateDXGIFactory1 ;;
  ThrowIfFailed hr ;;
  '(hr, p) <- sys (D3D12CreateDevice NULL D3D_FEATURE_LEVEL_11_0) ;;
  write (set_g_device p) ;;
  ThrowIfFailed hr ;;
  (* Command queue *)
  let queueDesc := {| cq_Type := D3D12_COMMAND_LIST_TYPE_DIRECT |} in
  g <- now ;;
  '(hr, p) <- sys (ID3D12Device_CreateCommandQueue (g_device g) queueDesc) ;;
  write (set_g_commandQueue p) ;;
  ThrowIfFailed hr ;;
  (* Swap chain *)
  let swapDesc := {| BufferCount := 2; sc_Width := 800; sc_Height := 600;
                     sc_Format := DXGI_FORMAT_R8G8B8A8_UNORM;
                     BufferUsage := DXGI_USAGE_RENDER_TARGET_OUTPUT;
                     SwapEffect := DXGI_SWAP_EFFECT_FLIP_DISCARD;
                     sc_SampleDesc_Count := 1 |} in
  g <- now ;;
  '(hr, swapChain1) <-
    sys (IDXGIFactory_CreateSwapChainForHwnd
           factory (g_commandQueue g) hwnd swapDesc NULL NULL) ;;
  ThrowIfFailed hr ;;
  '(hr, p) <- sys (IDXGISwapChain1_As swapChain1) ;;
  write (set_g_swapChain p) ;;
  ThrowIfFailed hr ;;
  g <- now ;;
  index <- sys (IDXGISwapChain3_GetCurrentBackBufferIndex (g_swapChain g)) ;;
  write (set_g_frameIndex index) ;;
  (* RTV heap *)
  let rtvHeapDesc := {| NumDescriptors := BufferCount swapDesc;
                        dh_Type := D3D12_DESCRIPTOR_HEAP_TYPE_RTV;
                        dh_Flags := D3D12_DESCRIPTOR_HEAP_FLAG_NONE |} in
  '(hr, p) <- sys (ID3D12Device_CreateDescriptorHeap (g_device g) rtvHeapDesc) ;;
  write (set_g_rtvHeap p) ;;
  ThrowIfFailed hr ;;
  (* Create render target views *)
  g <- now ;;
  rtvSize <- sys (ID3D12Device_GetDescriptorHandleIncrementSize
                    (g_device g) D3D12_DESCRIPTOR_HEAP_TYPE_RTV) ;;
  rtvHandle <- sys (ID3D12DescriptorHeap_GetCPUDescriptorHandleForHeapStart
                      (g_rtvHeap g)) ;;
  Host.rtv_loop api 2 0 rtvSize rtvHandle ;;
  (* Command allocator and list *)
  '(hr, p) <- sys (ID3D12Device_CreateCommandAllocator
                     (g_device g) D3D12_COMMAND_LIST_TYPE_DIRECT) ;;
  write (set_g_commandAllocator p) ;;
  ThrowIfFailed hr ;;
  g <- now ;;
  '(hr, p) <- sys (ID3D12Device_CreateCommandList
                     (g_device g) 0 D3D12_COMMAND_LIST_TYPE_DIRECT
                     (g_commandAllocator g) NULL) ;;
  write (set_g_commandList p) ;;
  ThrowIfFailed hr ;;
  g <- now ;;
  sys (ID3D12GraphicsCommandList_Close (g_commandList g)) ;;
  (* Fence for GPU sync *)
  '(hr, p) <- sys (ID3D12Device_CreateFence (g_device g) 0 D3D12_FENCE_FLAG_NONE) ;;
  write (set_g_fence p) ;;
  ThrowIfFailed hr ;;
  write (set_g_fenceValue 1) ;;
  ev <- sys (CreateEvent NULL false false NULL) ;;
  write (set_g_fenceEvent ev) ;;
  g <- now ;;
  if g_fenceEvent g =? NULL then throw "Failed to create fence event" else ret_ tt.

(** [void Render()], lines 97-126. *)
Definition Render : M unit :=
  let clearColor := [0.2; 0.4; 0.6; 1.0]%Q in
  g <- now ;;
  hr <- sys (ID3D12CommandAllocator_Reset (g_commandAllocator g)) ;;
  ThrowIfFailed hr ;;
  hr <- sys (ID3D12GraphicsCommandList_Reset
               (g_commandList g) (g_commandAllocator g) NULL) ;;
  ThrowIfFailed hr ;;
  (* Set render target *)
  rtvSize <- sys (ID3D12Device_GetDescriptorHandleIncrementSize
                    (g_device g) D3D12_DESCRIPTOR_HEAP_TYPE_RTV) ;;
  heapStart <- sys (ID3D12DescriptorHeap_GetCPUDescriptorHandleForHeapStart
                      (g_rtvHeap g)) ;;
  let rtvHandle := rtv_handle heapStart (g_frameIndex g) rtvSize in
  sys (ID3D12GraphicsCommandList_ClearRenderTargetView
         (g_commandList g) rtvHandle clearColor 0 NULL) ;;
  hr <- sys (ID3D12GraphicsCommandList_Close (g_commandList g)) ;;
  ThrowIfFailed hr ;;
  let lists := [g_commandList g] in
  sys (ID3D12CommandQueue_ExecuteCommandLists (g_commandQueue g) (countof lists) lists) ;;
  hr <- sys (IDXGISwapChain_Present (g_swapChain g) 1 0) ;;
  ThrowIfFailed hr ;;
  (* Signal and wait *)
  hr <- sys (ID3D12CommandQueue_Signal (g_commandQueue g) (g_fence g) (g_fenceValue g)) ;;
  ThrowIfFailed hr ;;
  completed <- sys (ID3D12Fence_GetCompletedValue (g_fence g)) ;;
  (if completed <? g_fenceValue g then
     hr <- sys (ID3D12Fence_SetEventOnCompletion
                  (g_fence g) (g_fenceValue g) (g_fenceEvent g)) ;;
     ThrowIfFailed hr ;;
     sys (WaitForSingleObject (g_fenceEvent g) INFINITE) ;;
     ret_ tt
   else ret_ tt) ;;
  write (fun g => set_g_fenceValue (UINT64_wrap (g_fenceValue g + 1)) g) ;;
  index <- sys (IDXGISwapChain3_GetCurrentBackBufferIndex (g_swapChain g)) ;;
  write (set_g_frameIndex index).

(** [int WINAPI WinMain(hInstance, , , nCmdShow)], lines 139-174. *)
Definition WinMain (fuel : nat) (hInstance : handle) (nCmdShow : Z) : M Z :=
  let CLASS_NAME := "DX12WindowClass"%string in
  let wc := {| lpfnWndProc := "WindowProc"; wc_hInstance := hInstance;
               lpszClassName := CLASS_NAME |} in
  sys (RegisterClass wc) ;;
  hwnd <- sys (CreateWindowEx 0 CLASS_NAME "window" WS_OVERLAPPEDWINDOW
                 CW_USEDEFAULT CW_USEDEFAULT 800 600 NULL NULL hInstance NULL) ;;
  sys (ShowWindow hwnd nCmdShow) ;;
  enter Initializing ;;
  InitD3D12 hwnd ;;
  enter Idle ;;
  Host.main_loop api Render fuel ;;
  (* cleanup: *)
  g <- now ;;
  sys (CloseHandle (g_fenceEvent g)) ;;
  enter Exited ;;
  ret_ 0.
End Program.
End Window.

(* ------------------------------------------------------------------ *)
(** * The start of a run *)

Definition config0 {W} (w : W) : config W :=
  {| cg := globals0; cw := w; cphase := Startup; cframe := 0 |}.
Definition state0 {W} (w : W) : state W :=
  {| cur := config0 w; trace := []; hist := [config0 w] |}.

(* ------------------------------------------------------------------ *)
(** * Runs

    The configuration a primitive step leads to, and the judgement the proofs
    are carried out in.  [hoare I m c Q]: run from configuration [c], whatever
    was logged before, [m] only appends to the two logs, every configuration
    it goes through satisfies [I], and [Q] holds of its outcome, its final
    configuration and the calls it made. *)

Section Runs.
Context {W : Type}.

Definition after_call (c : config W) (w' : W) : config W :=
  {| cg := cg c; cw := w'; cphase := cphase c; cframe := cframe c |}.

Definition after_write (f : globals -> globals) (c : config W) : config W :=
  {| cg := f (cg c); cw := cw c; cphase := cphase c; cframe := cframe c |}.

Definition after_enter (p : phase) (c : config W) : config W :=
  {| cg := cg c; cw := cw c; cphase := p; cframe := cframe c |}.

(** The configuration at the start of the next frame, and the one after a
    frame has ended. *)
Definition begun (c : config W) : config W :=
  {| cg := cg c; cw := cw c; cphase := Rendering; cframe := S (cframe c) |}.

Definition ended (c : config W) : config W :=
  {| cg := cg c; cw := cw c; cphase := Idle; cframe := cframe c |}.

Variable I : config W -> Prop.

Definition hoare {A} (m : M A) (c : config W)
    (Q : outcome A -> config W -> list event -> Prop) : Prop :=
  forall tr h,
    let r := m {| cur := c; trace := tr; hist := h |} in
    exists new newh,
      trace (snd r) = tr ++ new /\ hist (snd r) = h ++ newh /\
      Forall I newh /\ last newh c = cur (snd r) /\
      Q (fst r) (cur (snd r)) new.
End Runs.

(* ------------------------------------------------------------------ *)
(** * What is assumed of Direct3D 12 and DXGI

    The fence and the swap chain live on the other side of the API.  What
    the programs can learn of them is an _observation_ of the world, and the
    documented behaviour of each call is a relation between the world before
    and after it. *)

Record gpu (W : Type) := {
  (** what [ID3D12Fence::GetCompletedValue] would report *)
  fence_completed : W -> Z;
  (** the value of the last [ID3D12CommandQueue::Signal] the queue accepted *)
  fence_signaled : W -> Z;
  (** the value the fence event is registered for *)
  event_target : W -> Z;
  (** the swap chain's [CurrentBackBufferIndex] *)
  backbuffer : W -> Z }.

Section Contract.
Context {W : Type}.
Variable api : forall c : call, W -> ret c * W.
Variable O : gpu W.

(** The GPU only makes progress; nothing is signalled or registered. *)
Definition fence_kept (w w' : W) : Prop :=
  fence_completed O w <= fence_completed O w' /\
  fence_signaled O w' = fence_signaled O w /\
  event_target O w' = event_target O w.

Definition api_step (c : call) (w : W) : ret c -> W -> Prop :=
  match c return ret c -> W -> Prop with
  | ID3D12Device_CreateFence _ v _ => fun r w' =>
      (* a new fence holds its initial value; a failed creation hands back null *)
      (if FAILED (fst r) then snd r = NULL
       else fence_completed O w' = v /\ fence_signaled O w' = v) /\
      backbuffer O w' = backbuffer O w
  | ID3D12CommandQueue_Signal _ _ v => fun hr w' =>
      fence_completed O w <= fence_completed O w' /\
      event_target O w' = event_target O w /\
      backbuffer O w' = backbuffer O w /\
      (if FAILED hr then fence_signaled O w' = fence_signaled O w
       else fence_signaled O w <= v -> fence_signaled O w' = v)
  | ID3D12Fence_GetCompletedValue _ => fun r w' =>
      r = fence_completed O w' /\ fence_kept w w' /\
      backbuffer O w' = backbuffer O w
  | ID3D12Fence_SetEventOnCompletion _ v _ => fun hr w' =>
      fence_completed O w <= fence_completed O w' /\
      fence_signaled O w' = fence_signaled O w /\
      backbuffer O w' = backbuffer O w /\
      (if FAILED hr then event_target O w' = event_target O w
       else event_target O w' = v)
  | WaitForSingleObject h INFINITE => fun _ w' =>
      (* the wait on a live event returns once the fence has reached the
         value the event is registered for, if that value was signalled at all *)
      fence_kept w w' /\ backbuffer O w' = backbuffer O w /\
      (h <> NULL -> event_target O w <= fence_signaled O w ->
       event_target O w <= fence_completed O w')
  | IDXGISwapChain_Present _ _ _
  | IDXGIFactory_CreateSwapChainForHwnd _ _ _ _ _ _ => fun _ w' =>
      (* the only calls that choose the current back buffer *)
      fence_kept w w'
  | IDXGISwapChain3_GetCurrentBackBufferIndex _ => fun r w' =>
      r = backbuffer O w /\ fence_kept w w' /\ backbuffer O w' = backbuffer O w
  | _ => fun _ w' =>
      fence_kept w w' /\ backbuffer O w' = backbuffer O w
  end.

Record obeys : Prop := {
  (** the GPU never completes what was not signalled *)
  fence_order : forall w, fence_completed O w <= fence_signaled O w;
  (** a chain of two buffers *)
  backbuffer_range : forall w, 0 <= backbuffer O w < 2;
  api_obeys : forall c w, api_step c w (fst (api c w)) (snd (api c w)) }.

(** Every tested [HRESULT] reports success and every handle asked of the
    operating system is live. *)
Definition succeeds (c : call) : ret c -> Prop :=
  match c return ret c -> Prop with
  | CreateDXGIFactory1 | D3D12CreateDevice _ _ | ID3D12Device_CreateCommandQueue _ _
  | IDXGIFactory_CreateSwapChainForHwnd _ _ _ _ _ _ | IDXGISwapChain1_As _
  | ID3D12Device_CreateDescriptorHeap _ _ | IDXGISwapChain_GetBuffer _ _
  | ID3D12Device_CreateCommandAllocator _ _ | ID3D12Device_CreateCommandList _ _ _ _ _
  | ID3D12Device_CreateFence _ _ _ | ID3D12Device_CreateRootSignature _ _ _ _
  | ID3D12Device_CreateGraphicsPipelineState _ _
  | ID3D12Device_CreateCommittedResource _ _ _ _ _ _ => fun r =>
      FAILED (fst r) = false /\ snd r <> NULL
  | ID3D12Resource_Map _ _ _ => fun r => FAILED (fst r) = false
  | D3D12SerializeRootSignature _ _ | D3DCompile _ _ _ _ _ _ => fun r =>
      FAILED (fst (fst r)) = false
  | ID3D12CommandAllocator_Reset _ | ID3D12GraphicsCommandList_Reset _ _ _
  | ID3D12GraphicsCommandList_Close _ | IDXGISwapChain_Present _ _ _
  | ID3D12CommandQueue_Signal _ _ _ | ID3D12Fence_SetEventOnCompletion _ _ _ => fun hr =>
      FAILED hr = false
  | CreateEvent _ _ _ _ | CreateWindowEx _ _ _ _ _ _ _ _ _ _ _ _ => fun h => h <> NULL
  | _ => fun _ => True
  end.

(** No message is waiting. *)
Definition quiet (c : call) : ret c -> Prop :=
  match c return ret c -> Prop with
  | PeekMessage _ _ _ _ => fun r => fst r = false
  | _ => fun _ => True
  end.

Definition posts_quit (c : call) : bool :=
  match c with PostQuitMessage _ => true | _ => false end.

(** A world in which, from the states that are [good] and as long as the
    program posts no quit message itself, nothing ever fails and no message
    ever arrives. *)
Definition healthy (good : W -> Prop) : Prop :=
  forall c w, good w -> posts_quit c = false ->
    good (snd (api c w)) /\ succeeds c (fst (api c w)) /\ quiet c (fst (api c w)).

(** ** The invariants of a run *)

(** Fewer than 2^64 - 1 frames were started: the 64-bit counter has not
    wrapped. *)
Definition unwrapped (c : config W) : Prop := Z.of_nat (cframe c) < 2 ^ 64 - 1.

(** The CPU-side counter against the number of frames. *)
Definition counter_inv (c : config W) : Prop :=
  let n := Z.of_nat (cframe c) in
  unwrapped c ->
  match cphase c with
  | Idle => g_fenceValue (cg c) = n + 1
  | Rendering => g_fenceValue (cg c) = n \/ g_fenceValue (cg c) = n + 1
  | _ => True
  end.

(** The fence, once [g_fence] holds one. *)
Definition fence_inv (c : config W) : Prop :=
  let n := Z.of_nat (cframe c) in
  g_fence (cg c) <> NULL -> unwrapped c ->
  fence_completed O (cw c) <= fence_signaled O (cw c) /\
  fence_signaled O (cw c) <= g_fenceValue (cg c) /\
  match cphase c with
  | Idle => n <= fence_completed O (cw c)
  | Rendering => g_fenceValue (cg c) = n + 1 -> n <= fence_completed O (cw c)
  | _ => True
  end.

(** [g_frameIndex] against the swap chain, between frames. *)
Definition index_inv (c : config W) : Prop :=
  match cphase c with
  | Idle => g_frameIndex (cg c) = backbuffer O (cw c) /\ 0 <= g_frameIndex (cg c) < 2
  | _ => True
  end.

(** The fence event is live once initialisation is over. *)
Definition event_inv (c : config W) : Prop :=
  match cphase c with
  | Idle | Rendering => g_fenceEvent (cg c) <> NULL
  | _ => True
  end.

Definition run_inv (c : config W) : Prop :=
  counter_inv c /\ fence_inv c /\ index_inv c /\ event_inv c.

(** Fence monotonicity as the specification states it, of the run that
    ended in [s]: after every frame [n >= 1], the fence has completed at
    least [n] and the counter is [n + 1]. *)
Definition fence_monotonicity (s : state W) : Prop :=
  forall c, In c (hist s) -> cphase c = Idle -> 1 <= Z.of_nat (cframe c) ->
    Z.of_nat (cframe c) <= fence_completed O (cw c) /\
    g_fenceValue (cg c) = Z.of_nat (cframe c) + 1.
End Contract.

(* ------------------------------------------------------------------ *)
(** * Reading a trace *)

(** The calls the lifetime claims are about; every other call leaves no mark. *)
Inductive mark :=
| MCreateList                (* ID3D12Device::CreateCommandList: the list is born open *)
| MReset                     (* ID3D12GraphicsCommandList::Reset *)
| MBarrier                   (* ID3D12GraphicsCommandList::ResourceBarrier *)
| MClear                     (* ClearRenderTargetView *)
| MDraw                      (* DrawInstanced *)
| MClose                     (* ID3D12GraphicsCommandList::Close *)
| MPresent                   (* IDXGISwapChain::Present *)
| MCreateFence (v : Z)
| MMap
| MCloseHandle (h : handle).

Definition mark_of (c : call) : list mark :=
  match c with
  | ID3D12Device_CreateCommandList _ _ _ _ _ => [MCreateList]
  | ID3D12GraphicsCommandList_Reset _ _ _ => [MReset]
  | ID3D12GraphicsCommandList_ResourceBarrier _ _ _ => [MBarrier]
  | ID3D12GraphicsCommandList_ClearRenderTargetView _ _ _ _ _ => [MClear]
  | ID3D12GraphicsCommandList_DrawInstanced _ _ _ _ _ => [MDraw]
  | ID3D12GraphicsCommandList_Close _ => [MClose]
  | IDXGISwapChain_Present _ _ _ => [MPresent]
  | ID3D12Device_CreateFence _ v _ => [MCreateFence v]
  | ID3D12Resource_Map _ _ _ => [MMap]
  | CloseHandle h => [MCloseHandle h]
  | _ => []
  end.

Definition marks (t : list event) : list mark :=
  flat_map (fun e => mark_of (call_of e)) t.

Definition is_prefix {A} (l full : list A) : Prop := exists rest, full = l ++ rest.

(** [k] whole frames. *)
Definition frames (frame : list mark) (k : nat) : list mark := List.concat (repeat frame k).

(** The life of the command list, read off the marks: how often it was
    closed, how often reset since it was last closed, and whether it was
    created. *)
Record life := {
  closes : nat;
  resets : nat;
  created : bool }.

Definition unborn : life := {| closes := 0; resets := 0; created := false |}.

Definition life_step (st : life) (m : mark) : life :=
  match m with
  | MCreateList => {| closes := closes st; resets := resets st; created := true |}
  | MReset => {| closes := closes st; resets := S (resets st); created := created st |}
  | MClose => {| closes := S (closes st); resets := 0; created := created st |}
  | _ => st
  end.

Definition life_after (st : life) (l : list mark) : life := fold_left life_step l st.

(** What invariant 2 of the specification asks at a [Close]. *)
Definition one_reset (st : life) : Prop := resets st = 1%nat.

(** What holds at a [Close]: one [Reset] since the last [Close], or it is the
    first [Close] and closes the freshly created, never reset list. *)
Definition reset_or_fresh (st : life) : Prop :=
  resets st = 1%nat \/
  (closes st = 0%nat /\ resets st = 0%nat /\ created st = true).

(** [P] holds of the life so far at every [Close] of [l]. *)
Definition at_every_close (P : life -> Prop) (l : list mark) : Prop :=
  forall pre post, l = pre ++ MClose :: post -> P (life_after unborn pre).

(** The same, by recursion over the marks. *)
Fixpoint closes_ok (P : life -> Prop) (st : life) (l : list mark) : Prop :=
  match l with
  | [] => True
  | m :: t =>
      match m with MClose => P st | _ => True end /\ closes_ok P (life_step st m) t
  end.

(** What the specification asks of a frame: a barrier before the clear, and
    another before the present. *)
Definition barriers_around (l : list mark) : Prop :=
  (forall pre post, l = pre ++ MClear :: post -> In MBarrier pre) /\
  (forall pre post, l = pre ++ MPresent :: post ->
     exists a b, pre = a ++ MBarrier :: b /\ In MBarrier a).

(** The marks of a whole frame and of a whole initialisation. *)
Definition triangle_frame : list mark := [MReset; MClear; MDraw; MClose; MPresent].
Definition window_frame : list mark := [MReset; MClear; MClose; MPresent].
Definition triangle_init : list mark := [MCreateList; MClose; MCreateFence 0; MMap].
Definition window_init : list mark := [MCreateList; MClose; MCreateFence 0].

(** The marks of a run of [WinMain], by the way it ended. *)
Definition run_marks (init frame : list mark) (o : outcome Z) (g : globals)
    (l : list mark) : Prop :=
  match o with
  | Normal _ => exists k, l = init ++ frames frame k ++ [MCloseHandle (g_fenceEvent g)]
  | OutOfFuel => exists k, l = init ++ frames frame k
  | Thrown _ =>
      is_prefix l init \/
      exists k p, is_prefix p frame /\ l = init ++ frames frame k ++ p
  end.


Definition is_MBarrier (m : mark) : bool :=
  match m with MBarrier => true | _ => false end.
Definition is_MMap (m : mark) : bool :=
  match m with MMap => true | _ => false end.



(** The calls that take the fence event. *)
Definition touches_event (c : call) : bool :=
  match c with
  | ID3D12Fence_SetEventOnCompletion _ _ _ | WaitForSingleObject _ _
  | CloseHandle _ | CreateEvent _ _ _ _ => true
  | _ => false
  end.

Definition is_Map (c : call) : bool :=
  match c with ID3D12Resource_Map _ _ _ => true | _ => false end.
Definition is_ResourceBarrier (c : call) : bool :=
  match c with ID3D12GraphicsCommandList_ResourceBarrier _ _ _ => true | _ => false end.

(** No call of the trace is a [ResourceBarrier]. *)
Definition no_barrier (t : list event) : Prop :=
  Forall (fun e => is_ResourceBarrier (call_of e) = false) t.

(** ** What the claims say of one frame *)

(** Of the globals, [Render] changes [g_fenceValue] and [g_frameIndex] and
    nothing else. *)
Definition only_counter_and_index_change (g g' : globals) (index : Z) : Prop :=
  g_fenceValue g' = UINT64_wrap (g_fenceValue g + 1) /\
  g_frameIndex g' = index /\
  g_device g' = g_device g /\
  g_swapChain g' = g_swapChain g /\
  g_commandQueue g' = g_commandQueue g /\
  g_commandAllocator g' = g_commandAllocator g /\
  g_commandList g' = g_commandList g /\
  g_rtvHeap g' = g_rtvHeap g /\
  g_fence g' = g_fence g /\
  g_fenceEvent g' = g_fenceEvent g /\
  g_renderTargets g' = g_renderTargets g /\
  g_rootSig g' = g_rootSig g /\
  g_pipelineState g' = g_pipelineState g /\
  g_vertexBuffer g' = g_vertexBuffer g /\
  g_vbView g' = g_vbView g.

(** A frame that returned made calls [new], the last of them the query of the
    swap chain for its current back buffer, and changed the globals from [g]
    to [g'] accordingly. *)
Definition frame_effect (g g' : globals) (new : list event) : Prop :=
  exists index pre,
    new = pre ++ [Ev (IDXGISwapChain3_GetCurrentBackBufferIndex (g_swapChain g)) index] /\
    only_counter_and_index_change g g' index.

(** A call whose answer is a plain [HRESULT], and the answer a failure.
    [Render] passes every such answer to [ThrowIfFailed]. *)
Definition hresult_failed (e : event) : bool :=
  match e with
  | Ev c r =>
      match c return ret c -> bool with
      | ID3D12CommandAllocator_Reset _ | ID3D12GraphicsCommandList_Reset _ _ _
      | ID3D12GraphicsCommandList_Close _ | IDXGISwapChain_Present _ _ _
      | ID3D12CommandQueue_Signal _ _ _ | ID3D12Fence_SetEventOnCompletion _ _ _ =>
          fun hr => FAILED hr
      | _ => fun _ => false
      end r
  end.

(** The end-of-frame wait for the value [g_fenceValue g]: the calls after the
    signal was accepted, by the way the frame ended. *)
Definition wait_for_gpu (g : globals) (o : outcome unit) (rest : list event) : Prop :=
  let v := g_fenceValue g in
  let read completed := Ev (ID3D12Fence_GetCompletedValue (g_fence g)) completed in
  let register hr :=
    Ev (ID3D12Fence_SetEventOnCompletion (g_fence g) v (g_fenceEvent g)) hr in
  let block r := Ev (WaitForSingleObject (g_fenceEvent g) INFINITE) r in
  let advance index :=
    Ev (IDXGISwapChain3_GetCurrentBackBufferIndex (g_swapChain g)) index in
  (* the fence had reached [v]: no wait, the event is not touched *)
  (exists completed index,
     v <= completed /\ rest = [read completed; advance index] /\ o = Normal tt) \/
  (* the fence was behind and the registration failed *)
  (exists completed hr,
     completed < v /\ FAILED hr = true /\
     rest = [read completed; register hr] /\ o = Thrown "HRESULT failed") \/
  (* the fence was behind: register for [v], block without time-out, go on
     whatever the wait answered *)
  (exists completed hr r index,
     completed < v /\ FAILED hr = false /\
     rest = [read completed; register hr; block r; advance index] /\ o = Normal tt).

(** The calls [new] of a frame that began with the globals [g].  Either a
    call before the wait failed: it is the last call made, its failure is
    thrown, and the fence event was not touched.  Or the queue accepted the
    signal of [g_fenceValue g]: no call before it touched the fence event,
    and the wait follows it. *)
Definition frame_ends_in_wait (g : globals) (o : outcome unit) (new : list event) : Prop :=
  (o = Thrown "HRESULT failed" /\
   Forall (fun e => touches_event (call_of e) = false) new /\
   exists pre e, new = pre ++ [e] /\ hresult_failed e = true) \/
  (exists pre hr rest,
     new = pre ++
           Ev (ID3D12CommandQueue_Signal (g_commandQueue g) (g_fence g) (g_fenceValue g)) hr
           :: rest /\
     FAILED hr = false /\
     Forall (fun e => touches_event (call_of e) = false) pre /\
     wait_for_gpu g o rest).

(** The calls of a frame of the triangle that returned, in order. *)
Definition triangle_frame_calls (g : globals)
    (hrA hrL : HRESULT) (rtvSize heapStart : Z) (hrC hrP hrS : HRESULT)
    (completed : Z) (wait : list event) (index : Z) : list event :=
  let cl := g_commandList g in
  let rtvHandle := rtv_handle heapStart (g_frameIndex g) rtvSize in
  [ Ev (ID3D12CommandAllocator_Reset (g_commandAllocator g)) hrA;
    Ev (ID3D12GraphicsCommandList_Reset cl (g_commandAllocator g) (g_pipelineState g)) hrL;
    Ev (ID3D12GraphicsCommandList_RSSetViewports cl 1
          {| TopLeftX := 0.0; TopLeftY := 0.0; vp_Width := 800.0; vp_Height := 600.0;
             MinDepth := 0.0; MaxDepth := 1.0 |}%Q) tt;
    Ev (ID3D12GraphicsCommandList_RSSetScissorRects cl 1
          {| left := 0; top := 0; right := 800; bottom := 600 |}) tt;
    Ev (ID3D12Device_GetDescriptorHandleIncrementSize
          (g_device g) D3D12_DESCRIPTOR_HEAP_TYPE_RTV) rtvSize;
    Ev (ID3D12DescriptorHeap_GetCPUDescriptorHandleForHeapStart (g_rtvHeap g)) heapStart;
    Ev (ID3D12GraphicsCommandList_OMSetRenderTargets cl 1 rtvHandle false NULL) tt;
    Ev (ID3D12GraphicsCommandList_ClearRenderTargetView cl rtvHandle
          [0.2; 0.4; 0.6; 1.0]%Q 0 NULL) tt;
    Ev (ID3D12GraphicsCommandList_IASetPrimitiveTopology cl
          D3D_PRIMITIVE_TOPOLOGY_TRIANGLELIST) tt;
    Ev (ID3D12GraphicsCommandList_IASetVertexBuffers cl 0 1 (g_vbView g)) tt;
    Ev (ID3D12GraphicsCommandList_DrawInstanced cl 3 1 0 0) tt;
    Ev (ID3D12GraphicsCommandList_Close cl) hrC;
    Ev (ID3D12CommandQueue_ExecuteCommandLists (g_commandQueue g) 1 [cl]) tt;
    Ev (IDXGISwapChain_Present (g_swapChain g) 1 0) hrP;
    Ev (ID3D12CommandQueue_Signal (g_commandQueue g) (g_fence g) (g_fenceValue g)) hrS;
    Ev (ID3D12Fence_GetCompletedValue (g_fence g)) completed ]
  ++ wait ++
  [ Ev (IDXGISwapChain3_GetCurrentBackBufferIndex (g_swapChain g)) index ].

(** A frame of the triangle, from state [s] to state [s'], in the order of
    section 4.H of the specification. *)
Definition frame_in_order {W} (s s' : state W) : Prop :=
  let g := cg (cur s) in
  exists hrA hrL rtvSize heapStart hrC hrP hrS completed wait index,
    FAILED hrA = false /\ FAILED hrL = false /\ FAILED hrC = false /\
    FAILED hrP = false /\ FAILED hrS = false /\
    ((g_fenceValue g <= completed /\ wait = []) \/
     (completed < g_fenceValue g /\ exists hrE r,
        FAILED hrE = false /\
        wait = [Ev (ID3D12Fence_SetEventOnCompletion
                      (g_fence g) (g_fenceValue g) (g_fenceEvent g)) hrE;
                Ev (WaitForSingleObject (g_fenceEvent g) INFINITE) r])) /\
    trace s' = trace s ++
      triangle_frame_calls g hrA hrL rtvSize heapStart hrC hrP hrS completed wait index /\
    g_fenceValue (cg (cur s')) = UINT64_wrap (g_fenceValue g + 1) /\
    g_frameIndex (cg (cur s')) = index.

(** ** What the claims say of the vertex buffer *)

(** The last calls of an initialisation of the triangle that returned, [g']
    being the globals it left: the buffer is created, mapped, filled,
    unmapped and asked for its address, and nothing before mapped a
    resource. *)
Definition vertex_buffer_filled (g' : globals) (new : list event) : Prop :=
  exists pre hrR hrM pData,
    new = pre ++
      [ Ev (ID3D12Device_CreateCommittedResource (g_device g')
              {| hp_Type := D3D12_HEAP_TYPE_UPLOAD |} D3D12_HEAP_FLAG_NONE
              {| Dimension := D3D12_RESOURCE_DIMENSION_BUFFER;
                 rd_Width := 84; rd_Height := 1; DepthOrArraySize := 1;
                 MipLevels := 1; rd_SampleDesc_Count := 1;
                 Layout := D3D12_TEXTURE_LAYOUT_ROW_MAJOR |}
              D3D12_RESOURCE_STATE_GENERIC_READ NULL)
           (hrR, g_vertexBuffer g');
        Ev (ID3D12Resource_Map (g_vertexBuffer g') 0 (Some {| Begin := 0; End_ := 0 |}))
           (hrM, pData);
        Ev (memcpy pData Triangle.vertices 84) tt;
        Ev (ID3D12Resource_Unmap (g_vertexBuffer g') 0 None) tt;
        Ev (ID3D12Resource_GetGPUVirtualAddress (g_vertexBuffer g'))
           (BufferLocation (g_vbView g')) ] /\
    FAILED hrR = false /\ FAILED hrM = false /\
    Forall (fun e => is_Map (call_of e) = false) pre /\
    StrideInBytes (g_vbView g') = 28 /\
    SizeInElements (g_vbView g') = 3.

(** The vertex data: three vertices of 28 bytes, 84 bytes in all. *)
Definition three_vertices : Prop :=
  Triangle.vertices =
    [ {| pos := [ 0.0;  0.5; 0.0]; col := [1.0; 0.0; 0.0; 1.0] |};
      {| pos := [-0.5; -0.5; 0.0]; col := [0.0; 1.0; 0.0; 1.0] |};
      {| pos := [ 0.5; -0.5; 0.0]; col := [0.0; 0.0; 1.0; 1.0] |} ]%Q /\
  sizeof_Vertex = 28 /\
  sizeof_Vertices Triangle.vertices = 84.

(** ** What the claims say of the descriptors rendered to *)

(** The descriptors that a trace binds as render target or clears, each with
    the heap start and the descriptor size that the device reported last
    before it; [size] and [start] are those reported before the trace. *)
Fixpoint rendered (size start : Z) (t : list event) : list (Z * Z * Z) :=
  match t with
  | [] => []
  | Ev c r :: t' =>
      match c return ret c -> list (Z * Z * Z) with
      | ID3D12Device_GetDescriptorHandleIncrementSize _ _ => fun size' =>
          rendered size' start t'
      | ID3D12DescriptorHeap_GetCPUDescriptorHandleForHeapStart _ => fun start' =>
          rendered size start' t'
      | ID3D12GraphicsCommandList_OMSetRenderTargets _ _ rtv _ _ => fun _ =>
          (start, size, rtv) :: rendered size start t'
      | ID3D12GraphicsCommandList_ClearRenderTargetView _ rtv _ _ _ => fun _ =>
          (start, size, rtv) :: rendered size start t'
      | _ => fun _ => rendered size start t'
      end r
  end.

(** What the device has reported after a trace. *)
Fixpoint reported (size start : Z) (t : list event) : Z * Z :=
  match t with
  | [] => (size, start)
  | Ev c r :: t' =>
      match c return ret c -> Z * Z with
      | ID3D12Device_GetDescriptorHandleIncrementSize _ _ => fun size' =>
          reported size' start t'
      | ID3D12DescriptorHeap_GetCPUDescriptorHandleForHeapStart _ => fun start' =>
          reported size start' t'
      | _ => fun _ => reported size start t'
      end r
  end.

(** The descriptor [rtv] is slot 0 or slot 1 of the heap that starts at
    [start], with descriptors [size] apart: it is what [Render] computes for
    a frame index of 0 or 1. *)
Definition in_a_slot (x : Z * Z * Z) : Prop :=
  let '(start, size, rtv) := x in
  exists slot, 0 <= slot < 2 /\ rtv = rtv_handle start slot size.

(** Every descriptor that the trace renders to is slot 0 or slot 1, whatever
    was reported before the trace. *)
Definition renders_to_slots (t : list event) : Prop :=
  forall size start, Forall in_a_slot (rendered size start t).

(** The trace binds and clears no descriptor. *)
Definition renders_nothing (t : list event) : Prop :=
  forall size start, rendered size start t = [].

(** ** What the claims say of the start of a run *)

(** The first calls of [WinMain]: the class is registered, and the window
    created and shown (and, in the triangle, updated). *)
Definition window_shown (title : string) (update : bool) (hInstance : handle)
    (nCmdShow : Z) (atom : Z) (hwnd : handle) (shown updated : bool) : list event :=
  [ Ev (RegisterClass {| lpfnWndProc := "WindowProc"; wc_hInstance := hInstance;
                         lpszClassName := "DX12WindowClass" |}) atom;
    Ev (CreateWindowEx 0 "DX12WindowClass" title WS_OVERLAPPEDWINDOW
          CW_USEDEFAULT CW_USEDEFAULT 800 600 NULL NULL hInstance NULL) hwnd;
    Ev (ShowWindow hwnd nCmdShow) shown ]
  ++ (if update then [Ev (UpdateWindow hwnd) updated] else []).

(** The calls [l] begin the initialisation of the GPU for the window [hwnd]:
    the factory, the device and the command queue are created, the run
    stopping with "HRESULT failed" at the first of them that fails; after
    them the swap chain is created for [hwnd]. *)
Definition gpu_init_takes {A} (hwnd : handle) (o : outcome A) (l : list event) : Prop :=
  exists factory rest,
    l = Ev CreateDXGIFactory1 factory :: rest /\
    if FAILED (fst factory) then rest = [] /\ o = Thrown "HRESULT failed"
    else
      exists device rest1,
        rest = Ev (D3D12CreateDevice NULL D3D_FEATURE_LEVEL_11_0) device :: rest1 /\
        if FAILED (fst device) then rest1 = [] /\ o = Thrown "HRESULT failed"
        else
          exists queue rest2,
            rest1 = Ev (ID3D12Device_CreateCommandQueue (snd device)
                          {| cq_Type := D3D12_COMMAND_LIST_TYPE_DIRECT |}) queue :: rest2 /\
            if FAILED (fst queue) then rest2 = [] /\ o = Thrown "HRESULT failed"
            else
              exists swapChain1 rest3,
                rest2 =
                  Ev (IDXGIFactory_CreateSwapChainForHwnd (snd factory) (snd queue) hwnd
                        {| BufferCount := 2; sc_Width := 800; sc_Height := 600;
                           sc_Format := DXGI_FORMAT_R8G8B8A8_UNORM;
                           BufferUsage := DXGI_USAGE_RENDER_TARGET_OUTPUT;
                           SwapEffect := DXGI_SWAP_EFFECT_FLIP_DISCARD;
                           sc_SampleDesc_Count := 1 |} NULL NULL) swapChain1 :: rest3.

(** Registration answered 0, or creation of the window a null handle. *)
Definition window_failed (e : event) : bool :=
  match e with
  | Ev c r =>
      match c return ret c -> bool with
      | RegisterClass _ => fun atom => atom =? 0
      | CreateWindowEx _ _ _ _ _ _ _ _ _ _ _ _ => fun hwnd => hwnd =? NULL
      | _ => fun _ => false
      end r
  end.

Definition is_CreateDXGIFactory1 (e : event) : bool :=
  match call_of e with CreateDXGIFactory1 => true | _ => false end.

(** The claim C7 as stated: a run in which registration or creation of the
    window answered null ends in an error and never begins to initialise the
    GPU. *)
Definition host_init_guarded (o : outcome Z) (t : list event) : Prop :=
  existsb window_failed t = true ->
  (exists what, o = Thrown what) /\ existsb is_CreateDXGIFactory1 t = false.

(** ** What the proofs say of the procedures *)

(** A list that was closed and not reset since. *)
Definition closed (st : life) : Prop := resets st = 0%nat /\ closes st <> 0%nat.

(** Frames that reset the list once and then close it. *)
Definition frame_resets_once (frame : list mark) : Prop :=
  forall st, closed st ->
    closes_ok reset_or_fresh st frame /\ closed (life_after st frame).

Section Specifications.
Context {W : Type}.

(** The invariant that holds of every configuration. *)
Definition anything : config W -> Prop := fun _ => True.

(** A frame marks a prefix of [frame], all of it when it returns; it leaves
    [g_fenceEvent] alone. *)
Definition frame_marks (frame : list mark) (Render : M unit) : Prop :=
  forall c : config W,
    hoare anything Render c
      (fun o c' new =>
         is_prefix (marks new) frame /\
         (o = Normal tt -> marks new = frame) /\
         o <> OutOfFuel /\
         g_fenceEvent (cg c') = g_fenceEvent (cg c)).

(** Initialisation marks a prefix of [init], all of it when it returns. *)
Definition init_marks (init : list mark) (InitD3D12 : handle -> M unit) : Prop :=
  forall (hwnd : handle) (c : config W),
    hoare anything (InitD3D12 hwnd) c
      (fun o c' new =>
         is_prefix (marks new) init /\
         (o = Normal tt -> marks new = init) /\
         o <> OutOfFuel).

(** The marks of the main loop: whole frames, and the part of one that
    failed. *)
Definition loop_marks (frame : list mark) (o : outcome unit) (l : list mark) : Prop :=
  exists k,
    match o with
    | Thrown _ => exists p, is_prefix p frame /\ l = frames frame k ++ p
    | _ => l = frames frame k
    end.

(** A frame that returns has changed the counter and the index only. *)
Definition frame_changes (Render : M unit) : Prop :=
  forall c : config W,
    hoare anything Render c
      (fun o c' new => o = Normal tt -> frame_effect (cg c) (cg c') new).

(** A frame waits for the GPU at its end, and nowhere else. *)
Definition frame_waits (Render : M unit) : Prop :=
  forall c : config W,
    hoare anything Render c (fun o _ new => frame_ends_in_wait (cg c) o new).

(** Initialisation goes as far as the swap chain of the window it is given,
    or stops at a failure before it. *)
Definition init_takes_window (InitD3D12 : handle -> M unit) : Prop :=
  forall hwnd (c : config W),
    hoare anything (InitD3D12 hwnd) c (fun o _ new => gpu_init_takes hwnd o new).

(** The frame index stays within the two slots of the heap, and a frame
    renders to them. *)
Definition slot_inv (c : config W) : Prop := 0 <= g_frameIndex (cg c) < 2.

Definition frame_slots (Render : M unit) : Prop :=
  forall c : config W, slot_inv c ->
    hoare slot_inv Render c (fun _ c' new => slot_inv c' /\ renders_to_slots new).

Definition init_slots (InitD3D12 : handle -> M unit) : Prop :=
  forall hwnd (c : config W), slot_inv c ->
    hoare slot_inv (InitD3D12 hwnd) c (fun _ c' new => slot_inv c' /\ renders_nothing new).

Section Invariant.
Variable O : gpu W.

(** A frame of either program, begun between two frames, keeps the
    invariant at every step and re-establishes it at its end. *)
Definition frame_spec (Render : M unit) : Prop :=
  forall c : config W,
    cphase c = Idle -> run_inv O c ->
    hoare (run_inv O) Render (begun c)
      (fun o c' _ => o = Normal tt -> run_inv O (ended c') /\ cframe c' = S (cframe c)).

(** Initialisation of either program, from the statically initialised
    globals. *)
Definition init_spec (InitD3D12 : handle -> M unit) : Prop :=
  forall (hwnd : handle) (c : config W),
    cphase c = Initializing -> cframe c = 0%nat ->
    g_fence (cg c) = NULL -> g_fenceValue (cg c) = 0 ->
    hoare (run_inv O) (InitD3D12 hwnd) c
      (fun o c' _ => o = Normal tt -> run_inv O (ended c')).
End Invariant.

Section Health.
Variable good : W -> Prop.

(** A frame goes through and bumps the counter. *)
Definition frame_runs (Render : M unit) : Prop :=
  forall c : config W, good (cw c) ->
    hoare anything Render c
      (fun o c' _ =>
         o = Normal tt /\ good (cw c') /\ cphase c' = cphase c /\ cframe c' = cframe c /\
         g_fenceValue (cg c') = UINT64_wrap (g_fenceValue (cg c) + 1)).

(** Initialisation goes through and sets the counter to 1. *)
Definition init_runs (InitD3D12 : handle -> M unit) : Prop :=
  forall (hwnd : handle) (c : config W), good (cw c) ->
    hoare anything (InitD3D12 hwnd) c
      (fun o c' _ =>
         o = Normal tt /\ good (cw c') /\ cphase c' = cphase c /\ cframe c' = cframe c /\
         g_fenceValue (cg c') = 1).
End Health.
End Specifications.

(* ------------------------------------------------------------------ *)
(** * More of what the code does

    Properties of the two files beyond the claims of the specification: what
    is said of each procedure, and of a whole run. *)

(** ** More of what the code does: the shader compiler *)

(** The flags [CompileShader] passes, by build configuration. *)
Definition compile_flags (_DEBUG : bool) : list D3DCOMPILE_FLAG :=
  D3DCOMPILE_ENABLE_STRICTNESS ::
  (if _DEBUG then [D3DCOMPILE_DEBUG; D3DCOMPILE_SKIP_OPTIMIZATION] else []).

(** What one call of [CompileShader] does: the calls [new] it makes and the
    way [o] it ends. *)
Definition compiled (_DEBUG : bool) (src entry target : string)
    (o : outcome handle) (new : list event) : Prop :=
  exists hr byteCode errors rest,
    new = Ev (D3DCompile src (Z.of_nat (String.length src)) entry target
                (compile_flags _DEBUG) 0) (hr, byteCode, errors) :: rest /\
    if FAILED hr then
      o = Thrown "Shader compilation failed" /\
      if errors =? NULL then rest = []
      else exists text,
          rest = [Ev (ID3DBlob_GetBufferPointer errors) text;
                  Ev (OutputDebugStringA text) tt]
    else o = Normal byteCode /\ rest = [].

(** ** More of what the code does: one frame *)

(** The calls of a frame of the cleared window that returned, in order
    (dx12window.cpp lines 101-125). *)
Definition window_frame_calls (g : globals)
    (hrA hrL : HRESULT) (rtvSize heapStart : Z) (hrC hrP hrS : HRESULT)
    (completed : Z) (wait : list event) (index : Z) : list event :=
  let cl := g_commandList g in
  let rtvHandle := rtv_handle heapStart (g_frameIndex g) rtvSize in
  [ Ev (ID3D12CommandAllocator_Reset (g_commandAllocator g)) hrA;
    Ev (ID3D12GraphicsCommandList_Reset cl (g_commandAllocator g) NULL) hrL;
    Ev (ID3D12Device_GetDescriptorHandleIncrementSize
          (g_device g) D3D12_DESCRIPTOR_HEAP_TYPE_RTV) rtvSize;
    Ev (ID3D12DescriptorHeap_GetCPUDescriptorHandleForHeapStart (g_rtvHeap g)) heapStart;
    Ev (ID3D12GraphicsCommandList_ClearRenderTargetView cl rtvHandle
          [0.2; 0.4; 0.6; 1.0]%Q 0 NULL) tt;
    Ev (ID3D12GraphicsCommandList_Close cl) hrC;
    Ev (ID3D12CommandQueue_ExecuteCommandLists (g_commandQueue g) 1 [cl]) tt;
    Ev (IDXGISwapChain_Present (g_swapChain g) 1 0) hrP;
    Ev (ID3D12CommandQueue_Signal (g_commandQueue g) (g_fence g) (g_fenceValue g)) hrS;
    Ev (ID3D12Fence_GetCompletedValue (g_fence g)) completed ]
  ++ wait ++
  [ Ev (IDXGISwapChain3_GetCurrentBackBufferIndex (g_swapChain g)) index ].

(** A frame of the cleared window, from state [s] to state [s']. *)
Definition window_frame_in_order {W} (s s' : state W) : Prop :=
  let g := cg (cur s) in
  exists hrA hrL rtvSize heapStart hrC hrP hrS completed wait index,
    FAILED hrA = false /\ FAILED hrL = false /\ FAILED hrC = false /\
    FAILED hrP = false /\ FAILED hrS = false /\
    ((g_fenceValue g <= completed /\ wait = []) \/
     (completed < g_fenceValue g /\ exists hrE r,
        FAILED hrE = false /\
        wait = [Ev (ID3D12Fence_SetEventOnCompletion
                      (g_fence g) (g_fenceValue g) (g_fenceEvent g)) hrE;
                Ev (WaitForSingleObject (g_fenceEvent g) INFINITE) r])) /\
    trace s' = trace s ++
      window_frame_calls g hrA hrL rtvSize heapStart hrC hrP hrS completed wait index /\
    g_fenceValue (cg (cur s')) = UINT64_wrap (g_fenceValue g + 1) /\
    g_frameIndex (cg (cur s')) = index.

Definition none_failed (l : list event) : bool :=
  forallb (fun e => negb (hresult_failed e)) l.

(** A frame stops at the first call that fails, and then has changed no
    global. *)
Definition stops_at_first_failure (g g' : globals) (o : outcome unit)
    (new : list event) : Prop :=
  match o with
  | Normal _ => none_failed new = true
  | Thrown what =>
      what = "HRESULT failed"%string /\ g' = g /\
      exists pre e, new = pre ++ [e] /\ none_failed pre = true /\ hresult_failed e = true
  | OutOfFuel => False
  end.

(** ** More of what the code does: initialisation *)

(** What the world answered to the calls of an initialisation of the cleared
    window, in the order of the calls. *)
Record init_answers := {
  a_factory : HRESULT * handle;
  a_device : HRESULT * handle;
  a_queue : HRESULT * handle;
  a_swapChain1 : HRESULT * handle;
  a_swapChain : HRESULT * handle;
  a_index : Z;
  a_heap : HRESULT * handle;
  a_rtvSize : Z;
  a_heapStart : Z;
  a_buffer0 : HRESULT * handle;
  a_buffer1 : HRESULT * handle;
  a_allocator : HRESULT * handle;
  a_list : HRESULT * handle;
  a_close : HRESULT;
  a_fence : HRESULT * handle;
  a_event : handle }.

(** The calls of [InitD3D12] of dx12window.cpp (lines 34-92) when it
    returns: each object is made from the objects made before it. *)
Definition window_init_calls (hwnd : handle) (a : init_answers) : list event :=
  let factory := snd (a_factory a) in
  let device := snd (a_device a) in
  let queue := snd (a_queue a) in
  let swapChain := snd (a_swapChain a) in
  let heap := snd (a_heap a) in
  [ Ev CreateDXGIFactory1 (a_factory a);
    Ev (D3D12CreateDevice NULL D3D_FEATURE_LEVEL_11_0) (a_device a);
    Ev (ID3D12Device_CreateCommandQueue device
          {| cq_Type := D3D12_COMMAND_LIST_TYPE_DIRECT |}) (a_queue a);
    Ev (IDXGIFactory_CreateSwapChainForHwnd factory queue hwnd
          {| BufferCount := 2; sc_Width := 800; sc_Height := 600;
             sc_Format := DXGI_FORMAT_R8G8B8A8_UNORM;
             BufferUsage := DXGI_USAGE_RENDER_TARGET_OUTPUT;
             SwapEffect := DXGI_SWAP_EFFECT_FLIP_DISCARD;
             sc_SampleDesc_Count := 1 |} NULL NULL) (a_swapChain1 a);
    Ev (IDXGISwapChain1_As (snd (a_swapChain1 a))) (a_swapChain a);
    Ev (IDXGISwapChain3_GetCurrentBackBufferIndex swapChain) (a_index a);
    Ev (ID3D12Device_CreateDescriptorHeap device
          {| NumDescriptors := 2; dh_Type := D3D12_DESCRIPTOR_HEAP_TYPE_RTV;
             dh_Flags := D3D12_DESCRIPTOR_HEAP_FLAG_NONE |}) (a_heap a);
    Ev (ID3D12Device_GetDescriptorHandleIncrementSize
          device D3D12_DESCRIPTOR_HEAP_TYPE_RTV) (a_rtvSize a);
    Ev (ID3D12DescriptorHeap_GetCPUDescriptorHandleForHeapStart heap) (a_heapStart a);
    Ev (IDXGISwapChain_GetBuffer swapChain 0) (a_buffer0 a);
    Ev (ID3D12Device_CreateRenderTargetView device (snd (a_buffer0 a)) NULL
          (a_heapStart a)) tt;
    Ev (IDXGISwapChain_GetBuffer swapChain 1) (a_buffer1 a);
    Ev (ID3D12Device_CreateRenderTargetView device (snd (a_buffer1 a)) NULL
          (SIZE_T_wrap (a_heapStart a + a_rtvSize a))) tt;
    Ev (ID3D12Device_CreateCommandAllocator device D3D12_COMMAND_LIST_TYPE_DIRECT)
       (a_allocator a);
    Ev (ID3D12Device_CreateCommandList device 0 D3D12_COMMAND_LIST_TYPE_DIRECT
          (snd (a_allocator a)) NULL) (a_list a);
    Ev (ID3D12GraphicsCommandList_Close (snd (a_list a))) (a_close a);
    Ev (ID3D12Device_CreateFence device 0 D3D12_FENCE_FLAG_NONE) (a_fence a);
    Ev (CreateEvent NULL false false NULL) (a_event a) ].

(** The answers that [InitD3D12] tests.  The result of the first [Close] of
    the command list is not among them. *)
Definition init_checks (a : init_answers) : Prop :=
  FAILED (fst (a_factory a)) = false /\ FAILED (fst (a_device a)) = false /\
  FAILED (fst (a_queue a)) = false /\ FAILED (fst (a_swapChain1 a)) = false /\
  FAILED (fst (a_swapChain a)) = false /\ FAILED (fst (a_heap a)) = false /\
  FAILED (fst (a_buffer0 a)) = false /\ FAILED (fst (a_buffer1 a)) = false /\
  FAILED (fst (a_allocator a)) = false /\ FAILED (fst (a_list a)) = false /\
  FAILED (fst (a_fence a)) = false /\ a_event a <> NULL.

(** The globals that [InitD3D12] of dx12window.cpp leaves. *)
Definition window_init_globals (g : globals) (a : init_answers) : globals :=
  {| g_device := snd (a_device a);
     g_swapChain := snd (a_swapChain a);
     g_commandQueue := snd (a_queue a);
     g_commandAllocator := snd (a_allocator a);
     g_commandList := snd (a_list a);
     g_rtvHeap := snd (a_heap a);
     g_fence := snd (a_fence a);
     g_fenceValue := 1;
     g_fenceEvent := a_event a;
     g_renderTargets := [snd (a_buffer0 a); snd (a_buffer1 a)];
     g_frameIndex := a_index a;
     g_rootSig := g_rootSig g;
     g_pipelineState := g_pipelineState g;
     g_vertexBuffer := g_vertexBuffer g;
     g_vbView := g_vbView g |}.

Definition window_initialised (hwnd : handle) (g g' : globals) (new : list event) : Prop :=
  exists a, init_checks a /\ new = window_init_calls hwnd a /\ g' = window_init_globals g a.

(** The globals that both files declare agree in [g] and [g']. *)
Definition same_window_globals (g g' : globals) : Prop :=
  g_device g' = g_device g /\
  g_swapChain g' = g_swapChain g /\
  g_commandQueue g' = g_commandQueue g /\
  g_commandAllocator g' = g_commandAllocator g /\
  g_commandList g' = g_commandList g /\
  g_rtvHeap g' = g_rtvHeap g /\
  g_fence g' = g_fence g /\
  g_fenceValue g' = g_fenceValue g /\
  g_fenceEvent g' = g_fenceEvent g /\
  g_renderTargets g' = g_renderTargets g /\
  g_frameIndex g' = g_frameIndex g.

(** The run [whole] begins as the run [first] and carries on where it
    returned: if [first] ended in an error, [whole] ended there in the same
    error; if [first] returned, [whole] went on from its final state, and
    left the shared globals as [first] had set them. *)
Definition carries_on {W} (first whole : outcome unit * state W) : Prop :=
  match fst first with
  | Normal _ =>
      exists new,
        trace (snd whole) = trace (snd first) ++ new /\
        same_window_globals (cg (cur (snd first))) (cg (cur (snd whole)))
  | _ => whole = first
  end.

(** ** More of what the code does: the render-target views *)

(** The descriptor handles at which a trace creates render-target views. *)
Definition view_handles (t : list event) : list Z :=
  flat_map (fun e =>
              match call_of e with
              | ID3D12Device_CreateRenderTargetView _ _ _ DestDescriptor => [DestDescriptor]
              | _ => []
              end) t.

(** The back-buffer indices a trace asks the swap chain for. *)
Definition buffers_got (t : list event) : list Z :=
  flat_map (fun e =>
              match call_of e with
              | IDXGISwapChain_GetBuffer _ i => [i]
              | _ => []
              end) t.

(** The handles that [Render] computes for the frame indices [0 .. n-1]. *)
Definition frame_handles (heapStart rtvSize : Z) (n : nat) : list Z :=
  map (fun k => rtv_handle heapStart (Z.of_nat k) rtvSize) (seq 0 n).

(** ** More of what the code does: errors in initialisation *)

(** The call [e] failed, and [what] is the message of the exception that
    [InitD3D12] throws for it. *)
Definition blamed (what : string) (e : event) : bool :=
  match e with
  | Ev c r =>
      match c return ret c -> bool with
      | CreateDXGIFactory1 | D3D12CreateDevice _ _ | ID3D12Device_CreateCommandQueue _ _
      | IDXGIFactory_CreateSwapChainForHwnd _ _ _ _ _ _ | IDXGISwapChain1_As _
      | ID3D12Device_CreateDescriptorHeap _ _ | IDXGISwapChain_GetBuffer _ _
      | ID3D12Device_CreateCommandAllocator _ _ | ID3D12Device_CreateCommandList _ _ _ _ _
      | ID3D12Device_CreateFence _ _ _ | ID3D12Device_CreateRootSignature _ _ _ _
      | ID3D12Device_CreateGraphicsPipelineState _ _
      | ID3D12Device_CreateCommittedResource _ _ _ _ _ _ => fun r =>
          FAILED (fst r) && String.eqb what "HRESULT failed"
      | ID3D12Resource_Map _ _ _ => fun r =>
          FAILED (fst r) && String.eqb what "HRESULT failed"
      | CreateEvent _ _ _ _ => fun h =>
          (h =? NULL) && String.eqb what "Failed to create fence event"
      | D3D12SerializeRootSignature _ _ => fun r =>
          FAILED (fst (fst r)) && String.eqb what "Failed to serialize root signature"
      | D3DCompile _ _ _ _ _ _ => fun r =>
          FAILED (fst (fst r)) && String.eqb what "Shader compilation failed"
      | _ => fun _ => false
      end r
  end.

(** The calls made between the failure of [e] and the exception: none,
    except that after a [D3DCompile] that failed with an error blob the text
    of the blob is fetched and sent to the debugger. *)
Definition error_report (e : event) (report : list event) : Prop :=
  match e with
  | Ev c r =>
      match c return ret c -> Prop with
      | D3DCompile _ _ _ _ _ _ => fun r =>
          if snd r =? NULL then report = []
          else exists text,
              report = [Ev (ID3DBlob_GetBufferPointer (snd r)) text;
                        Ev (OutputDebugStringA text) tt]
      | _ => fun _ => report = []
      end r
  end.

(** How an initialisation ends: it returns with the fence event made and
    the counter at 1, or it throws one of the messages [msgs] for a call that
    failed, after which it made only the calls that report the error. *)
Definition init_ends (msgs : list string) (g' : globals) (o : outcome unit)
    (new : list event) : Prop :=
  match o with
  | Normal _ => g_fenceEvent g' <> NULL /\ g_fenceValue g' = 1
  | Thrown what =>
      In what msgs /\
      exists pre e report,
        new = pre ++ e :: report /\ blamed what e = true /\ error_report e report
  | OutOfFuel => False
  end.

Definition window_init_errors : list string :=
  ["HRESULT failed"; "Failed to create fence event"]%string.
Definition triangle_init_errors : list string :=
  ["HRESULT failed"; "Failed to create fence event";
   "Failed to serialize root signature"; "Shader compilation failed"]%string.

(** ** More of what the code does: the message loop *)

(** What happens to one retrieved message: it is translated and dispatched;
    a message for a window reaches [WindowProc], which posts the quit message
    for [WM_DESTROY] and leaves every other message to [DefWindowProc]. *)
Definition message_round (msg : MSG) (evs : list event) : Prop :=
  exists translated proc,
    evs = Ev (TranslateMessage msg) translated :: Ev (DispatchMessage msg) tt :: proc /\
    if msg_hwnd msg =? NULL then proc = []
    else if message msg =? WM_DESTROY then proc = [Ev (PostQuitMessage 0) tt]
    else exists r,
        proc = [Ev (DefWindowProc (msg_hwnd msg) (message msg) (wParam msg) (lParam msg)) r].

(** The calls of the inner message loop, by the way it ends: [Normal true]
    is the [goto cleanup], [Normal false] the fall-through to [Render]. *)
Inductive pumping : outcome bool -> list event -> Prop :=
| pumping_empty (msg : MSG) :
    pumping (Normal false) [Ev (PeekMessage NULL 0 0 PM_REMOVE) (false, msg)]
| pumping_quit (msg : MSG) (evs : list event) :
    message msg = WM_QUIT -> message_round msg evs ->
    pumping (Normal true) (Ev (PeekMessage NULL 0 0 PM_REMOVE) (true, msg) :: evs)
| pumping_next (msg : MSG) (evs : list event) (o : outcome bool) (rest : list event) :
    message msg <> WM_QUIT -> message_round msg evs -> pumping o rest ->
    pumping o (Ev (PeekMessage NULL 0 0 PM_REMOVE) (true, msg) :: evs ++ rest)
| pumping_bound : pumping OutOfFuel [].

(** ** More of what the code does: messages and frames *)

(** Where the outer loop of [WinMain] is, read off the calls made: the
    message queue was just found empty; the quit message was retrieved; or
    neither. *)
Inductive host_state := Busy | Empty | Quit.

(** The calls allowed in each state.  A frame (it begins with the reset of
    the allocator) is begun only when the queue was just found empty, and
    then at once; once [WM_QUIT] is retrieved, it is translated and
    dispatched, the fence event is closed, and nothing else is called. *)
Definition host_step (st : host_state) (e : event) : option host_state :=
  match e with
  | Ev c r =>
      match c return ret c -> option host_state with
      | PeekMessage _ _ _ _ => fun r =>
          match st with
          | Busy =>
              Some (if fst r
                    then if message (snd r) =? WM_QUIT then Quit else Busy
                    else Empty)
          | _ => None
          end
      | ID3D12CommandAllocator_Reset _ => fun _ =>
          match st with Empty => Some Busy | _ => None end
      | TranslateMessage _ | DispatchMessage _ | DefWindowProc _ _ _ _
      | PostQuitMessage _ | CloseHandle _ => fun _ =>
          match st with Empty => None | _ => Some st end
      | _ => fun _ =>
          match st with Busy => Some Busy | _ => None end
      end r
  end.

Fixpoint host_run (st : host_state) (t : list event) : option host_state :=
  match t with
  | [] => Some st
  | e :: t' =>
      match host_step st e with
      | Some st' => host_run st' t'
      | None => None
      end
  end.

(** The state in which a run of [WinMain] ends. *)
Definition host_end (o : outcome Z) : host_state :=
  match o with Normal _ => Quit | _ => Busy end.

Section Busy.
Context {W : Type}.

(** A frame begins on an empty queue, and an initialisation while busy. *)
Definition frame_is_busy (Render : M unit) : Prop :=
  forall c : config W,
    hoare anything Render c
      (fun o _ new => host_run Empty new = Some Busy /\ o <> OutOfFuel).

Definition init_is_busy (InitD3D12 : handle -> M unit) : Prop :=
  forall (hwnd : handle) (c : config W),
    hoare anything (InitD3D12 hwnd) c
      (fun o _ new => host_run Busy new = Some Busy /\ o <> OutOfFuel).
End Busy.

(** ** More of what the code does: the values signalled *)

(** The values a trace asks the queue to signal, oldest first. *)
Definition signalled (t : list event) : list Z :=
  flat_map (fun e =>
              match call_of e with
              | ID3D12CommandQueue_Signal _ _ Value => [Value]
              | _ => []
              end) t.

(** [n] successive values of a [UINT64] counter, from [v]. *)
Fixpoint count_from (v : Z) (n : nat) : list Z :=
  match n with
  | O => []
  | S n' => v :: count_from (UINT64_wrap (v + 1)) n'
  end.

Section Counting.
Context {W : Type}.

(** A frame signals the counter, once at most, and bumps it when it
    returns. *)
Definition frame_signals (Render : M unit) : Prop :=
  forall c : config W,
    hoare anything Render c
      (fun o c' new =>
         o <> OutOfFuel /\
         match o with
         | Normal _ =>
             signalled new = [g_fenceValue (cg c)] /\
             g_fenceValue (cg c') = UINT64_wrap (g_fenceValue (cg c) + 1)
         | _ => signalled new = [] \/ signalled new = [g_fenceValue (cg c)]
         end).

(** Initialisation signals nothing, and sets the counter to 1 when it
    returns. *)
Definition init_signals (InitD3D12 : handle -> M unit) : Prop :=
  forall (hwnd : handle) (c : config W),
    hoare anything (InitD3D12 hwnd) c
      (fun o c' new =>
         o <> OutOfFuel /\ signalled new = [] /\
         (o = Normal tt -> g_fenceValue (cg c') = 1)).
End Counting.

(** ** More of what the code does: the pipeline of the triangle *)

(** What the world answered to the calls that build the pipeline (main.cpp
    lines 151-235). *)
Record pipeline_answers := {
  p_serialize : HRESULT * handle * handle;
  p_pBlob : Z;
  p_size : Z;
  p_rootSig : HRESULT * handle;
  p_vs : HRESULT * handle * handle;
  p_ps : HRESULT * handle * handle;
  p_vsPtr : Z;
  p_vsLen : Z;
  p_psPtr : Z;
  p_psLen : Z;
  p_pso : HRESULT * handle }.

(** The two queries of the serialised root signature; the source makes them
    as arguments of one call, in an order that C++ leaves open. *)
Definition signature_queries (a : pipeline_answers) : list event :=
  let signatureBlob := snd (fst (p_serialize a)) in
  [ Ev (ID3DBlob_GetBufferPointer signatureBlob) (p_pBlob a);
    Ev (ID3DBlob_GetBufferSize signatureBlob) (p_size a) ].

Definition triangle_pso_desc (a : pipeline_answers) : D3D12_GRAPHICS_PIPELINE_STATE_DESC :=
  {| InputLayout :=
       ([ {| SemanticName := "POSITION"; SemanticIndex := 0;
             ie_Format := DXGI_FORMAT_R32G32B32_FLOAT; InputSlot := 0;
             AlignedByteOffset := 0;
             InputSlotClass := D3D12_INPUT_CLASSIFICATION_PER_VERTEX_DATA;
             InstanceDataStepRate := 0 |};
          {| SemanticName := "COLOR"; SemanticIndex := 0;
             ie_Format := DXGI_FORMAT_R32G32B32A32_FLOAT; InputSlot := 0;
             AlignedByteOffset := 12;
             InputSlotClass := D3D12_INPUT_CLASSIFICATION_PER_VERTEX_DATA;
             InstanceDataStepRate := 0 |} ], 2);
     pRootSignature := snd (p_rootSig a);
     VS := {| pShaderBytecode := p_vsPtr a; BytecodeLength := p_vsLen a |};
     PS := {| pShaderBytecode := p_psPtr a; BytecodeLength := p_psLen a |};
     RasterizerState := D3D12_DEFAULT;
     BlendState := D3D12_DEFAULT;
     DepthStencilState := D3D12_DEFAULT;
     SampleMask := 4294967295;
     PrimitiveTopologyType := D3D12_PRIMITIVE_TOPOLOGY_TYPE_TRIANGLE;
     NumRenderTargets := 1;
     RTVFormats0 := DXGI_FORMAT_R8G8B8A8_UNORM;
     pso_SampleDesc_Count := 1 |}.

(** The calls after the root signature is serialised and queried. *)
Definition pipeline_calls (_DEBUG : bool) (device : handle) (a : pipeline_answers)
    : list event :=
  let vsBlob := snd (fst (p_vs a)) in
  let psBlob := snd (fst (p_ps a)) in
  [ Ev (ID3D12Device_CreateRootSignature device 0 (p_pBlob a) (p_size a)) (p_rootSig a);
    Ev (D3DCompile Triangle.vsSource (Z.of_nat (String.length Triangle.vsSource))
          "main" "vs_5_0" (compile_flags _DEBUG) 0) (p_vs a);
    Ev (D3DCompile Triangle.psSource (Z.of_nat (String.length Triangle.psSource))
          "main" "ps_5_0" (compile_flags _DEBUG) 0) (p_ps a);
    Ev (ID3DBlob_GetBufferPointer vsBlob) (p_vsPtr a);
    Ev (ID3DBlob_GetBufferSize vsBlob) (p_vsLen a);
    Ev (ID3DBlob_GetBufferPointer psBlob) (p_psPtr a);
    Ev (ID3DBlob_GetBufferSize psBlob) (p_psLen a);
    Ev (ID3D12Device_CreateGraphicsPipelineState device (triangle_pso_desc a)) (p_pso a) ].

Definition pipeline_checks (a : pipeline_answers) : Prop :=
  FAILED (fst (fst (p_serialize a))) = false /\ FAILED (fst (p_rootSig a)) = false /\
  FAILED (fst (fst (p_vs a))) = false /\ FAILED (fst (fst (p_ps a))) = false /\
  FAILED (fst (p_pso a)) = false.

(** The pipeline was built in the calls [new] of an initialisation that left
    the globals [g']: after the 18 calls that the two files share and before
    the 5 that fill the vertex buffer. *)
Definition pipeline_built (_DEBUG : bool) (g' : globals) (new : list event) : Prop :=
  exists pre queries post a,
    new =
      pre ++
      Ev (D3D12SerializeRootSignature
            {| NumParameters := 0; pParameters := NULL;
               rs_Flags := D3D12_ROOT_SIGNATURE_FLAG_ALLOW_INPUT_ASSEMBLER_INPUT_LAYOUT |}
            D3D_ROOT_SIGNATURE_VERSION_1) (p_serialize a)
      :: queries ++ pipeline_calls _DEBUG (g_device g') a ++ post /\
    List.length pre = 18%nat /\ List.length post = 5%nat /\
    (queries = signature_queries a \/ queries = rev (signature_queries a)) /\
    pipeline_checks a /\
    g_rootSig g' = snd (p_rootSig a) /\
    g_pipelineState g' = snd (p_pso a).

(** ** More of what the code does: a run with no quit message *)

(** A run of [WinMain] bounded to [fuel] frames was stopped by the bound, with
    all [fuel] frames begun. *)
Definition still_running {W} (fuel : nat) (r : outcome Z * state W) : Prop :=
  fst r = OutOfFuel /\ cframe (cur (snd r)) = fuel.

(** ** More of what the code does: the GPU between frames *)

Section Sync.
Context {W : Type}.
Variable O : gpu W.

(** Nothing beyond the number of the current frame was signalled. *)
Definition signal_inv (c : config W) : Prop :=
  g_fence (cg c) <> NULL -> unwrapped c ->
  fence_signaled O (cw c) <= Z.of_nat (cframe c).

Definition sync_inv (c : config W) : Prop := run_inv O c /\ signal_inv c.

Definition frame_syncs (Render : M unit) : Prop :=
  forall c : config W,
    cphase c = Idle -> sync_inv c ->
    hoare sync_inv Render (begun c)
      (fun o c' _ => o = Normal tt -> sync_inv (ended c') /\ cframe c' = S (cframe c)).

Definition init_syncs (InitD3D12 : handle -> M unit) : Prop :=
  forall (hwnd : handle) (c : config W),
    cphase c = Initializing -> cframe c = 0%nat ->
    g_fence (cg c) = NULL -> g_fenceValue (cg c) = 0 ->
    hoare sync_inv (InitD3D12 hwnd) c
      (fun o c' _ => o = Normal tt -> sync_inv (ended c')).

(** Between frames the GPU is idle: all that was signalled has completed. *)
Definition gpu_idle (c : config W) : Prop :=
  fence_completed O (cw c) = Z.of_nat (cframe c) /\
  fence_signaled O (cw c) = Z.of_nat (cframe c).
End Sync.

(** ** More of what the code does: exceptions, and the fence event *)

(** The handles that a trace registers with the fence, waits on, or
    closes. *)
Definition event_handles (t : list event) : list handle :=
  flat_map (fun e =>
              match call_of e with
              | ID3D12Fence_SetEventOnCompletion _ _ hEvent => [hEvent]
              | WaitForSingleObject hHandle _ => [hHandle]
              | CloseHandle h => [h]
              | _ => []
              end) t.

(** Every handle used is one that [CreateEvent] returned, and is not null. *)
Definition uses_created_events (t : list event) : Prop :=
  forall h, In h (event_handles t) ->
    In (Ev (CreateEvent NULL false false NULL) h) t /\ h <> NULL.

Section Handles.
Context {W : Type}.

Definition frame_uses_event (Render : M unit) : Prop :=
  forall c : config W,
    hoare anything Render c
      (fun o c' new =>
         o <> OutOfFuel /\
         Forall (eq (g_fenceEvent (cg c))) (event_handles new) /\
         g_fenceEvent (cg c') = g_fenceEvent (cg c)).

Definition init_creates_event (InitD3D12 : handle -> M unit) : Prop :=
  forall (hwnd : handle) (c : config W),
    hoare anything (InitD3D12 hwnd) c
      (fun o c' new =>
         o <> OutOfFuel /\ event_handles new = [] /\
         (o = Normal tt ->
          In (Ev (CreateEvent NULL false false NULL) (g_fenceEvent (cg c'))) new /\
          g_fenceEvent (cg c') <> NULL)).

Definition frame_throws (Render : M unit) : Prop :=
  forall c : config W,
    hoare anything Render c
      (fun o _ _ =>
         o <> OutOfFuel /\ forall what, o = Thrown what -> what = "HRESULT failed"%string).

Definition init_throws (msgs : list string) (InitD3D12 : handle -> M unit) : Prop :=
  forall (hwnd : handle) (c : config W),
    hoare anything (InitD3D12 hwnd) c
      (fun o _ _ => o <> OutOfFuel /\ forall what, o = Thrown what -> In what msgs).
End Handles.

(** ** More of what the code does: the descriptors rendered to *)

(** The descriptor handles that a trace binds as render target or clears. *)
Definition targets (t : list event) : list Z :=
  flat_map (fun e =>
              match call_of e with
              | ID3D12GraphicsCommandList_OMSetRenderTargets _ _ rtv _ _ => [rtv]
              | ID3D12GraphicsCommandList_ClearRenderTargetView _ rtv _ _ _ => [rtv]
              | _ => []
              end) t.

(** Every descriptor rendered to is one at which a view was created. *)
Definition targets_have_views (t : list event) : Prop :=
  forall x, In x (targets t) -> In x (view_handles t).

(** A device whose render-target descriptors are [rtvSize] bytes apart, on a
    heap that starts at [heapStart], with a swap chain of two buffers. *)
Definition device_answer (heapStart rtvSize : Z) (c : call) : ret c -> Prop :=
  match c return ret c -> Prop with
  | ID3D12Device_GetDescriptorHandleIncrementSize _ _ => fun size => size = rtvSize
  | ID3D12DescriptorHeap_GetCPUDescriptorHandleForHeapStart _ => fun h => h = heapStart
  | IDXGISwapChain3_GetCurrentBackBufferIndex _ => fun index => 0 <= index < 2
  | _ => fun _ => True
  end.

Definition steady_device {W} (api : forall c : call, W -> ret c * W)
    (heapStart rtvSize : Z) : Prop :=
  forall c w, device_answer heapStart rtvSize c (fst (api c w)).

Section Targets.
Context {W : Type}.
Variables heapStart rtvSize : Z.

Definition frame_targets (Render : M unit) : Prop :=
  forall c : config W,
    0 <= g_frameIndex (cg c) < 2 ->
    hoare anything Render c
      (fun o c' new =>
         o <> OutOfFuel /\
         Forall (fun x => In x (frame_handles heapStart rtvSize 2)) (targets new) /\
         (o = Normal tt -> 0 <= g_frameIndex (cg c') < 2)).

Definition init_views (InitD3D12 : handle -> M unit) : Prop :=
  forall (hwnd : handle) (c : config W),
    hoare anything (InitD3D12 hwnd) c
      (fun o c' new =>
         o <> OutOfFuel /\ targets new = [] /\
         (o = Normal tt ->
          view_handles new = frame_handles heapStart rtvSize 2 /\
          0 <= g_frameIndex (cg c') < 2)).
End Targets.

(** ** More of what the code does: the vertices drawn *)

(** The vertex-buffer views that a trace binds. *)
Definition bound_views (t : list event) : list D3D12_VERTEX_BUFFER_VIEW :=
  flat_map (fun e =>
              match call_of e with
              | ID3D12GraphicsCommandList_IASetVertexBuffers _ _ _ view => [view]
              | _ => []
              end) t.

(** The GPU addresses that a trace was given for its resources. *)
Definition addresses (t : list event) : list Z :=
  flat_map (fun e =>
              match e with
              | Ev c r =>
                  match c return ret c -> list Z with
                  | ID3D12Resource_GetGPUVirtualAddress _ => fun address => [address]
                  | _ => fun _ => []
                  end r
              end) t.

(** A view of three vertices of 28 bytes at [address]. *)
Definition three_vertices_at (address : Z) (v : D3D12_VERTEX_BUFFER_VIEW) : Prop :=
  BufferLocation v = address /\ StrideInBytes v = 28 /\ SizeInElements v = 3.

(** Every view bound is of the three vertices, at an address that the
    vertex buffer reported. *)
Definition draws_the_triangle (t : list event) : Prop :=
  forall v, In v (bound_views t) ->
    exists address, In address (addresses t) /\ three_vertices_at address v.

Section Drawing.
Context {W : Type}.

Definition frame_binds_view (Render : M unit) : Prop :=
  forall c : config W,
    hoare anything Render c
      (fun o c' new =>
         o <> OutOfFuel /\
         Forall (eq (g_vbView (cg c))) (bound_views new) /\
         g_vbView (cg c') = g_vbView (cg c)).

Definition init_sets_view (InitD3D12 : handle -> M unit) : Prop :=
  forall (hwnd : handle) (c : config W),
    hoare anything (InitD3D12 hwnd) c
      (fun o c' new =>
         o <> OutOfFuel /\ bound_views new = [] /\
         (o = Normal tt ->
          exists address,
            In address (addresses new) /\ three_vertices_at address (g_vbView (cg c')))).
End Drawing.

(* ------------------------------------------------------------------ *)
(** * A simulated machine

    A small executable world to run the programs in.  Its knobs: the call (by
    position) whose [HRESULT] fails or whose handle comes back null; whether
    window creation fails; whether the GPU finishes work as soon as it is
    signalled or only when waited for; and after how many presented frames
    the user closes the window. *)

Module Sim.
Record world := {
  tick : nat;            (* calls answered so far *)
  completed : Z;         (* the fence value the GPU has reached *)
  signaled : Z;          (* the last value the queue was asked to signal *)
  target : Z;            (* the value the event is registered for *)
  backbuf : Z;           (* the current back buffer *)
  presents : nat;        (* frames presented *)
  destroyed : bool;      (* WM_DESTROY was delivered *)
  quit_posted : bool }.  (* PostQuitMessage was called *)

Definition boot : world :=
  {| tick := 0; completed := 0; signaled := 0; target := 0; backbuf := 0;
     presents := 0; destroyed := false; quit_posted := false |}.

Record knobs := {
  fail_at : option nat;
  no_window : bool;
  eager : bool;
  close_after : option nat }.

Definition healthy (eager_gpu : bool) : knobs :=
  {| fail_at := None; no_window := false; eager := eager_gpu; close_after := None |}.

Definition E_FAIL : HRESULT := -2147467259.
Definition DXGI_ERROR_INVALID_CALL : HRESULT := -2005270527.
Definition hwnd_main : handle := 66000.

Definition obs : gpu world := {|
  fence_completed := fun w => Z.min (completed w) (signaled w);
  fence_signaled := signaled;
  event_target := target;
  backbuffer := fun w => backbuf w mod 2 |}.

Section Api.
Variable k : knobs.

Definition failing (w : world) : bool :=
  match fail_at k with
  | Some n => Nat.eqb n (tick w)
  | None => false
  end.
Definition hr (w : world) : HRESULT := if failing w then E_FAIL else S_OK.
(** A fresh non-null address, or null from the failing call. *)
Definition fresh (w : world) : handle :=
  if failing w then NULL else 4096 + 16 * Z.of_nat (tick w).

Definition ticked (w : world) : world :=
  {| tick := S (tick w); completed := completed w; signaled := signaled w;
     target := target w; backbuf := backbuf w; presents := presents w;
     destroyed := destroyed w; quit_posted := quit_posted w |}.
Definition with_fence (c s : Z) (w : world) : world :=
  {| tick := tick w; completed := c; signaled := s;
     target := target w; backbuf := backbuf w; presents := presents w;
     destroyed := destroyed w; quit_posted := quit_posted w |}.
Definition with_target (t : Z) (w : world) : world :=
  {| tick := tick w; completed := completed w; signaled := signaled w;
     target := t; backbuf := backbuf w; presents := presents w;
     destroyed := destroyed w; quit_posted := quit_posted w |}.
Definition flipped (w : world) : world :=
  {| tick := tick w; completed := completed w; signaled := signaled w;
     target := target w; backbuf := 1 - backbuf w mod 2; presents := S (presents w);
     destroyed := destroyed w; quit_posted := quit_posted w |}.
Definition with_destroyed (w : world) : world :=
  {| tick := tick w; completed := completed w; signaled := signaled w;
     target := target w; backbuf := backbuf w; presents := presents w;
     destroyed := true; quit_posted := quit_posted w |}.
Definition with_quit (w : world) : world :=
  {| tick := tick w; completed := completed w; signaled := signaled w;
     target := target w; backbuf := backbuf w; presents := presents w;
     destroyed := destroyed w; quit_posted := true |}.

Definition no_msg : MSG := {| msg_hwnd := NULL; message := 0; wParam := 0; lParam := 0 |}.
Definition quit_msg : MSG :=
  {| msg_hwnd := NULL; message := WM_QUIT; wParam := 0; lParam := 0 |}.
Definition destroy_msg : MSG :=
  {| msg_hwnd := hwnd_main; message := WM_DESTROY; wParam := 0; lParam := 0 |}.

Definition closing (w : world) : bool :=
  match close_after k with
  | Some n => Nat.leb n (presents w) && negb (destroyed w)
  | None => false
  end.

Definition api (c : call) (w : world) : ret c * world :=
  let w1 := ticked w in
  match c return ret c * world with
  | ID3D12Device_CreateFence _ v _ =>
      ((hr w, fresh w), if failing w then w1 else with_fence v v w1)
  | IDXGIFactory_CreateSwapChainForHwnd _ _ hwnd _ _ _ =>
      (* no swap chain for a window that does not exist *)
      if no_window k && (hwnd =? NULL) then ((DXGI_ERROR_INVALID_CALL, NULL), w1)
      else ((hr w, fresh w), w1)
  | CreateDXGIFactory1 | D3D12CreateDevice _ _ | ID3D12Device_CreateCommandQueue _ _
  | IDXGISwapChain1_As _
  | ID3D12Device_CreateDescriptorHeap _ _ | IDXGISwapChain_GetBuffer _ _
  | ID3D12Device_CreateCommandAllocator _ _ | ID3D12Device_CreateCommandList _ _ _ _ _
  | ID3D12Device_CreateRootSignature _ _ _ _
  | ID3D12Device_CreateGraphicsPipelineState _ _
  | ID3D12Device_CreateCommittedResource _ _ _ _ _ _ => ((hr w, fresh w), w1)
  | ID3D12Resource_Map _ _ _ => ((hr w, fresh w), w1)
  | D3D12SerializeRootSignature _ _ | D3DCompile _ _ _ _ _ _ =>
      ((hr w, fresh w, if failing w then 4096 + 16 * Z.of_nat (tick w) else NULL), w1)
  | ID3D12CommandQueue_Signal _ _ v =>
      (hr w,
       if failing w then w1
       else let s := Z.max (signaled w) v in
            with_fence (if eager k then Z.max (completed w) s else completed w) s w1)
  | ID3D12Fence_SetEventOnCompletion _ v _ =>
      (hr w, if failing w then w1 else with_target v w1)
  | IDXGISwapChain_Present _ _ _ =>
      (hr w, if failing w then w1 else flipped w1)
  | ID3D12CommandAllocator_Reset _ | ID3D12GraphicsCommandList_Reset _ _ _
  | ID3D12GraphicsCommandList_Close _ => (hr w, w1)
  | ID3D12Fence_GetCompletedValue _ => (fence_completed obs w, w1)
  | WaitForSingleObject _ INFINITE =>
      (0, with_fence (Z.max (completed w) (Z.min (target w) (signaled w))) (signaled w) w1)
  | WaitForSingleObject _ (milliseconds _) => (258, w1)
  | IDXGISwapChain3_GetCurrentBackBufferIndex _ => (backbuffer obs w, w1)
  | ID3D12Device_GetDescriptorHandleIncrementSize _ _ => (32, w1)
  | ID3D12DescriptorHeap_GetCPUDescriptorHandleForHeapStart _ => (65536, w1)
  | ID3DBlob_GetBufferPointer _ => (8192, w1)
  | ID3DBlob_GetBufferSize _ => (128, w1)
  | ID3D12Resource_GetGPUVirtualAddress _ => (1048576, w1)
  | RegisterClass _ => (49152, w1)
  | DefWindowProc _ _ _ _ => (0, w1)
  | CreateEvent _ _ _ _ => (fresh w, w1)
  | CreateWindowEx _ _ _ _ _ _ _ _ _ _ _ _ =>
      (if no_window k || failing w then NULL else hwnd_main, w1)
  | PeekMessage _ _ _ _ =>
      if quit_posted w then ((true, quit_msg), w1)
      else if closing w then ((true, destroy_msg), with_destroyed w1)
      else ((false, no_msg), w1)
  | PostQuitMessage _ => (tt, with_quit w1)
  | ShowWindow _ _ | UpdateWindow _ | TranslateMessage _ | CloseHandle _ => (true, w1)
  | ID3D12Device_CreateRenderTargetView _ _ _ _ | OutputDebugStringA _
  | memcpy _ _ _ | ID3D12Resource_Unmap _ _ _
  | ID3D12GraphicsCommandList_RSSetViewports _ _ _
  | ID3D12GraphicsCommandList_RSSetScissorRects _ _ _
  | ID3D12GraphicsCommandList_OMSetRenderTargets _ _ _ _ _
  | ID3D12GraphicsCommandList_ClearRenderTargetView _ _ _ _ _
  | ID3D12GraphicsCommandList_IASetPrimitiveTopology _ _
  | ID3D12GraphicsCommandList_IASetVertexBuffers _ _ _ _
  | ID3D12GraphicsCommandList_DrawInstanced _ _ _ _ _
  | ID3D12GraphicsCommandList_ResourceBarrier _ _ _
  | ID3D12CommandQueue_ExecuteCommandLists _ _ _
  | DispatchMessage _ => (tt, w1)
  end.
End Api.
End Sim.

(* ================================================================== *)
(** * Proofs *)

(** ** Stepping a program by hand *)

Lemma ThrowIfFailed_bind {W A} (hr : HRESULT) (k : unit -> M A) (s : state W) :
  bind (ThrowIfFailed hr) k s =
  if FAILED hr then (Thrown "HRESULT failed", s) else k tt s.
Proof. unfold bind, ThrowIfFailed. destruct (FAILED hr); reflexivity. Qed.

Lemma if_bind {W A B} (b : bool) (m1 m2 : M A) (k : A -> M B) (s : state W) :
  bind (if b then m1 else m2) k s = if b then bind m1 k s else bind m2 k s.
Proof. destruct b; reflexivity. Qed.

Lemma bind_bind {W A B C} (m : M A) (k : A -> M B) (k' : B -> M C) (s : state W) :
  bind (bind m k) k' s = bind m (fun a => bind (k a) k') s.
Proof. unfold bind. destruct (m s) as [[a| |] s1]; reflexivity. Qed.

(** Definitions that symbolic execution leaves folded. *)
Ltac run_cbn H :=
  cbn -[rtv_handle UINT64_wrap UINT_wrap SIZE_T_wrap Z.ltb Z.eqb FAILED] in H.

(** Run the program in [H : m s = _] as far as it goes: name the answer of
    every call, and split on every test. *)
Ltac run_step api H :=
  match type of H with
  | context [api ?c ?w] =>
      lazymatch w with
      | context [api] => fail
      | _ => let r := fresh "r" in let w' := fresh "w" in
             destruct (api c w) as [r w']; run_cbn H
      end
  | context [bind (ThrowIfFailed ?hr) _ _] =>
      rewrite ThrowIfFailed_bind in H;
      destruct (FAILED hr) eqn:?; [ try discriminate H | run_cbn H ]
  | context [bind (if ?a <? ?b then _ else _) _ _] =>
      rewrite if_bind in H;
      destruct (Z.ltb_spec a b); run_cbn H
  | context [bind (bind _ _) _ _] =>
      rewrite bind_bind in H; run_cbn H
  end.

(** The answers of type [unit] are [tt]. *)
Ltac units :=
  repeat match goal with
  | u : ret _ |- _ =>
      let T := eval cbv in (ltac:(let t := type of u in exact t)) in
      lazymatch T with unit => destruct u end
  end.

(** ** The rules of the program logic *)

Section Hoare.
Context {W : Type}.
Variable api : forall c : call, W -> ret c * W.
Variable I : config W -> Prop.

Lemma last_cons_default {A} (x : A) (l : list A) (d d' : A) :
  last (x :: l) d = last (x :: l) d'.
Proof.
  revert x. induction l as [|y l IH]; intros x; [ reflexivity | ].
  change (last (y :: l) d = last (y :: l) d'). apply IH.
Qed.

Lemma last_app_default {A} (l l' : list A) (d : A) :
  last (l ++ l') d = last l' (last l d).
Proof.
  induction l as [|x l IH]; [ reflexivity | ].
  destruct l as [|y l].
  - destruct l' as [|z l']; [ reflexivity | ].
    change (last (z :: l') d = last (z :: l') x). apply last_cons_default.
  - change (last ((y :: l) ++ l') d = last l' (last (y :: l) d)). apply IH.
Qed.

Lemma hoare_ret {A} (a : A) c Q : Q (Normal a) c [] -> hoare I (ret_ a) c Q.
Proof.
  intros HQ tr h. exists [], []. cbn. rewrite !app_nil_r. auto.
Qed.

Lemma hoare_throw {A} what c (Q : outcome A -> _) :
  Q (Thrown what) c [] -> hoare I (throw what) c Q.
Proof.
  intros HQ tr h. exists [], []. cbn. rewrite !app_nil_r. auto.
Qed.

Lemma hoare_out_of_fuel {A} c (Q : outcome A -> _) :
  Q OutOfFuel c [] -> hoare I out_of_fuel c Q.
Proof.
  intros HQ tr h. exists [], []. cbn. rewrite !app_nil_r. auto.
Qed.

Lemma hoare_now c Q : Q (Normal (cg c)) c [] -> hoare I now c Q.
Proof.
  intros HQ tr h. exists [], []. cbn. rewrite !app_nil_r. auto.
Qed.

Lemma hoare_bind {A B} (m : M A) (k : A -> M B) c Q :
  hoare I m c (fun o c' new =>
    match o with
    | Normal a => hoare I (k a) c' (fun o' c'' new' => Q o' c'' (new ++ new'))
    | Thrown what => Q (Thrown what) c' new
    | OutOfFuel => Q OutOfFuel c' new
    end) ->
  hoare I (bind m k) c Q.
Proof.
  intros Hm tr h. destruct (Hm tr h) as (new & newh & Et & Eh & HI & Hl & HQ).
  unfold bind. cbn zeta.
  destruct (m {| cur := c; trace := tr; hist := h |}) as [[a| what |] [c1 tr1 h1]];
    cbn [fst snd cur trace hist] in *; subst tr1 h1.
  - destruct (HQ (tr ++ new) (h ++ newh)) as (new' & newh' & Et' & Eh' & HI' & Hl' & HQ').
    exists (new ++ new'), (newh ++ newh').
    rewrite Et', Eh', !app_assoc, last_app_default, Hl.
    repeat split; auto. apply Forall_app; auto.
  - exists new, newh. auto.
  - exists new, newh. auto.
Qed.

Lemma hoare_call (cl : call) c Q :
  (forall r w', api cl (cw c) = (r, w') ->
     I (after_call c w') /\ Q (Normal r) (after_call c w') [Ev cl r]) ->
  hoare I (call_ api cl) c Q.
Proof.
  intros H tr h. destruct (H _ _ (surjective_pairing _)) as [HI HQ].
  eexists [_], [_]. cbn. repeat split; auto.
Qed.

Lemma hoare_write f c Q :
  I (after_write f c) /\ Q (Normal tt) (after_write f c) [] ->
  hoare I (write f) c Q.
Proof.
  intros [HI HQ] tr h. exists [], [after_write f c]. cbn.
  rewrite app_nil_r. repeat split; auto.
Qed.

Lemma hoare_enter p c Q :
  I (after_enter p c) /\ Q (Normal tt) (after_enter p c) [] ->
  hoare I (enter p) c Q.
Proof.
  intros [HI HQ] tr h. exists [], [after_enter p c]. cbn.
  rewrite app_nil_r. repeat split; auto.
Qed.

Lemma hoare_begin_frame c Q :
  I (begun c) /\ Q (Normal tt) (begun c) [] -> hoare I begin_frame c Q.
Proof.
  intros [HI HQ] tr h. exists [], [begun c]. cbn.
  rewrite app_nil_r. repeat split; auto.
Qed.

Lemma hoare_ThrowIfFailed hr c Q :
  (FAILED hr = true -> Q (Thrown "HRESULT failed") c []) ->
  (FAILED hr = false -> Q (Normal tt) c []) ->
  hoare I (ThrowIfFailed hr) c Q.
Proof.
  intros H1 H2. unfold ThrowIfFailed. destruct (FAILED hr).
  - apply hoare_throw; auto.
  - apply hoare_ret; auto.
Qed.

Lemma hoare_if {A} (b : bool) (m1 m2 : M A) c Q :
  (b = true -> hoare I m1 c Q) -> (b = false -> hoare I m2 c Q) ->
  hoare I (if b then m1 else m2) c Q.
Proof. destruct b; auto. Qed.

Lemma hoare_conseq {A} (m : M A) c (Q Q' : outcome A -> _) :
  hoare I m c Q -> (forall o c' new, Q o c' new -> Q' o c' new) -> hoare I m c Q'.
Proof.
  intros H HQ tr h. destruct (H tr h) as (new & newh & ? & ? & ? & ? & ?).
  exists new, newh. repeat split; auto.
Qed.

(** What a judgement says of a run from a state. *)
Lemma hoare_run {A} (m : M A) (s : state W) Q :
  hoare I m (cur s) Q ->
  exists new newh,
    trace (snd (m s)) = trace s ++ new /\ hist (snd (m s)) = hist s ++ newh /\
    Forall I newh /\ last newh (cur s) = cur (snd (m s)) /\
    Q (fst (m s)) (cur (snd (m s))) new.
Proof. intros H. destruct s as [c tr h]. apply H. Qed.
End Hoare.

Arguments FAILED : simpl never.
Arguments UINT64_wrap : simpl never.
Arguments UINT_wrap : simpl never.
Arguments SIZE_T_wrap : simpl never.
Arguments rtv_handle : simpl never.

(** One step of a derivation; [at_call] is run on the equation that names the
    answer of a call. *)
Ltac hstep at_call :=
  lazymatch goal with
  | |- hoare _ (bind (enter Initializing) _) _ _ => fail "the shared part of WinMain"
  | |- hoare _ (bind _ _) _ _ => apply hoare_bind
  | |- hoare _ (call_ _ _) _ _ =>
      apply hoare_call;
      let r := fresh "r" in let w := fresh "w" in let E := fresh "E" in
      intros r w E; cbn [cw] in E;
      (let T := type of r in
       let T' := eval cbn in T in
       lazymatch T' with
       | (_ * _ * _)%type => destruct r as [[? ?] ?]
       | (_ * _)%type => destruct r as [? ?]
       | _ => idtac
       end);
      at_call E
  | |- hoare _ (ret_ _) _ _ => apply hoare_ret
  | |- hoare _ (throw _) _ _ => apply hoare_throw
  | |- hoare _ out_of_fuel _ _ => apply hoare_out_of_fuel
  | |- hoare _ now _ _ => apply hoare_now
  | |- hoare _ (write _) _ _ => apply hoare_write
  | |- hoare _ (enter _) _ _ => apply hoare_enter
  | |- hoare _ begin_frame _ _ => apply hoare_begin_frame
  | |- hoare _ (ThrowIfFailed _) _ _ =>
      let F := fresh "F" in
      apply hoare_ThrowIfFailed; intros F; rewrite ?F in *
  | |- hoare _ (if ?b then _ else _) _ _ =>
      let F := fresh "F" in
      apply hoare_if; intros F; rewrite ?F in *
  | |- hoare _ (match ?x with (_, _) => _ end) _ _ => destruct x
  | |- hoare _ (Host.rtv_loop _ (S _) _ _ _) _ _ => cbn [Host.rtv_loop]
  | |- hoare _ (Host.dispatch _ _) _ _ => unfold Host.dispatch
  | |- hoare _ (Host.WindowProc _ _ _ _ _) _ _ => unfold Host.WindowProc
  | |- hoare _ (Host.rtv_loop _ O _ _ _) _ _ => cbn [Host.rtv_loop]
  | |- hoare _ (Triangle.CompileShader _ _ _ _ _) _ _ => unfold Triangle.CompileShader
  | |- _ /\ _ => split
  end;
  cbn beta iota;
  unfold after_call, after_write, after_enter, begun;
  cbn [cg cw cphase cframe fst snd app
       g_device g_swapChain g_commandQueue g_commandAllocator g_commandList g_rtvHeap
       g_fence g_fenceValue g_fenceEvent g_renderTargets g_frameIndex g_rootSig
       g_pipelineState g_vertexBuffer g_vbView
       set_g_device set_g_swapChain set_g_commandQueue set_g_commandAllocator
       set_g_commandList set_g_rtvHeap set_g_fence set_g_fenceValue set_g_fenceEvent
       set_g_renderTargets set_g_frameIndex set_g_rootSig set_g_pipelineState
       set_g_vertexBuffer set_g_vbView].

Section RunInvariant.
Context {W : Type}.
Variable api : forall c : call, W -> ret c * W.
Variable O : gpu W.
Hypothesis Hobeys : obeys api O.

(** What the contract says of the call just made, in terms of the new
    world only. *)
Ltac law E :=
  match type of E with
  | api ?cl ?w = (?r, ?w') =>
      let L := fresh "L" in
      pose proof (api_obeys Hobeys cl w) as L;
      rewrite E in L; cbn [api_step fst snd cw] in L; unfold fence_kept in L;
      clear E;
      try match type of L with
          | context [if FAILED ?x then _ else _] => destruct (FAILED x) eqn:?
          end;
      decompose [and] L; clear L;
      repeat match goal with
             | Heq : ?f O w' = ?f O w |- _ => rewrite <- Heq in *; clear Heq
             end;
      try match goal with
          | Hold : fence_completed O w <= fence_signaled O _ |- _ => clear Hold
          end;
      pose proof (fence_order Hobeys w');
      lazymatch goal with
      | _ : 0 <= backbuffer O w' < 2 |- _ => idtac
      | _ => pose proof (backbuffer_range Hobeys w')
      end
  end.

Ltac inv :=
  unfold run_inv, counter_inv, fence_inv, index_inv, event_inv, unwrapped, NULL, ended,
    after_call, after_write, after_enter, begun in *;
  cbn [cg cw cphase cframe g_fence g_fenceValue g_frameIndex g_fenceEvent
       set_g_device set_g_swapChain set_g_commandQueue set_g_commandAllocator
       set_g_commandList set_g_rtvHeap set_g_fence set_g_fenceValue set_g_fenceEvent
       set_g_renderTargets set_g_frameIndex set_g_rootSig set_g_pipelineState
       set_g_vertexBuffer set_g_vbView globals0] in *;
  unfold NULL in *;
  repeat match goal with
         | H : (_ =? _) = false |- _ => apply Z.eqb_neq in H
         | H : (_ =? _) = true |- _ => apply Z.eqb_eq in H
         | H : (_ <? _) = false |- _ => apply Z.ltb_ge in H
         | H : (_ <? _) = true |- _ => apply Z.ltb_lt in H
         end.

Ltac inv_in H :=
  unfold run_inv, counter_inv, fence_inv, index_inv, event_inv, unwrapped, NULL in H;
  cbn [cg cw cphase cframe g_fence g_fenceValue g_frameIndex g_fenceEvent] in H.

Ltac inv_solve :=
  try congruence;
  inv;
  try (let X := fresh in intros X; discriminate X);
  repeat split; intros; try discriminate;
  unfold UINT64_wrap;
  rewrite ?Z.mod_small by lia;
  try lia.

Lemma Triangle_Render_inv : frame_spec O (Triangle.Render api).
Proof.
  intros c Hp Hc. destruct c as [g w p n]. cbn in Hp. subst p.
  pose proof (fence_order Hobeys w). pose proof (backbuffer_range Hobeys w).
  inv_in Hc. unfold Triangle.Render.
  repeat (hstep law).
  all: inv_solve.
Qed.

Lemma Window_Render_inv : frame_spec O (Window.Render api).
Proof.
  intros c Hp Hc. destruct c as [g w p n]. cbn in Hp. subst p.
  pose proof (fence_order Hobeys w). pose proof (backbuffer_range Hobeys w).
  inv_in Hc. unfold Window.Render.
  repeat (hstep law).
  all: inv_solve.
Qed.

Lemma pump_inv (fuel : nat) (c : config W) :
  cphase c = Idle -> run_inv O c ->
  hoare (run_inv O) (Host.pump api fuel) c
    (fun o c' _ => forall b, o = Normal b ->
       cphase c' = Idle /\ run_inv O c' /\ cframe c' = cframe c).
Proof.
  revert c. induction fuel as [|fuel IH]; intros c Hp Hc.
  - cbn. apply hoare_out_of_fuel. discriminate.
  - destruct c as [g w p n]. cbn in Hp. subst p.
    pose proof (fence_order Hobeys w). pose proof (backbuffer_range Hobeys w).
    inv_in Hc. cbn [Host.pump].
    repeat (hstep law).
    all: try (eapply hoare_conseq;
              [ apply IH | cbn; intros ? ? ? HQ ? ->; apply (HQ _ eq_refl) ]).
    all: cbn [cphase]; inv_solve.
Qed.

Lemma Window_InitD3D12_inv : init_spec O (Window.InitD3D12 api).
Proof.
  intros hwnd c Hp Hn Hf Hv. destruct c as [g w p n]. cbn in Hp, Hn, Hf, Hv. subst p n.
  unfold Window.InitD3D12.
  repeat (hstep law).
  all: inv_solve.
Qed.

Variable _DEBUG : bool.

Lemma Triangle_InitD3D12_inv : init_spec O (Triangle.InitD3D12 api _DEBUG).
Proof.
  intros hwnd c Hp Hn Hf Hv. destruct c as [g w p n]. cbn in Hp, Hn, Hf, Hv. subst p n.
  unfold Triangle.InitD3D12.
  repeat (hstep law).
  all: inv_solve.
Qed.

Section Loop.
Variable Render : M (W := W) unit.
Hypothesis HRender : frame_spec O Render.

Lemma main_loop_inv (fuel : nat) (c : config W) :
  cphase c = Idle -> run_inv O c ->
  hoare (run_inv O) (Host.main_loop api Render fuel) c
    (fun o c' _ => o = Normal tt -> cphase c' = Idle /\ run_inv O c').
Proof.
  revert c. induction fuel as [|fuel IH]; intros c Hp Hc.
  - cbn. apply hoare_out_of_fuel. discriminate.
  - cbn [Host.main_loop].
    apply hoare_bind. eapply hoare_conseq; [ apply pump_inv; assumption | ].
    cbn beta. intros [b| |] c1 _ HQ; try discriminate.
    destruct (HQ _ eq_refl) as (Hp1 & Hc1 & _). clear HQ.
    destruct b.
    + apply hoare_ret. auto.
    + apply hoare_bind, hoare_begin_frame. split.
      * clear - Hp1 Hc1. destruct c1 as [g w p n]. cbn in Hp1. subst p.
        unfold begun. inv_solve.
      * apply hoare_bind. eapply hoare_conseq; [ apply HRender; assumption | ].
        cbn beta. intros [[]| |] c2 _ HQ; try discriminate.
        destruct (HQ eq_refl) as [Hc2 _].
        apply hoare_bind, hoare_enter. split; [ exact Hc2 | ].
        eapply hoare_conseq; [ apply IH; [ reflexivity | exact Hc2 ] | ].
        cbn beta. auto.
Qed.
End Loop.

(** The whole run of either program. *)
Section Whole.
Variable InitD3D12 : handle -> M (W := W) unit.
Variable Render : M (W := W) unit.
Hypothesis HInit : init_spec O InitD3D12.
Hypothesis HRender : frame_spec O Render.

Lemma WinMain_rest_inv (fuel : nat) (hwnd : handle) (w : W) :
  hoare (run_inv O) (Host.WinMain_rest api Render InitD3D12 fuel hwnd)
    {| cg := globals0; cw := w; cphase := Startup; cframe := 0 |}
    (fun _ _ _ => True).
Proof.
  unfold Host.WinMain_rest.
  apply hoare_bind, hoare_enter. split; [ inv_solve | ].
  apply hoare_bind. eapply hoare_conseq; [ apply HInit; reflexivity | ].
  cbn beta. intros [[]| |] c1 _ HQ; trivial.
  specialize (HQ eq_refl).
  apply hoare_bind, hoare_enter. split; [ exact HQ | ].
  apply hoare_bind. eapply hoare_conseq;
    [ apply (main_loop_inv HRender); [ reflexivity | exact HQ ] | ].
  cbn beta. intros [[]| |] c2 _ HQ2; trivial.
  destruct (HQ2 eq_refl) as [Hp2 Hc2]. clear HQ2.
  destruct c2 as [g2 w2 p2 n2]. cbn in Hp2. subst p2. inv_in Hc2.
  repeat (hstep law).
  all: inv_solve.
Qed.
End Whole.
End RunInvariant.

(** ** The marks of a run *)

Lemma marks_app (a b : list event) : marks (a ++ b) = marks a ++ marks b.
Proof. unfold marks. apply flat_map_app. Qed.

Lemma is_prefix_refl {A} (l : list A) : is_prefix l l.
Proof. exists []. symmetry. apply app_nil_r. Qed.

Lemma frames_S (frame : list mark) (k : nat) :
  frames frame (S k) = frame ++ frames frame k.
Proof. reflexivity. Qed.

Lemma frames_snoc (frame : list mark) (k : nat) :
  frames frame k ++ frame = frames frame (S k).
Proof.
  induction k as [|k IH]; cbn.
  - now rewrite app_nil_r.
  - unfold frames in *. cbn in *. now rewrite <- app_assoc, IH.
Qed.

Ltac marks_solve :=
  unfold anything;
  cbn [marks flat_map mark_of call_of app];
  unfold is_prefix, triangle_frame, window_frame, triangle_init, window_init;
  repeat split; intros; try discriminate; try reflexivity;
  try (eexists; cbn [app]; reflexivity).

Ltac hsteps := repeat (hstep ltac:(fun E => clear E)).

Section RunMarks.
Context {W : Type}.
Variable api : forall c : call, W -> ret c * W.

Lemma Triangle_Render_marks : frame_marks triangle_frame (Triangle.Render api).
Proof.
  intros [g w p n]. unfold Triangle.Render.
  hsteps. all: marks_solve.
Qed.

Lemma Window_Render_marks : frame_marks window_frame (Window.Render api).
Proof.
  intros [g w p n]. unfold Window.Render.
  hsteps. all: marks_solve.
Qed.

Lemma Window_InitD3D12_marks : init_marks window_init (Window.InitD3D12 api).
Proof.
  intros hwnd [g w p n]. unfold Window.InitD3D12.
  hsteps. all: marks_solve.
Qed.

Lemma Triangle_InitD3D12_marks _DEBUG :
  init_marks triangle_init (Triangle.InitD3D12 api _DEBUG).
Proof.
  intros hwnd [g w p n]. unfold Triangle.InitD3D12.
  hsteps. all: marks_solve.
Qed.

Lemma pump_marks (fuel : nat) (c : config W) :
  hoare anything (Host.pump api fuel) c
    (fun o c' new =>
       marks new = [] /\ cg c' = cg c /\ forall what, o <> Thrown what).
Proof.
  revert c. induction fuel as [|fuel IH]; intros [g w p n].
  - cbn. apply hoare_out_of_fuel. marks_solve.
  - cbn [Host.pump]. hsteps.
    all: try (eapply hoare_conseq;
              [ apply IH
              | cbn beta; intros ? ? ? (E1 & E2 & E3);
                rewrite ?marks_app, E1, E2; cbn [cg] ]).
    all: marks_solve; auto.
Qed.

Section Whole.
Variables init frame : list mark.
Variable InitD3D12 : handle -> M (W := W) unit.
Variable Render : M (W := W) unit.
Hypothesis HInit : init_marks init InitD3D12.
Hypothesis HRender : frame_marks frame Render.

Lemma main_loop_marks (fuel : nat) (c : config W) :
  hoare anything (Host.main_loop api Render fuel) c
    (fun o c' new =>
       g_fenceEvent (cg c') = g_fenceEvent (cg c) /\ loop_marks frame o (marks new)).
Proof.
  revert c. induction fuel as [|fuel IH]; intros c.
  - cbn. apply hoare_out_of_fuel. split; [ reflexivity | now exists 0%nat ].
  - cbn [Host.main_loop].
    apply hoare_bind. eapply hoare_conseq; [ apply pump_marks | ].
    cbn beta. intros [b| what |] c1 new1 (E1 & E2 & E3).
    + destruct b.
      * apply hoare_ret. rewrite app_nil_r, E1, E2.
        split; [ reflexivity | now exists 0%nat ].
      * apply hoare_bind, hoare_begin_frame. split; [ exact Logic.I | ].
        apply hoare_bind. eapply hoare_conseq; [ apply HRender | ].
        cbn beta. intros [[]| what |] c2 new2 (P1 & P2 & P3 & P4); cbn [begun cg] in P4.
        -- apply hoare_bind, hoare_enter. split; [ exact Logic.I | ].
           eapply hoare_conseq; [ apply IH | ].
           cbn beta. intros o c3 new3 (Q1 & k & Q2). cbn [after_enter cg] in Q1.
           split; [ congruence | ].
           rewrite !marks_app, E1, (P2 eq_refl). cbn [marks flat_map app].
           exists (S k). rewrite frames_S.
           destruct o as [[]| what |].
           ++ now rewrite Q2.
           ++ destruct Q2 as (q & Hq & ->). exists q. now rewrite app_assoc.
           ++ now rewrite Q2.
        -- split; [ congruence | ].
           rewrite !marks_app, E1. cbn [marks flat_map app]. exists 0%nat.
           exists (marks new2). split; [ exact P1 | reflexivity ].
        -- now contradiction P3.
    + now contradiction (E3 what).
    + rewrite E1, E2. split; [ reflexivity | now exists 0%nat ].
Qed.

Lemma WinMain_rest_marks (fuel : nat) (hwnd : handle) (c : config W) :
  hoare anything (Host.WinMain_rest api Render InitD3D12 fuel hwnd) c
    (fun o c' new => run_marks init frame o (cg c') (marks new)).
Proof.
  unfold Host.WinMain_rest.
  apply hoare_bind, hoare_enter. split; [ exact Logic.I | ].
  apply hoare_bind. eapply hoare_conseq; [ apply HInit | ].
  cbn beta. intros [[]| what |] c1 new1 (P1 & P2 & P3).
  - specialize (P2 eq_refl).
    apply hoare_bind, hoare_enter. split; [ exact Logic.I | ].
    apply hoare_bind. eapply hoare_conseq; [ apply main_loop_marks | ].
    cbn beta. intros [[]| what |] c2 new2 (Q1 & k & Q2).
    + destruct c2 as [g2 w2 p2 n2]. hsteps. all: try exact Logic.I.
      cbn [run_marks cg]. exists k.
      now rewrite !marks_app, P2, Q2.
    + right. destruct Q2 as (q & Hq & Q2). exists k, q.
      split; [ exact Hq | ]. now rewrite !marks_app, P2, Q2.
    + exists k. now rewrite !marks_app, P2, Q2.
  - left. exact P1.
  - now contradiction P3.
Qed.
End Whole.
End RunMarks.

(** ** The whole programs *)

Section Programs.
Context {W : Type}.
Variable api : forall c : call, W -> ret c * W.
Variable _DEBUG : bool.

Lemma Triangle_WinMain_marks fuel hInstance nCmdShow (c : config W) :
  hoare anything (Triangle.WinMain api _DEBUG fuel hInstance nCmdShow) c
    (fun o c' new => run_marks triangle_init triangle_frame o (cg c') (marks new)).
Proof.
  destruct c as [g w p n]. unfold Triangle.WinMain. hsteps.
  all: try exact Logic.I.
  eapply hoare_conseq.
  - eapply WinMain_rest_marks;
      [ apply Triangle_InitD3D12_marks | apply Triangle_Render_marks ].
  - cbn beta. intros o c' new H. exact H.
Qed.

Lemma Window_WinMain_marks fuel hInstance nCmdShow (c : config W) :
  hoare anything (Window.WinMain api fuel hInstance nCmdShow) c
    (fun o c' new => run_marks window_init window_frame o (cg c') (marks new)).
Proof.
  destruct c as [g w p n]. unfold Window.WinMain. hsteps.
  all: try exact Logic.I.
  eapply hoare_conseq.
  - eapply WinMain_rest_marks;
      [ apply Window_InitD3D12_marks | apply Window_Render_marks ].
  - cbn beta. intros o c' new H. exact H.
Qed.

Variable O : gpu W.
Hypothesis Hobeys : obeys api O.

Lemma run_inv_config0 (w : W) : run_inv O (config0 w).
Proof.
  unfold run_inv, counter_inv, fence_inv, index_inv, event_inv, config0.
  cbn [cg cw cphase cframe globals0 g_fence].
  repeat split; trivial; congruence.
Qed.

Lemma Triangle_WinMain_inv fuel hInstance nCmdShow (w : W) :
  Forall (run_inv O)
    (hist (snd (Triangle.WinMain api _DEBUG fuel hInstance nCmdShow (state0 w)))).
Proof.
  destruct (@hoare_run W (run_inv O) Z
              (Triangle.WinMain api _DEBUG fuel hInstance nCmdShow) (state0 w)
              (fun _ _ _ => True)) as (new & newh & _ & Eh & HI & _).
  - unfold Triangle.WinMain, state0, config0. cbn [cur].
    repeat (hstep ltac:(fun E => clear E)).
    all: try exact Logic.I.
    all: try (eapply hoare_conseq;
              [ eapply WinMain_rest_inv;
                [ exact Hobeys | apply Triangle_InitD3D12_inv, Hobeys
                | apply Triangle_Render_inv, Hobeys ]
              | trivial ]).
    all: unfold run_inv, counter_inv, fence_inv, index_inv, event_inv;
      cbn [cg cw cphase cframe globals0 g_fence];
      repeat split; trivial; congruence.
  - rewrite Eh. apply Forall_app. split; [ | exact HI ].
    constructor; [ apply run_inv_config0 | constructor ].
Qed.

Lemma Window_WinMain_inv fuel hInstance nCmdShow (w : W) :
  Forall (run_inv O)
    (hist (snd (Window.WinMain api fuel hInstance nCmdShow (state0 w)))).
Proof.
  destruct (@hoare_run W (run_inv O) Z
              (Window.WinMain api fuel hInstance nCmdShow) (state0 w)
              (fun _ _ _ => True)) as (new & newh & _ & Eh & HI & _).
  - unfold Window.WinMain, state0, config0. cbn [cur].
    repeat (hstep ltac:(fun E => clear E)).
    all: try exact Logic.I.
    all: try (eapply hoare_conseq;
              [ eapply WinMain_rest_inv;
                [ exact Hobeys | apply Window_InitD3D12_inv, Hobeys
                | apply Window_Render_inv, Hobeys ]
              | trivial ]).
    all: unfold run_inv, counter_inv, fence_inv, index_inv, event_inv;
      cbn [cg cw cphase cframe globals0 g_fence];
      repeat split; trivial; congruence.
  - rewrite Eh. apply Forall_app. split; [ | exact HI ].
    constructor; [ apply run_inv_config0 | constructor ].
Qed.
End Programs.

(** ** The simulated machine keeps the contract *)

Lemma sim_obeys (k : Sim.knobs) : obeys (Sim.api k) Sim.obs.
Proof.
  split.
  - intros w. cbn. lia.
  - intros w. cbn. apply Z.mod_pos_bound. lia.
  - intros c w. destruct c; cbn -[Z.min Z.max Z.modulo].
    all: unfold fence_kept, Sim.hr, Sim.fresh.
    all: try match goal with t : timeout |- _ => destruct t end.
    all: cbn -[Z.min Z.max Z.modulo].
    all: repeat match goal with
         | |- context [Sim.failing ?k ?w] => destruct (Sim.failing k w)
         | |- context [Sim.eager ?k] => destruct (Sim.eager k)
         | |- context [Sim.quit_posted ?w] => destruct (Sim.quit_posted w)
         | |- context [Sim.closing ?k ?w] => destruct (Sim.closing k w)
         | |- context [Sim.no_window ?k && ?b] => destruct (Sim.no_window k && b)
         end.
    all: cbn -[Z.min Z.max Z.modulo]; unfold FAILED, Sim.E_FAIL, S_OK, NULL; cbn -[Z.min Z.max Z.modulo].
    all: repeat split; try reflexivity; try lia.
Qed.

(** ** Where the run is, is on record *)

Lemma last_in {A} (l : list A) (d : A) : In (last l d) (d :: l).
Proof.
  revert d. induction l as [|x l IH]; intros d; [ now left | ].
  destruct l as [|y l]; [ right; now left | ].
  right. change (In (last (y :: l) d) (x :: y :: l)).
  destruct (IH d) as [E | H]; [ | now right ].
  rewrite (last_cons_default y l d x). rewrite (last_cons_default y l d x) in E.
  apply IH.
Qed.

Lemma Triangle_cur_in_hist {W} (api : forall c : call, W -> ret c * W)
    _DEBUG fuel hInstance nCmdShow (w : W) :
  let s := snd (Triangle.WinMain api _DEBUG fuel hInstance nCmdShow (state0 w)) in
  In (cur s) (hist s).
Proof.
  cbn zeta.
  destruct (hoare_run (state0 w)
              (Triangle_WinMain_marks api _DEBUG fuel hInstance nCmdShow (config0 w)))
    as (new & newh & _ & Eh & _ & El & _).
  rewrite Eh, <- El. apply (last_in newh (config0 w)).
Qed.

Lemma Window_cur_in_hist {W} (api : forall c : call, W -> ret c * W)
    fuel hInstance nCmdShow (w : W) :
  let s := snd (Window.WinMain api fuel hInstance nCmdShow (state0 w)) in
  In (cur s) (hist s).
Proof.
  cbn zeta.
  destruct (hoare_run (state0 w)
              (Window_WinMain_marks api fuel hInstance nCmdShow (config0 w)))
    as (new & newh & _ & Eh & _ & El & _).
  rewrite Eh, <- El. apply (last_in newh (config0 w)).
Qed.

(* ================================================================== *)
(** * The claims *)

Lemma in_frames (frame : list mark) (k : nat) (m : mark) :
  In m (frames frame k) -> In m frame.
Proof.
  induction k as [|k IH]; [ intros [] | ].
  rewrite frames_S, in_app_iff. tauto.
Qed.

Lemma in_prefix {A} (p full : list A) (x : A) : is_prefix p full -> In x p -> In x full.
Proof. intros [rest ->] H. apply in_or_app. now left. Qed.

Lemma run_marks_in init frame o g l (m : mark) :
  run_marks init frame o g l -> In m l ->
  In m init \/ In m frame \/ m = MCloseHandle (g_fenceEvent g).
Proof.
  intros H Hin. destruct o as [z | what |]; cbn in H.
  - destruct H as [k ->]. rewrite !in_app_iff in Hin.
    destruct Hin as [H | [H | [H | []]]]; eauto using in_frames.
  - destruct H as [H | (k & p & Hp & ->)].
    + eauto using in_prefix.
    + rewrite !in_app_iff in Hin.
      destruct Hin as [H | [H | H]]; eauto using in_frames, in_prefix.
  - destruct H as [k ->]. rewrite !in_app_iff in Hin.
    destruct Hin as [H | H]; eauto using in_frames.
Qed.

(** C3, as amended.  In both programs, in any world that keeps the contract
    of the API, at every point of the run at which fewer than 2^64 - 1 frames
    have been started: once [g_fence] holds a fence, its completed value is
    at most the last signalled value, which is at most [g_fenceValue]; and
    between frames, after frame [n], the completed value is at least [n] and
    [g_fenceValue] is [n + 1] (so 1 when initialisation ends).  The fence is
    only ever created with initial value 0. *)
Theorem fence_invariant_before_wrap
    (W : Type) (api : forall c : call, W -> ret c * W) (O : gpu W)
    (Hobeys : obeys api O)
    (_DEBUG : bool) (fuel : nat) (hInstance : handle) (nCmdShow : Z) (w : W)
    (c : config W) :
  let triangle := snd (Triangle.WinMain api _DEBUG fuel hInstance nCmdShow (state0 w)) in
  let window := snd (Window.WinMain api fuel hInstance nCmdShow (state0 w)) in
  In c (hist triangle) \/ In c (hist window) ->
  Z.of_nat (cframe c) < 2 ^ 64 - 1 ->
  (cphase c = Idle -> g_fenceValue (cg c) = Z.of_nat (cframe c) + 1) /\
  (g_fence (cg c) <> NULL ->
   fence_completed O (cw c) <= fence_signaled O (cw c) /\
   fence_signaled O (cw c) <= g_fenceValue (cg c) /\
   (cphase c = Idle -> Z.of_nat (cframe c) <= fence_completed O (cw c))) /\
  (forall v, In (MCreateFence v) (marks (trace triangle)) \/
             In (MCreateFence v) (marks (trace window)) -> v = 0).
Proof.
  cbn zeta. intros Hin Hn.
  assert (Hc : run_inv O c).
  { destruct Hin as [Hin | Hin].
    - exact (proj1 (Forall_forall _ _)
               (Triangle_WinMain_inv _DEBUG Hobeys fuel hInstance nCmdShow w) c Hin).
    - exact (proj1 (Forall_forall _ _)
               (Window_WinMain_inv Hobeys fuel hInstance nCmdShow w) c Hin). }
  destruct Hc as (Hk & Hf & _ & _). unfold counter_inv, fence_inv, unwrapped in *.
  split; [ | split ].
  - intros Hp. specialize (Hk Hn). now rewrite Hp in Hk.
  - intros Hg. destruct (Hf Hg Hn) as (H1 & H2 & H3).
    repeat split; trivial. intros Hp. now rewrite Hp in H3.
  - intros v [Hv | Hv].
    + destruct (hoare_run (state0 w)
                  (Triangle_WinMain_marks api _DEBUG fuel hInstance nCmdShow (config0 w)))
        as (new & newh & Et & _ & _ & _ & HQ).
      cbn [state0 trace app] in Et. rewrite Et in Hv.
      destruct (@run_marks_in _ _ _ _ _ _ HQ Hv) as [H | [H | H]]; cbn in H;
        intuition congruence.
    + destruct (hoare_run (state0 w)
                  (Window_WinMain_marks api fuel hInstance nCmdShow (config0 w)))
        as (new & newh & Et & _ & _ & _ & HQ).
      cbn [state0 trace app] in Et. rewrite Et in Hv.
      destruct (@run_marks_in _ _ _ _ _ _ HQ Hv) as [H | [H | H]]; cbn in H;
        intuition congruence.
Qed.

(** After two frames on the simulated machine, whose GPU finishes only when
    waited for. *)
Lemma fence_invariant_before_wrap_witness :
  let s := snd (Triangle.WinMain (Sim.api (Sim.healthy false)) false 2 1 1
                  (state0 Sim.boot)) in
  let c := cur s in
  cframe c = 2%nat /\ cphase c = Idle /\ g_fence (cg c) <> NULL /\
  g_fenceValue (cg c) = 3 /\
  fence_completed Sim.obs (cw c) <= fence_signaled Sim.obs (cw c) /\
  fence_signaled Sim.obs (cw c) <= g_fenceValue (cg c) /\
  2 <= fence_completed Sim.obs (cw c).
Proof.
  cbn zeta.
  assert (Hg : g_fence (cg (cur (snd (Triangle.WinMain (Sim.api (Sim.healthy false))
                                        false 2 1 1 (state0 Sim.boot))))) <> NULL)
    by (vm_compute; discriminate).
  assert (Hn : Z.of_nat (cframe (cur (snd (Triangle.WinMain (Sim.api (Sim.healthy false))
                                             false 2 1 1 (state0 Sim.boot))))) < 2 ^ 64 - 1)
    by (vm_compute; reflexivity).
  pose proof (@fence_invariant_before_wrap Sim.world (Sim.api (Sim.healthy false)) Sim.obs
              (sim_obeys (Sim.healthy false)) false 2 1 1 Sim.boot
 (cur (snd (Triangle.WinMain (Sim.api (Sim.healthy false)) false 2 1 1 (state0 Sim.boot))))
              (or_introl (Triangle_cur_in_hist (Sim.api (Sim.healthy false))
                            false 2 1 1 Sim.boot)) Hn) as X.
  destruct X as (H1 & H2 & _).
  destruct (H2 Hg) as (H3 & H4 & H5).
  split; [ vm_compute; reflexivity | ]. 
  split; [ vm_compute; reflexivity | ]. split; [ exact Hg | ].
  split; [ exact (H1 eq_refl) | ]. split; [ exact H3 | ]. split; [ exact H4 | ].
  exact (H5 eq_refl).
Defined.

(** ** A run in which nothing fails and no message arrives *)

Section Healthy.
Context {W : Type}.
Variable api : forall c : call, W -> ret c * W.
Variable good : W -> Prop.
Hypothesis Hhealthy : healthy api good.

Ltac fine E :=
  match type of E with
  | api ?cl ?w = (?r, ?w') =>
      match goal with
      | G : good w |- _ =>
          let G' := fresh "G" in let S := fresh "S" in let Qt := fresh "Qt" in
          destruct (Hhealthy cl G eq_refl) as (G' & S & Qt);
          rewrite E in G', S, Qt; cbn [fst snd succeeds quiet] in G', S, Qt;
          clear E G
      end
  end.

Ltac fine_solve :=
  unfold anything;
  repeat match goal with
         | H : (_ =? _) = true |- _ => apply Z.eqb_eq in H
         | H : _ /\ _ |- _ => destruct H
         end;
  try solve [ exact Logic.I | exfalso; congruence | exfalso; discriminate ];
  cbn [cg cw cphase cframe g_fenceValue set_g_fenceValue set_g_frameIndex];
  repeat split; trivial; try congruence.

Lemma Triangle_Render_runs : frame_runs good (Triangle.Render api).
Proof.
  intros [g w p n] G. cbn [cw] in G. unfold Triangle.Render.
  repeat (hstep fine). all: fine_solve.
Qed.

Lemma Window_Render_runs : frame_runs good (Window.Render api).
Proof.
  intros [g w p n] G. cbn [cw] in G. unfold Window.Render.
  repeat (hstep fine). all: fine_solve.
Qed.

Lemma Triangle_InitD3D12_runs _DEBUG : init_runs good (Triangle.InitD3D12 api _DEBUG).
Proof.
  intros hwnd [g w p n] G. cbn [cw] in G. unfold Triangle.InitD3D12.
  repeat (hstep fine). all: fine_solve.
Qed.

Lemma Window_InitD3D12_runs : init_runs good (Window.InitD3D12 api).
Proof.
  intros hwnd [g w p n] G. cbn [cw] in G. unfold Window.InitD3D12.
  repeat (hstep fine). all: fine_solve.
Qed.

Lemma pump_runs (fuel : nat) (c : config W) :
  good (cw c) ->
  hoare anything (Host.pump api (S fuel)) c
    (fun o c' _ =>
       o = Normal false /\ good (cw c') /\ cphase c' = cphase c /\
       cframe c' = cframe c /\ cg c' = cg c).
Proof.
  destruct c as [g w p n]. intros G. cbn [cw] in G. cbn [Host.pump].
  repeat (hstep fine). all: fine_solve.
Qed.

Lemma UINT64_wrap_succ (x : Z) (k : nat) :
  UINT64_wrap (UINT64_wrap (x + 1) + Z.of_nat k) = UINT64_wrap (x + Z.of_nat (S k)).
Proof.
  unfold UINT64_wrap. rewrite Zplus_mod_idemp_l. f_equal. lia.
Qed.

Section Whole.
Variable InitD3D12 : handle -> M (W := W) unit.
Variable Render : M (W := W) unit.
Hypothesis HInit : init_runs good InitD3D12.
Hypothesis HRender : frame_runs good Render.

(** With no message to end it, the loop renders as many frames as it is
    given fuel for. *)
Lemma main_loop_runs (fuel : nat) (c : config W) :
  good (cw c) -> cphase c = Idle -> 0 <= g_fenceValue (cg c) < 2 ^ 64 ->
  hoare anything (Host.main_loop api Render fuel) c
    (fun o c' _ =>
       o = OutOfFuel /\ cphase c' = Idle /\ cframe c' = (cframe c + fuel)%nat /\
       g_fenceValue (cg c') = UINT64_wrap (g_fenceValue (cg c) + Z.of_nat fuel)).
Proof.
  revert c. induction fuel as [|fuel IH]; intros c G Hp Hr.
  - cbn. apply hoare_out_of_fuel. repeat split; auto.
    rewrite Z.add_0_r. unfold UINT64_wrap. now rewrite Z.mod_small.
  - cbn [Host.main_loop].
    apply hoare_bind. eapply hoare_conseq; [ apply pump_runs, G | ].
    cbn beta. intros o c1 _ (-> & G1 & P1 & N1 & E1).
    apply hoare_bind, hoare_begin_frame. split; [ exact Logic.I | ].
    apply hoare_bind. eapply hoare_conseq; [ apply HRender; exact G1 | ].
    cbn beta. intros o c2 _ (-> & G2 & P2 & N2 & E2).
    apply hoare_bind, hoare_enter. split; [ exact Logic.I | ].
    eapply hoare_conseq; [ apply IH; [ exact G2 | reflexivity | ] | ].
    + cbn [after_enter cg]. rewrite E2. unfold UINT64_wrap.
      apply Z.mod_pos_bound. lia.
    + cbn beta. intros o c3 _ (-> & P3 & N3 & E3).
      cbn [after_enter begun cg cw cphase cframe] in *.
      split; [ reflexivity | ]. split; [ exact P3 | ].
      split; [ rewrite N3, N2, N1; lia | ].
      rewrite E3, E2, E1. apply UINT64_wrap_succ.
Qed.

Lemma WinMain_rest_runs (fuel : nat) (hwnd : handle) (c : config W) :
  good (cw c) ->
  hoare anything (Host.WinMain_rest api Render InitD3D12 fuel hwnd) c
    (fun o c' _ =>
       o = OutOfFuel /\ cphase c' = Idle /\ cframe c' = (cframe c + fuel)%nat /\
       g_fenceValue (cg c') = UINT64_wrap (1 + Z.of_nat fuel)).
Proof.
  intros G. unfold Host.WinMain_rest.
  apply hoare_bind, hoare_enter. split; [ exact Logic.I | ].
  apply hoare_bind. eapply hoare_conseq; [ apply HInit; exact G | ].
  cbn beta. intros o c1 _ (-> & G1 & P1 & N1 & E1).
  apply hoare_bind, hoare_enter. split; [ exact Logic.I | ].
  apply hoare_bind.
  eapply hoare_conseq; [ apply main_loop_runs; [ exact G1 | reflexivity | ] | ].
  - cbn [after_enter cg]. rewrite E1. lia.
  - cbn beta. intros o c2 _ (-> & P2 & N2 & E2).
    cbn [after_enter cg cw cphase cframe] in *.
    split; [ reflexivity | ]. split; [ exact P2 | ].
    split; [ now rewrite N2, N1 | now rewrite E2, E1 ].
Qed.
End Whole.

Lemma Triangle_WinMain_runs _DEBUG fuel hInstance nCmdShow (w : W) :
  good w ->
  let c := cur (snd (Triangle.WinMain api _DEBUG fuel hInstance nCmdShow (state0 w))) in
  cphase c = Idle /\ cframe c = fuel /\
  g_fenceValue (cg c) = UINT64_wrap (1 + Z.of_nat fuel).
Proof.
  intros G. cbn zeta.
  destruct (@hoare_run W anything Z
              (Triangle.WinMain api _DEBUG fuel hInstance nCmdShow) (state0 w)
              (fun _ c' _ =>
                 cphase c' = Idle /\ cframe c' = fuel /\
                 g_fenceValue (cg c') = UINT64_wrap (1 + Z.of_nat fuel)))
    as (_ & _ & _ & _ & _ & _ & HQ); [ | exact HQ ].
  unfold Triangle.WinMain, state0, config0. cbn [cur].
  repeat (hstep fine). all: try exact Logic.I.
  eapply hoare_conseq.
  - eapply WinMain_rest_runs;
      [ apply Triangle_InitD3D12_runs | apply Triangle_Render_runs | eassumption ].
  - cbn beta. intros o c' _ (_ & P & N & E). auto.
Qed.
End Healthy.

Lemma sim_healthy (eager : bool) :
  healthy (Sim.api (Sim.healthy eager)) (fun w => Sim.quit_posted w = false).
Proof.
  intros c [t cp sg tg bb pr ds qp] G Hc. cbn in G. subst qp.
  destruct c; try discriminate Hc; clear Hc.
  all: try match goal with t : timeout |- _ => destruct t end.
  all: cbn -[Z.add Z.mul Z.of_nat Z.min Z.max Z.modulo].
  all: unfold Sim.hr, Sim.fresh, Sim.failing, Sim.closing, Sim.hwnd_main.
  all: cbn -[Z.add Z.mul Z.of_nat Z.min Z.max Z.modulo].
  all: try destruct eager.
  all: cbn -[Z.add Z.mul Z.of_nat Z.min Z.max Z.modulo].
  all: repeat split; trivial; unfold NULL; try lia.
Qed.

(** C3 fails as stated.  On the simulated machine, with nothing failing and
    no message arriving, the triangle program given fuel for 2^64 - 1 frames
    renders them all; [g_fenceValue], a [UINT64], is then 0 and not 2^64. *)
Lemma fence_counter_wraps :
  ~ fence_monotonicity Sim.obs
      (snd (Triangle.WinMain (Sim.api (Sim.healthy true)) false
              (Z.to_nat (2 ^ 64 - 1)) 1 1 (state0 Sim.boot))).
Proof.
  intros H.
  pose proof (Triangle_WinMain_runs (sim_healthy true) false
                (Z.to_nat (2 ^ 64 - 1)) 1 1 Sim.boot eq_refl) as R.
  cbn zeta in R. destruct R as (P & N & E).
  pose proof (Triangle_cur_in_hist (Sim.api (Sim.healthy true)) false
                (Z.to_nat (2 ^ 64 - 1)) 1 1 Sim.boot) as Hin.
  cbn zeta in Hin.
  specialize (H _ Hin P). rewrite N, Z2Nat.id in H by lia.
  destruct (H ltac:(lia)) as [_ Hv].
  rewrite Hv in E. rewrite Z2Nat.id in E by lia.
  unfold UINT64_wrap in E.
  replace (1 + (2 ^ 64 - 1)) with (1 * 2 ^ 64) in E by lia.
  rewrite Z.mod_mul in E by lia. lia.
Qed.

(** ** Reading the marks of a run *)






(** ** The life of the command list *)

Lemma life_after_app (st : life) (a b : list mark) :
  life_after st (a ++ b) = life_after (life_after st a) b.
Proof. unfold life_after. apply fold_left_app. Qed.

Lemma closes_ok_app (P : life -> Prop) (st : life) (a b : list mark) :
  closes_ok P st (a ++ b) <-> closes_ok P st a /\ closes_ok P (life_after st a) b.
Proof.
  revert st. induction a as [|m a IH]; intros st; cbn.
  - tauto.
  - rewrite IH. tauto.
Qed.

Lemma closes_ok_split (P : life -> Prop) (st : life) (l pre post : list mark) :
  closes_ok P st l -> l = pre ++ MClose :: post -> P (life_after st pre).
Proof.
  intros H ->. apply closes_ok_app in H. destruct H as [_ H]. cbn in H. tauto.
Qed.

Lemma at_every_close_ok (P : life -> Prop) (l : list mark) :
  closes_ok P unborn l -> at_every_close P l.
Proof. intros H pre post E. eapply closes_ok_split; eassumption. Qed.

Lemma frames_ok (frame : list mark) (k : nat) (st : life) :
  frame_resets_once frame -> closed st ->
  closes_ok reset_or_fresh st (frames frame k) /\ closed (life_after st (frames frame k)).
Proof.
  intros Hf. revert st. induction k as [|k IH]; intros st Hst.
  - cbn. auto.
  - rewrite frames_S, closes_ok_app, life_after_app.
    destruct (Hf st Hst) as [H1 H2]. destruct (IH _ H2) as [H3 H4]. auto.
Qed.

Lemma triangle_frame_resets_once : frame_resets_once triangle_frame.
Proof.
  intros [c r b] [Hr Hc]. cbn in *. subst r.
  unfold reset_or_fresh, closed. cbn. auto 10.
Qed.

Lemma window_frame_resets_once : frame_resets_once window_frame.
Proof.
  intros [c r b] [Hr Hc]. cbn in *. subst r.
  unfold reset_or_fresh, closed. cbn. auto 10.
Qed.

Lemma run_closes_ok init frame o g l :
  closes_ok reset_or_fresh unborn init -> closed (life_after unborn init) ->
  frame_resets_once frame ->
  run_marks init frame o g l -> closes_ok reset_or_fresh unborn l.
Proof.
  intros Hi Hc Hf H.
  assert (Hp : forall st p, closed st -> is_prefix p frame ->
                            closes_ok reset_or_fresh st p).
  { intros st p Hst [rest E]. destruct (Hf st Hst) as [H1 _].
    rewrite E in H1. now apply closes_ok_app in H1. }
  destruct o as [z | what |]; cbn in H.
  - destruct H as [k ->]. destruct (frames_ok k Hf Hc) as [H1 H2].
    rewrite !closes_ok_app. cbn. auto.
  - destruct H as [[rest E] | (k & p & Hpre & ->)].
    + rewrite E in Hi. now apply closes_ok_app in Hi.
    + destruct (frames_ok k Hf Hc) as [H1 H2].
      rewrite !closes_ok_app, <- life_after_app. repeat split; trivial.
      rewrite life_after_app. now apply Hp.
  - destruct H as [k ->]. destruct (frames_ok k Hf Hc) as [H1 H2].
    rewrite closes_ok_app. auto.
Qed.

(** C6, as amended.  In the whole history of a run of either program, in any
    world, at every [Close] of the command list: either the list was reset
    exactly once since its previous [Close], or this is the first [Close],
    which closes the list that [CreateCommandList] has just created open and
    that was never reset. *)
Theorem every_close_follows_one_reset_or_creation
    (W : Type) (api : forall c : call, W -> ret c * W)
    (_DEBUG : bool) (fuel : nat) (hInstance : handle) (nCmdShow : Z) (w : W) :
  at_every_close reset_or_fresh
    (marks (trace (snd (Triangle.WinMain api _DEBUG fuel hInstance nCmdShow (state0 w))))) /\
  at_every_close reset_or_fresh
    (marks (trace (snd (Window.WinMain api fuel hInstance nCmdShow (state0 w))))).
Proof.
  split; apply at_every_close_ok.
  - destruct (hoare_run (state0 w)
                (Triangle_WinMain_marks api _DEBUG fuel hInstance nCmdShow (config0 w)))
      as (new & newh & Et & _ & _ & _ & HQ).
    cbn [state0 trace app] in Et. rewrite Et.
    eapply run_closes_ok; [ | | apply triangle_frame_resets_once | exact HQ ].
    + cbn. unfold reset_or_fresh. cbn. auto 10.
    + split; [ reflexivity | discriminate ].
  - destruct (hoare_run (state0 w)
                (Window_WinMain_marks api fuel hInstance nCmdShow (config0 w)))
      as (new & newh & Et & _ & _ & _ & HQ).
    cbn [state0 trace app] in Et. rewrite Et.
    eapply run_closes_ok; [ | | apply window_frame_resets_once | exact HQ ].
    + cbn. unfold reset_or_fresh. cbn. auto 10.
    + split; [ reflexivity | discriminate ].
Qed.

(** C6 fails as stated.  In a run of the triangle on the simulated machine,
    the first [Close] -- the one in [InitD3D12] -- comes after
    [CreateCommandList] alone: no [Reset] precedes it. *)
Lemma first_close_follows_no_reset :
  ~ at_every_close one_reset
      (marks (trace (snd (Triangle.WinMain (Sim.api (Sim.healthy true)) false 1 1 1
                            (state0 Sim.boot))))).
Proof.
  intros H.
  specialize (H [MCreateList]
                [MCreateFence 0; MMap; MReset; MClear; MDraw; MClose; MPresent]).
  assert (E : marks (trace (snd (Triangle.WinMain (Sim.api (Sim.healthy true)) false 1 1 1
                                   (state0 Sim.boot)))) =
              [MCreateList] ++
              MClose :: [MCreateFence 0; MMap; MReset; MClear; MDraw; MClose; MPresent])
    by (vm_compute; reflexivity).
  specialize (H E). discriminate H.
Qed.

Lemma unmarked_barrier (t : list event) : ~ In MBarrier (marks t) -> no_barrier t.
Proof.
  intros H. apply Forall_forall. intros [c r] Hin.
  destruct (is_ResourceBarrier (call_of (Ev c r))) eqn:E; trivial.
  exfalso. apply H. unfold marks. apply in_flat_map. exists (Ev c r). split; trivial.
  destruct c; try discriminate E. now left.
Qed.

(** C2, as amended.  Neither program ever calls [ResourceBarrier]: no call of
    a whole run of [WinMain] is one, in any world, and no call of a frame from
    any state.  Of the calls that the marks read off a trace, a frame makes a
    prefix of [Reset], [ClearRenderTargetView], ([DrawInstanced],) [Close],
    [Present], in this order -- all of them when [Render] returns -- so the
    back buffer is cleared, drawn to and presented with no transition around
    those steps. *)
Theorem no_call_records_a_barrier
    (W : Type) (api : forall c : call, W -> ret c * W) (_DEBUG : bool) (fuel : nat)
    (hInstance nCmdShow : Z) (w : W) (s : state W) :
  no_barrier (trace (snd (Triangle.WinMain api _DEBUG fuel hInstance nCmdShow (state0 w)))) /\
  no_barrier (trace (snd (Window.WinMain api fuel hInstance nCmdShow (state0 w)))) /\
  (exists new,
     trace (snd (Triangle.Render api s)) = trace s ++ new /\
     no_barrier new /\
     is_prefix (marks new) [MReset; MClear; MDraw; MClose; MPresent] /\
     (fst (Triangle.Render api s) = Normal tt ->
      marks new = [MReset; MClear; MDraw; MClose; MPresent])) /\
  (exists new,
     trace (snd (Window.Render api s)) = trace s ++ new /\
     no_barrier new /\
     is_prefix (marks new) [MReset; MClear; MClose; MPresent] /\
     (fst (Window.Render api s) = Normal tt ->
      marks new = [MReset; MClear; MClose; MPresent])).
Proof.
  split; [ | split; [ | split ] ].
  - destruct (hoare_run (state0 w)
                (Triangle_WinMain_marks api _DEBUG fuel hInstance nCmdShow (config0 w)))
      as (new & newh & Et & _ & _ & _ & H).
    change (trace (state0 w) ++ new) with new in Et. rewrite Et. apply unmarked_barrier. intros Hin.
    destruct (@run_marks_in _ _ _ _ _ _ H Hin) as [Hi | [Hi | Hi]]; cbn in Hi;
      try discriminate; intuition discriminate.
  - destruct (hoare_run (state0 w)
                (Window_WinMain_marks api fuel hInstance nCmdShow (config0 w)))
      as (new & newh & Et & _ & _ & _ & H).
    change (trace (state0 w) ++ new) with new in Et. rewrite Et. apply unmarked_barrier. intros Hin.
    destruct (@run_marks_in _ _ _ _ _ _ H Hin) as [Hi | [Hi | Hi]]; cbn in Hi;
      try discriminate; intuition discriminate.
  - destruct (hoare_run s (Triangle_Render_marks api (cur s)))
      as (new & newh & Et & _ & _ & _ & Hp & Hn & _).
    exists new. repeat split; trivial. apply unmarked_barrier.
    intros Hin. apply (@in_prefix _ _ _ _ Hp) in Hin. cbn in Hin. intuition discriminate.
  - destruct (hoare_run s (Window_Render_marks api (cur s)))
      as (new & newh & Et & _ & _ & _ & Hp & Hn & _).
    exists new. repeat split; trivial. apply unmarked_barrier.
    intros Hin. apply (@in_prefix _ _ _ _ Hp) in Hin. cbn in Hin. intuition discriminate.
Qed.

(** C2 fails as stated.  In a run of the triangle on the simulated machine,
    the first frame -- after [InitD3D12] returned -- clears the back buffer
    and no barrier was recorded before the clear. *)
Lemma run_clears_and_presents_with_no_barrier :
  ~ barriers_around
      (marks (trace (snd (Triangle.WinMain (Sim.api (Sim.healthy true)) false 1 1 1
                            (state0 Sim.boot))))).
Proof.
  intros [H _].
  assert (E : marks (trace (snd (Triangle.WinMain (Sim.api (Sim.healthy true)) false 1 1 1
                                   (state0 Sim.boot)))) =
              [MCreateList; MClose; MCreateFence 0; MMap; MReset] ++
              MClear :: [MDraw; MClose; MPresent])
    by (vm_compute; reflexivity).
  specialize (H _ _ E). cbn in H. intuition discriminate.
Qed.

(** ** One frame *)

(** Split the calls made into all but the last [n] and the last [n]. *)
Ltac split_at n :=
  lazymatch goal with
  | |- exists pre rest, ?l = pre ++ rest /\ _ =>
      exists (firstn (List.length l - n) l), (skipn (List.length l - n) l);
      cbn [firstn skipn List.length Nat.sub app];
      split; [ reflexivity | ]
  | |- exists pre, ?l = pre ++ ?x /\ _ =>
      exists (removelast l); cbn [removelast]; split; [ reflexivity | ]
  end.

Section OneFrame.
Context {W : Type}.
Variable api : forall c : call, W -> ret c * W.

Ltac effect_solve :=
  unfold anything; trivial; try discriminate;
  intros _; unfold frame_effect; eexists; split_at 1%nat;
  unfold only_counter_and_index_change; cbn; repeat split; reflexivity.

Lemma Triangle_Render_changes : frame_changes (Triangle.Render api).
Proof.
  intros [g w p n]. unfold Triangle.Render. hsteps. all: effect_solve.
Qed.

Lemma Window_Render_changes : frame_changes (Window.Render api).
Proof.
  intros [g w p n]. unfold Window.Render. hsteps. all: effect_solve.
Qed.
End OneFrame.

(** C10.  In both programs and in any world, a call of [Render] that returns
    normally leaves every global as it was, but for two: [g_fenceValue] is
    incremented by 1 (as a [UINT64]), and [g_frameIndex] is what the swap
    chain answered to the last call of the frame, the query for its current
    back-buffer index. *)
Theorem Render_changes_counter_and_index_only
    (W : Type) (api : forall c : call, W -> ret c * W) (s s' : state W) :
  Triangle.Render api s = (Normal tt, s') \/ Window.Render api s = (Normal tt, s') ->
  exists new,
    trace s' = trace s ++ new /\ frame_effect (cg (cur s)) (cg (cur s')) new.
Proof.
  intros [H | H].
  - destruct (hoare_run s (Triangle_Render_changes api (cur s)))
      as (new & newh & Et & _ & _ & _ & HQ).
    rewrite H in Et, HQ. cbn [fst snd] in Et, HQ. eauto.
  - destruct (hoare_run s (Window_Render_changes api (cur s)))
      as (new & newh & Et & _ & _ & _ & HQ).
    rewrite H in Et, HQ. cbn [fst snd] in Et, HQ. eauto.
Qed.

Lemma Render_changes_counter_and_index_only_witness :
  exists new,
    trace (snd (Window.Render (Sim.api (Sim.healthy true))
                  (snd (Window.InitD3D12 (Sim.api (Sim.healthy true)) Sim.hwnd_main
                          (state0 Sim.boot))))) =
      trace (snd (Window.InitD3D12 (Sim.api (Sim.healthy true)) Sim.hwnd_main
                    (state0 Sim.boot))) ++ new /\
    frame_effect
      (cg (cur (snd (Window.InitD3D12 (Sim.api (Sim.healthy true)) Sim.hwnd_main
                       (state0 Sim.boot)))))
      (cg (cur (snd (Window.Render (Sim.api (Sim.healthy true))
                       (snd (Window.InitD3D12 (Sim.api (Sim.healthy true)) Sim.hwnd_main
                               (state0 Sim.boot)))))))
      new.
Proof.
  apply (@Render_changes_counter_and_index_only Sim.world (Sim.api (Sim.healthy true))
           (snd (Window.InitD3D12 (Sim.api (Sim.healthy true)) Sim.hwnd_main
                   (state0 Sim.boot)))
           (snd (Window.Render (Sim.api (Sim.healthy true))
                   (snd (Window.InitD3D12 (Sim.api (Sim.healthy true)) Sim.hwnd_main
                           (state0 Sim.boot)))))).
  right. vm_compute. reflexivity.
Defined.

(** C1.  In the triangle program and in any world, a call of [Render] that
    returns normally has made exactly these calls, in this order: reset the
    allocator; reset the command list with the allocator and the pipeline
    state; set the viewport (0, 0, 800, 600, depth 0 to 1) and the scissor
    rectangle (0, 0, 800, 600); compute the render-target handle as the heap
    start plus [g_frameIndex] times the descriptor size; bind it as the one
    render target; clear it to (0.2, 0.4, 0.6, 1.0); set the triangle-list
    topology, bind the vertex buffer view, draw 3 vertices and 1 instance;
    close the list; execute it on the queue; present with sync interval 1 and
    flags 0; signal the fence with [g_fenceValue]; read the fence and, only
    if it is behind, register the event for that value and wait on it with
    no time-out; and last ask the swap chain for its current back-buffer
    index.  Each result that the code passes to [ThrowIfFailed] was a
    success, and on return [g_fenceValue] is incremented and [g_frameIndex]
    is the index just read. *)
Theorem Render_frame_order
    (W : Type) (api : forall c : call, W -> ret c * W) (s s' : state W) :
  Triangle.Render api s = (Normal tt, s') -> frame_in_order s s'.
Proof.
  intros H. destruct s as [[g w p f] tr h].
  unfold Triangle.Render in H. run_cbn H.
  repeat run_step api H.
  all: inversion H; subst s'; clear H; units.
  all: unfold frame_in_order, triangle_frame_calls, move;
       cbn [trace cur cg]; repeat rewrite <- app_assoc; cbn [app].
  all: do 10 eexists; repeat apply conj.
  all: try match goal with |- _ \/ _ =>
         first [ left; split; [eassumption | reflexivity]
               | right; split; [eassumption | do 2 eexists; split; [ | reflexivity]] ] end.
  all: try match goal with |- _ ++ _ = _ => cbn [app]; reflexivity end.
  all: first [eassumption | reflexivity].
Qed.

Lemma Render_frame_order_witness :
  frame_in_order
    (snd (Triangle.InitD3D12 (Sim.api (Sim.healthy false)) false Sim.hwnd_main
            (state0 Sim.boot)))
    (snd (Triangle.Render (Sim.api (Sim.healthy false))
            (snd (Triangle.InitD3D12 (Sim.api (Sim.healthy false)) false Sim.hwnd_main
                    (state0 Sim.boot))))).
Proof.
  apply (@Render_frame_order Sim.world (Sim.api (Sim.healthy false))
           (snd (Triangle.InitD3D12 (Sim.api (Sim.healthy false)) false Sim.hwnd_main
                   (state0 Sim.boot)))
           (snd (Triangle.Render (Sim.api (Sim.healthy false))
                   (snd (Triangle.InitD3D12 (Sim.api (Sim.healthy false)) false
                           Sim.hwnd_main (state0 Sim.boot)))))).
  vm_compute. reflexivity.
Defined.

(** ** The wait at the end of a frame *)

Section Wait.
Context {W : Type}.
Variable api : forall c : call, W -> ret c * W.

Ltac wait_case :=
  unfold wait_for_gpu;
  first
    [ left; do 2 eexists;
      split; [ | split; reflexivity ]; lia
    | right; left; do 2 eexists;
      split; [ | split; [ eassumption | split; reflexivity ] ]; lia
    | right; right; do 4 eexists;
      split; [ | split; [ eassumption | split; reflexivity ] ]; lia ].

Ltac wait_after n :=
  lazymatch goal with
  | |- frame_ends_in_wait _ _ ?l =>
      right;
      exists (firstn (List.length l - S n) l); do 2 eexists;
      cbn [firstn skipn List.length Nat.sub app];
      split; [ reflexivity | ];
      split; [ assumption | ];
      split; [ repeat constructor | wait_case ]
  end.

Ltac wait_before :=
  lazymatch goal with
  | |- frame_ends_in_wait _ _ ?l =>
      left; split; [ reflexivity | ];
      split; [ repeat constructor | ];
      exists (removelast l), (last l (Ev CreateDXGIFactory1 (0, 0)));
      cbn [removelast last app];
      split; [ reflexivity | cbn [hresult_failed]; assumption ]
  end.

Ltac wait_solve :=
  unfold anything; trivial;
  repeat match goal with
         | H : (_ <? _) = true |- _ => apply Z.ltb_lt in H
         | H : (_ <? _) = false |- _ => apply Z.ltb_ge in H
         end;
  solve [ wait_after 4%nat | wait_after 2%nat | wait_before ].

Lemma Triangle_Render_waits : frame_waits (Triangle.Render api).
Proof.
  intros [g w p n]. unfold Triangle.Render. hsteps. all: wait_solve.
Qed.

Lemma Window_Render_waits : frame_waits (Window.Render api).
Proof.
  intros [g w p n]. unfold Window.Render. hsteps. all: wait_solve.
Qed.
End Wait.

(** C4.  In both programs and in any world, the calls of one [Render] end in
    one of these ways.  A call before the wait failed -- a reset, the close,
    the present or the signal: it is the last call made, "HRESULT failed" is
    thrown, and the fence event was never touched.  Or the queue accepted the
    signal of [g_fenceValue]; no call before it touched the fence event, and
    the fence is read next.  If the completed value read is at least
    [g_fenceValue], the frame goes straight on to the back-buffer query: it
    registers nothing and does not wait.  If it is less, the frame registers
    [g_fenceEvent] for exactly [g_fenceValue]; a failure of that call is
    thrown; otherwise the frame waits on [g_fenceEvent] with the time-out
    [INFINITE], and whatever the wait answers it goes on to the back-buffer
    query and returns: there is no time-out and no way to cancel. *)
Theorem Render_waits_only_when_fence_is_behind
    (W : Type) (api : forall c : call, W -> ret c * W) (s : state W) :
  (exists new,
     trace (snd (Triangle.Render api s)) = trace s ++ new /\
     frame_ends_in_wait (cg (cur s)) (fst (Triangle.Render api s)) new) /\
  (exists new,
     trace (snd (Window.Render api s)) = trace s ++ new /\
     frame_ends_in_wait (cg (cur s)) (fst (Window.Render api s)) new).
Proof.
  split.
  - destruct (hoare_run s (Triangle_Render_waits api (cur s)))
      as (new & newh & Et & _ & _ & _ & H).
    eauto.
  - destruct (hoare_run s (Window_Render_waits api (cur s)))
      as (new & newh & Et & _ & _ & _ & H).
    eauto.
Qed.

(** The wait is performed.  On the simulated machine with a GPU that lags,
    the first frame of the triangle reads the fence behind the value
    signalled, registers the event, waits on it and goes on. *)
Lemma Render_waits_only_when_fence_is_behind_witness :
  ((exists new,
      trace (snd (Triangle.Render (Sim.api (Sim.healthy false))
                    (snd (Triangle.InitD3D12 (Sim.api (Sim.healthy false)) false
                            Sim.hwnd_main (state0 Sim.boot))))) =
      trace (snd (Triangle.InitD3D12 (Sim.api (Sim.healthy false)) false
                    Sim.hwnd_main (state0 Sim.boot))) ++ new /\
      frame_ends_in_wait
        (cg (cur (snd (Triangle.InitD3D12 (Sim.api (Sim.healthy false)) false
                         Sim.hwnd_main (state0 Sim.boot)))))
        (fst (Triangle.Render (Sim.api (Sim.healthy false))
                (snd (Triangle.InitD3D12 (Sim.api (Sim.healthy false)) false
                        Sim.hwnd_main (state0 Sim.boot))))) new) /\
   (exists new,
      trace (snd (Window.Render (Sim.api (Sim.healthy false))
                    (snd (Triangle.InitD3D12 (Sim.api (Sim.healthy false)) false
                            Sim.hwnd_main (state0 Sim.boot))))) =
      trace (snd (Triangle.InitD3D12 (Sim.api (Sim.healthy false)) false
                    Sim.hwnd_main (state0 Sim.boot))) ++ new /\
      frame_ends_in_wait
        (cg (cur (snd (Triangle.InitD3D12 (Sim.api (Sim.healthy false)) false
                         Sim.hwnd_main (state0 Sim.boot)))))
        (fst (Window.Render (Sim.api (Sim.healthy false))
                (snd (Triangle.InitD3D12 (Sim.api (Sim.healthy false)) false
                        Sim.hwnd_main (state0 Sim.boot))))) new)) /\
  fst (Triangle.Render (Sim.api (Sim.healthy false))
         (snd (Triangle.InitD3D12 (Sim.api (Sim.healthy false)) false
                 Sim.hwnd_main (state0 Sim.boot)))) = Normal tt /\
  skipn (List.length
           (trace (snd (Triangle.InitD3D12 (Sim.api (Sim.healthy false)) false
                          Sim.hwnd_main (state0 Sim.boot)))) + 14)
    (trace (snd (Triangle.Render (Sim.api (Sim.healthy false))
                   (snd (Triangle.InitD3D12 (Sim.api (Sim.healthy false)) false
                           Sim.hwnd_main (state0 Sim.boot)))))) =
  [ Ev (ID3D12CommandQueue_Signal 4128 4352 1) 0;
    Ev (ID3D12Fence_GetCompletedValue 4352) 0;
    Ev (ID3D12Fence_SetEventOnCompletion 4352 1 4368) 0;
    Ev (WaitForSingleObject 4368 INFINITE) 0;
    Ev (IDXGISwapChain3_GetCurrentBackBufferIndex 4160) 1 ].
Proof.
  split.
  - apply (@Render_waits_only_when_fence_is_behind Sim.world
             (Sim.api (Sim.healthy false))
             (snd (Triangle.InitD3D12 (Sim.api (Sim.healthy false)) false
                     Sim.hwnd_main (state0 Sim.boot)))).
  - split; vm_compute; reflexivity.
Defined.

(** ** The vertex buffer *)

Section VertexBuffer.
Context {W : Type}.
Variable api : forall c : call, W -> ret c * W.
Variable _DEBUG : bool.

Lemma Triangle_InitD3D12_fills (hwnd : handle) (c : config W) :
  hoare anything (Triangle.InitD3D12 api _DEBUG hwnd) c
    (fun o c' new => o = Normal tt -> vertex_buffer_filled (cg c') new).
Proof.
  destruct c as [g w p n]. unfold Triangle.InitD3D12. hsteps.
  all: unfold anything; trivial; try discriminate.
  all: intros _; units; unfold vertex_buffer_filled.
  all: lazymatch goal with
       | |- exists pre, _ /\ _ => idtac
       | |- exists pre hrR hrM pData, ?l = _ /\ _ =>
           exists (firstn (List.length l - 5) l);
           cbn [firstn List.length Nat.sub]; do 3 eexists
       end.
  all: cbn; repeat split; first [ eassumption | reflexivity | repeat constructor ].
Qed.

Lemma Render_never_maps (s : state W) :
  exists new,
    trace (snd (Triangle.Render api s)) = trace s ++ new /\
    Forall (fun e => is_Map (call_of e) = false) new.
Proof.
  assert (H : forall c : config W,
             hoare anything (Triangle.Render api) c
               (fun _ _ new => Forall (fun e => is_Map (call_of e) = false) new)).
  { intros [g w p n]. unfold Triangle.Render. hsteps.
    all: unfold anything; trivial; repeat constructor. }
  destruct (hoare_run s (H (cur s))) as (new & newh & Et & _ & _ & _ & HQ).
  eauto.
Qed.
End VertexBuffer.

(** C8.  The vertex data of the triangle program are the three vertices
    (0, 0.5, 0) red, (-0.5, -0.5, 0) green and (0.5, -0.5, 0) blue, all of
    alpha 1, of 28 bytes each and 84 bytes together.  In any world, an
    [InitD3D12] that returns normally has ended with these calls: create a
    committed buffer of width 84 on an UPLOAD heap in state GENERIC_READ; map
    it with the read range (0, 0); copy the 84 bytes of the vertices to the
    mapped address; unmap it with a null written range; ask for its GPU
    address.  No call before them maps a resource, and none in a frame does.
    The view is left with that address, the stride 28 and the
    size-in-elements 3. *)
Theorem vertex_buffer_holds_three_vertices
    (W : Type) (api : forall c : call, W -> ret c * W) (_DEBUG : bool)
    (hwnd : handle) (s s' : state W) :
  Triangle.InitD3D12 api _DEBUG hwnd s = (Normal tt, s') ->
  three_vertices /\
  (exists new, trace s' = trace s ++ new /\ vertex_buffer_filled (cg (cur s')) new) /\
  (forall t : state W, exists new,
     trace (snd (Triangle.Render api t)) = trace t ++ new /\
     Forall (fun e => is_Map (call_of e) = false) new).
Proof.
  intros H. split; [ | split ].
  - repeat split.
  - destruct (hoare_run s (Triangle_InitD3D12_fills api _DEBUG hwnd (cur s)))
      as (new & newh & Et & _ & _ & _ & HQ).
    rewrite H in Et, HQ. cbn [fst snd] in Et, HQ. eauto.
  - apply Render_never_maps.
Qed.

Lemma vertex_buffer_holds_three_vertices_witness :
  three_vertices /\
  (exists new,
     trace (snd (Triangle.InitD3D12 (Sim.api (Sim.healthy false)) false Sim.hwnd_main
                   (state0 Sim.boot))) =
       trace (state0 Sim.boot) ++ new /\
     vertex_buffer_filled
       (cg (cur (snd (Triangle.InitD3D12 (Sim.api (Sim.healthy false)) false
                        Sim.hwnd_main (state0 Sim.boot)))))
       new) /\
  (forall t : state Sim.world, exists new,
     trace (snd (Triangle.Render (Sim.api (Sim.healthy false)) t)) = trace t ++ new /\
     Forall (fun e => is_Map (call_of e) = false) new).
Proof.
  apply (@vertex_buffer_holds_three_vertices Sim.world (Sim.api (Sim.healthy false))
           false Sim.hwnd_main (state0 Sim.boot)
           (snd (Triangle.InitD3D12 (Sim.api (Sim.healthy false)) false Sim.hwnd_main
                   (state0 Sim.boot)))).
  vm_compute. reflexivity.
Defined.

(** ** The start of a run *)

Lemma gpu_init_takes_more {A B} (hwnd : handle) (o : outcome A) (o' : outcome B)
    (l l' : list event) :
  gpu_init_takes hwnd o l -> (forall what, o <> Thrown what) ->
  gpu_init_takes hwnd o' (l ++ l').
Proof.
  intros (f & r & -> & H) Ho. exists f, (r ++ l'). split; [ reflexivity | ].
  destruct (FAILED (fst f)); [ destruct H as [_ H]; now apply Ho in H | ].
  destruct H as (d & r1 & -> & H). exists d, (r1 ++ l'). split; [ reflexivity | ].
  destruct (FAILED (fst d)); [ destruct H as [_ H]; now apply Ho in H | ].
  destruct H as (q & r2 & -> & H). exists q, (r2 ++ l'). split; [ reflexivity | ].
  destruct (FAILED (fst q)); [ destruct H as [_ H]; now apply Ho in H | ].
  destruct H as (sc & r3 & ->). exists sc, (r3 ++ l'). reflexivity.
Qed.

Lemma gpu_init_takes_thrown {A B} (hwnd : handle) (what : string) (l : list event) :
  gpu_init_takes hwnd (Thrown what : outcome A) l ->
  gpu_init_takes hwnd (Thrown what : outcome B) l.
Proof.
  intros (f & r & -> & H). exists f, r. split; [ reflexivity | ].
  destruct (FAILED (fst f)); [ destruct H as [-> H]; inversion H; now split | ].
  destruct H as (d & r1 & -> & H). exists d, r1. split; [ reflexivity | ].
  destruct (FAILED (fst d)); [ destruct H as [-> H]; inversion H; now split | ].
  destruct H as (q & r2 & -> & H). exists q, r2. split; [ reflexivity | ].
  destruct (FAILED (fst q)); [ destruct H as [-> H]; inversion H; now split | ].
  exact H.
Qed.

Section Start.
Context {W : Type}.
Variable api : forall c : call, W -> ret c * W.

Ltac takes_solve :=
  unfold anything; trivial; units; unfold gpu_init_takes; cbn [app];
  repeat (do 2 eexists;
          first [ split; [ reflexivity | ]; cbn [fst snd];
                  repeat match goal with F : FAILED _ = _ |- _ => rewrite F end;
                  try (split; reflexivity)
                | reflexivity ]).

Lemma Triangle_InitD3D12_takes _DEBUG : init_takes_window (Triangle.InitD3D12 api _DEBUG).
Proof.
  intros hwnd [g w p n]. unfold Triangle.InitD3D12. hsteps. all: takes_solve.
Qed.

Lemma Window_InitD3D12_takes : init_takes_window (Window.InitD3D12 api).
Proof.
  intros hwnd [g w p n]. unfold Window.InitD3D12. hsteps. all: takes_solve.
Qed.

Lemma WinMain_rest_takes (frame : list mark) (Render : M (W := W) unit)
    (InitD3D12 : handle -> M (W := W) unit) (fuel : nat) (hwnd : handle) (c : config W) :
  frame_marks frame Render -> init_takes_window InitD3D12 ->
  hoare anything (Host.WinMain_rest api Render InitD3D12 fuel hwnd) c
    (fun o _ new => gpu_init_takes hwnd o new).
Proof.
  intros HRender HInit. unfold Host.WinMain_rest.
  apply hoare_bind, hoare_enter. split; [ exact Logic.I | ].
  apply hoare_bind. eapply hoare_conseq; [ apply HInit | ].
  cbn beta. intros [[]| what |] c1 new1 H.
  2: { cbn [app]. exact (gpu_init_takes_thrown (A:=unit) H). }
  2: { cbn [app]. rewrite <- (app_nil_r new1). eapply gpu_init_takes_more;
       [ exact H | discriminate ]. }
  apply hoare_bind, hoare_enter. split; [ exact Logic.I | ].
  apply hoare_bind. eapply hoare_conseq; [ apply (main_loop_marks api HRender) | ].
  cbn beta. intros [[]| what |] c2 new2 _.
  2, 3: cbn [app]; eapply gpu_init_takes_more; [ exact H | discriminate ].
  destruct c2 as [g2 w2 p2 n2]. hsteps.
  all: unfold anything; trivial.
  all: cbn [app]; repeat rewrite <- app_assoc;
    eapply gpu_init_takes_more; [ exact H | discriminate ].
Qed.

Lemma Triangle_WinMain_takes _DEBUG fuel hInstance nCmdShow (c : config W) :
  hoare anything (Triangle.WinMain api _DEBUG fuel hInstance nCmdShow) c
    (fun o _ new =>
       exists atom hwnd shown updated init,
         new = window_shown "Triangle DX12" true hInstance nCmdShow
                 atom hwnd shown updated ++ init /\
         gpu_init_takes hwnd o init).
Proof.
  destruct c as [g w p n]. unfold Triangle.WinMain. hsteps.
  all: try exact Logic.I.
  eapply hoare_conseq.
  - eapply WinMain_rest_takes;
      [ apply Triangle_Render_marks | apply Triangle_InitD3D12_takes ].
  - cbn beta. intros o c' new H.
    unfold window_shown. cbn [app]. do 5 eexists. split; [ reflexivity | exact H ].
Qed.

Lemma Window_WinMain_takes fuel hInstance nCmdShow (c : config W) :
  hoare anything (Window.WinMain api fuel hInstance nCmdShow) c
    (fun o _ new =>
       exists atom hwnd shown init,
         new = window_shown "window" false hInstance nCmdShow
                 atom hwnd shown false ++ init /\
         gpu_init_takes hwnd o init).
Proof.
  destruct c as [g w p n]. unfold Window.WinMain. hsteps.
  all: try exact Logic.I.
  eapply hoare_conseq.
  - eapply WinMain_rest_takes;
      [ apply Window_Render_marks | apply Window_InitD3D12_takes ].
  - cbn beta. intros o c' new H.
    unfold window_shown. cbn [app]. do 4 eexists. split; [ reflexivity | exact H ].
Qed.
End Start.

(** C7 as stated fails: where the window cannot be created, the triangle
    program goes on to show the null handle and to initialise the GPU with
    it. *)
Lemma null_window_reaches_gpu_init :
  ~ host_init_guarded
      (fst (Triangle.WinMain
              (Sim.api {| Sim.fail_at := None; Sim.no_window := true;
                          Sim.eager := true; Sim.close_after := None |})
              false 3 1 1 (state0 Sim.boot)))
      (trace (snd (Triangle.WinMain
                     (Sim.api {| Sim.fail_at := None; Sim.no_window := true;
                                 Sim.eager := true; Sim.close_after := None |})
                     false 3 1 1 (state0 Sim.boot)))).
Proof.
  intros H.
  assert (E : existsb window_failed
                (trace (snd (Triangle.WinMain
                     (Sim.api {| Sim.fail_at := None; Sim.no_window := true;
                                 Sim.eager := true; Sim.close_after := None |})
                     false 3 1 1 (state0 Sim.boot)))) = true)
    by (vm_compute; reflexivity).
  apply H in E. destruct E as [_ E]. revert E. vm_compute. discriminate.
Qed.

(* ================================================================== *)
(** * More of what the code does: proofs *)

(** ** The shader compiler *)

Lemma CompileShader_compiled {W} (api : forall c : call, W -> ret c * W)
    (_DEBUG : bool) (src entry target : string) (c : config W) :
  hoare anything (Triangle.CompileShader api _DEBUG src entry target) c
    (fun o c' new => compiled _DEBUG src entry target o new /\ cg c' = cg c).
Proof.
  destruct c as [g w p n]. unfold Triangle.CompileShader.
  destruct _DEBUG; cbn [app]; hsteps.
  all: unfold anything; trivial; units.
  all: unfold compiled, compile_flags; do 4 eexists; (split; [ reflexivity | ]).
  all: rewrite ?F, ?F0; eauto.
Qed.

(** X1.  [CompileShader] makes one call of [D3DCompile], on the source and
    its length, the entry point and the target, with the strictness flag and,
    in a debug build, the debug and skip-optimisation flags.  If it succeeds,
    the byte-code blob is returned and nothing else is called.  If it fails,
    the text of the error blob is sent to the debugger when there is an error
    blob, and [std::runtime_error("Shader compilation failed")] is thrown.
    No global is changed. *)
Theorem CompileShader_returns_bytecode_or_throws
    (W : Type) (api : forall c : call, W -> ret c * W) (_DEBUG : bool)
    (src entry target : string) (s : state W) :
  exists new,
    trace (snd (Triangle.CompileShader api _DEBUG src entry target s)) = trace s ++ new /\
    compiled _DEBUG src entry target
      (fst (Triangle.CompileShader api _DEBUG src entry target s)) new /\
    cg (cur (snd (Triangle.CompileShader api _DEBUG src entry target s))) = cg (cur s).
Proof.
  destruct (hoare_run s (CompileShader_compiled api _DEBUG src entry target (cur s)))
    as (new & newh & Et & _ & _ & _ & HQ).
  eauto.
Qed.

(** ** One frame of the cleared window *)

(** X2.  In the cleared-window program and in any world, a call of [Render]
    that returns normally has made exactly these calls, in this order: reset
    the allocator; reset the command list with the allocator and no pipeline
    state; ask the device for the descriptor size and the heap for its start;
    clear the render target at heap start plus [g_frameIndex] times the size
    to (0.2, 0.4, 0.6, 1.0); close the list; execute it; present with sync
    interval 1 and flags 0; signal the fence with [g_fenceValue]; read the
    fence and, only if it is behind, register the event and wait on it; and
    last ask for the current back-buffer index.  It sets no viewport, binds
    no render target and draws nothing.  Every checked result was a success;
    on return [g_fenceValue] is incremented and [g_frameIndex] is the index
    just read. *)
Theorem Window_Render_frame_order
    (W : Type) (api : forall c : call, W -> ret c * W) (s s' : state W) :
  Window.Render api s = (Normal tt, s') -> window_frame_in_order s s'.
Proof.
  intros H. destruct s as [[g w p f] tr h].
  unfold Window.Render in H. run_cbn H.
  repeat run_step api H.
  all: inversion H; subst s'; clear H; units.
  all: unfold window_frame_in_order, window_frame_calls, move;
       cbn [trace cur cg]; repeat rewrite <- app_assoc; cbn [app].
  all: do 10 eexists; repeat apply conj.
  all: try match goal with |- _ \/ _ =>
         first [ left; split; [eassumption | reflexivity]
               | right; split; [eassumption | do 2 eexists; split; [ | reflexivity]] ] end.
  all: try match goal with |- _ ++ _ = _ => cbn [app]; reflexivity end.
  all: first [eassumption | reflexivity].
Qed.

Lemma Window_Render_frame_order_witness :
  window_frame_in_order
    (snd (Window.InitD3D12 (Sim.api (Sim.healthy false)) Sim.hwnd_main (state0 Sim.boot)))
    (snd (Window.Render (Sim.api (Sim.healthy false))
            (snd (Window.InitD3D12 (Sim.api (Sim.healthy false)) Sim.hwnd_main
                    (state0 Sim.boot))))).
Proof.
  apply (@Window_Render_frame_order Sim.world (Sim.api (Sim.healthy false))
           (snd (Window.InitD3D12 (Sim.api (Sim.healthy false)) Sim.hwnd_main
                   (state0 Sim.boot)))
           (snd (Window.Render (Sim.api (Sim.healthy false))
                   (snd (Window.InitD3D12 (Sim.api (Sim.healthy false)) Sim.hwnd_main
                           (state0 Sim.boot)))))).
  vm_compute. reflexivity.
Defined.

(** ** A frame that fails *)

Ltac failures :=
  repeat match goal with F : FAILED _ = _ |- _ => rewrite F end.

Ltac stops_solve :=
  unfold anything; trivial; units;
  unfold stops_at_first_failure;
  lazymatch goal with
  | |- none_failed _ = true =>
      unfold none_failed; cbn [forallb hresult_failed]; failures; reflexivity
  | |- _ /\ _ /\ exists pre e, ?l = _ /\ _ =>
      split; [ reflexivity | split; [ reflexivity | ] ];
      exists (removelast l), (last l (Ev CreateDXGIFactory1 (0, 0)));
      cbn [removelast last app];
      split; [ reflexivity | ];
      unfold none_failed; cbn [forallb hresult_failed]; failures; split; reflexivity
  end.

Lemma Triangle_Render_stops {W} (api : forall c : call, W -> ret c * W) (c : config W) :
  hoare anything (Triangle.Render api) c
    (fun o c' new => stops_at_first_failure (cg c) (cg c') o new).
Proof.
  destruct c as [g w p n]. unfold Triangle.Render. hsteps. all: stops_solve.
Qed.

Lemma Window_Render_stops {W} (api : forall c : call, W -> ret c * W) (c : config W) :
  hoare anything (Window.Render api) c
    (fun o c' new => stops_at_first_failure (cg c) (cg c') o new).
Proof.
  destruct c as [g w p n]. unfold Window.Render. hsteps. all: stops_solve.
Qed.

(** X3.  In both programs and in any world, [Render] stops at the first of
    its calls that answers a failed [HRESULT]: that call is the last it
    makes, [std::runtime_error("HRESULT failed")] is thrown, and every
    global, [g_fenceValue] and [g_frameIndex] included, is as it was before
    the frame.  A [Render] that returns has seen no failure. *)
Theorem Render_stops_at_first_failure
    (W : Type) (api : forall c : call, W -> ret c * W) (s : state W) :
  (exists new,
     trace (snd (Triangle.Render api s)) = trace s ++ new /\
     stops_at_first_failure (cg (cur s)) (cg (cur (snd (Triangle.Render api s))))
       (fst (Triangle.Render api s)) new) /\
  (exists new,
     trace (snd (Window.Render api s)) = trace s ++ new /\
     stops_at_first_failure (cg (cur s)) (cg (cur (snd (Window.Render api s))))
       (fst (Window.Render api s)) new).
Proof.
  split.
  - destruct (hoare_run s (Triangle_Render_stops api (cur s)))
      as (new & newh & Et & _ & _ & _ & HQ).
    eauto.
  - destruct (hoare_run s (Window_Render_stops api (cur s)))
      as (new & newh & Et & _ & _ & _ & HQ).
    eauto.
Qed.

(** ** Initialisation of the cleared window *)

Lemma Window_InitD3D12_initialises {W} (api : forall c : call, W -> ret c * W)
    (hwnd : handle) (c : config W) :
  List.length (g_renderTargets (cg c)) = 2%nat ->
  hoare anything (Window.InitD3D12 api hwnd) c
    (fun o c' new => o = Normal tt -> window_initialised hwnd (cg c) (cg c') new).
Proof.
  destruct c as [g w p n]. cbn [cg]. intros Hlen.
  destruct (g_renderTargets g) as [|t0 [|t1 [|t2 ts]]] eqn:Et; try discriminate Hlen.
  unfold Window.InitD3D12. hsteps.
  all: unfold anything; trivial; try discriminate.
  intros _. units. unfold window_initialised.
  change (UINT_wrap (0 + 1)) with 1. rewrite !Et.
  cbn [Z.to_nat Pos.to_nat Pos.iter_op Nat.add array_set nth].
  eexists (Build_init_answers (_, _) (_, _) (_, _) (_, _) (_, _) _ (_, _) _ _
             (_, _) (_, _) (_, _) (_, _) _ (_, _) _).
  unfold window_init_calls, init_checks, window_init_globals.
  cbn [a_factory a_device a_queue a_swapChain1 a_swapChain a_index a_heap a_rtvSize
       a_heapStart a_buffer0 a_buffer1 a_allocator a_list a_close a_fence a_event
       fst snd].
  split; [ | split; [ reflexivity | reflexivity ] ].
  repeat split; try eassumption.
  apply Z.eqb_neq. assumption.
Qed.

(** X4.  In the cleared-window program and in any world, an [InitD3D12]
    that returns normally has made exactly these calls, in this order, each
    on the objects that the calls before it returned: the DXGI factory; the
    device (default adapter, feature level 11.0); a direct command queue on
    the device; a swap chain for [hwnd] on that queue (2 buffers, 800 by 600,
    R8G8B8A8_UNORM, flip-discard); its [IDXGISwapChain3] interface and
    current back-buffer index; a heap of 2 render-target descriptors; a view
    of buffer 0 at the heap start and of buffer 1 one descriptor size
    further; a direct command allocator and a command list on it, closed at
    once; a fence of initial value 0; and an auto-reset, unsignalled event.
    Every result but that of the [Close] was tested and was a success, the
    event is not null, and the globals hold the objects returned, with
    [g_fenceValue] 1 and [g_frameIndex] the index read. *)
Theorem Window_InitD3D12_call_order
    (W : Type) (api : forall c : call, W -> ret c * W) (hwnd : handle)
    (s s' : state W) :
  List.length (g_renderTargets (cg (cur s))) = 2%nat ->
  Window.InitD3D12 api hwnd s = (Normal tt, s') ->
  exists new,
    trace s' = trace s ++ new /\
    window_initialised hwnd (cg (cur s)) (cg (cur s')) new.
Proof.
  intros Hlen H.
  destruct (hoare_run s (Window_InitD3D12_initialises api hwnd (cur s) Hlen))
    as (new & newh & Et & _ & _ & _ & HQ).
  rewrite H in Et, HQ. cbn [fst snd] in Et, HQ. eauto.
Qed.

Lemma Window_InitD3D12_call_order_witness :
  exists new,
    trace (snd (Window.InitD3D12 (Sim.api (Sim.healthy true)) Sim.hwnd_main
                  (state0 Sim.boot))) = trace (state0 Sim.boot) ++ new /\
    window_initialised Sim.hwnd_main (cg (cur (state0 Sim.boot)))
      (cg (cur (snd (Window.InitD3D12 (Sim.api (Sim.healthy true)) Sim.hwnd_main
                       (state0 Sim.boot)))))
      new.
Proof.
  apply (@Window_InitD3D12_call_order Sim.world (Sim.api (Sim.healthy true))
           Sim.hwnd_main (state0 Sim.boot)
           (snd (Window.InitD3D12 (Sim.api (Sim.healthy true)) Sim.hwnd_main
                   (state0 Sim.boot)))).
  - reflexivity.
  - vm_compute. reflexivity.
Defined.

(** ** The triangle's initialisation begins as the window's *)

Lemma carries_bind {W A} (m : M A) (k1 k2 : A -> M unit) (s : state W) :
  (forall a s1, carries_on (k1 a s1) (k2 a s1)) ->
  carries_on (bind m k1 s) (bind m k2 s).
Proof.
  intros H. unfold bind. destruct (m s) as [[a| what |] s1]; [ apply H | | ];
    reflexivity.
Qed.

Lemma carries_last {W} (m : M unit) (k : unit -> M unit) (s : state W) :
  (forall c : config W,
     hoare anything (k tt) c (fun _ c' _ => same_window_globals (cg c) (cg c'))) ->
  carries_on (m s) (bind m k s).
Proof.
  intros H. unfold bind, carries_on.
  destruct (m s) as [[[]| what |] s1]; cbn [fst snd]; [ | reflexivity .. ].
  destruct (hoare_run s1 (H (cur s1))) as (new & newh & Et & _ & _ & _ & HQ).
  eauto.
Qed.

(** X5.  [InitD3D12] of main.cpp begins as [InitD3D12] of dx12window.cpp:
    from the same state and in the same world, if the latter ends in an
    error, the former ends in the same error in the same state, having made
    the same calls; and if the latter returns, the former has made the same
    calls up to there and carries on from that state (to the root signature,
    the shaders, the pipeline state and the vertex buffer), leaving the
    eleven globals that both files declare as they were at that point. *)
Theorem Triangle_InitD3D12_extends_Window
    (W : Type) (api : forall c : call, W -> ret c * W) (_DEBUG : bool)
    (hwnd : handle) (s : state W) :
  carries_on (Window.InitD3D12 api hwnd s) (Triangle.InitD3D12 api _DEBUG hwnd s).
Proof.
  unfold Window.InitD3D12, Triangle.InitD3D12.
  repeat (apply carries_bind; intros ? ?;
          try match goal with
              | |- carries_on ((let '(_, _) := ?a in _) _) _ => destruct a
              end;
          cbn beta iota zeta).
  apply carries_last. intros [g w p n]. hsteps.
  all: unfold anything, same_window_globals; trivial; cbn; repeat split.
Qed.

(** ** The render-target views *)

(** The handles that the loop of [InitD3D12] steps through. *)
Lemma view_handles_app (l1 l2 : list event) :
  view_handles (l1 ++ l2) = view_handles l1 ++ view_handles l2.
Proof. apply flat_map_app. Qed.

Lemma buffers_got_app (l1 l2 : list event) :
  buffers_got (l1 ++ l2) = buffers_got l1 ++ buffers_got l2.
Proof. apply flat_map_app. Qed.

Lemma rtv_handle_step (h r k : Z) :
  0 <= r -> 0 <= k -> (k + 1) * r < 2 ^ 32 ->
  rtv_handle (SIZE_T_wrap (h + r)) k r = rtv_handle h (k + 1) r.
Proof.
  intros Hr Hk Hb. unfold rtv_handle, rtv_offset, SIZE_T_wrap, UINT_wrap.
  rewrite (Z.mod_small (k * r)) by nia.
  rewrite (Z.mod_small ((k + 1) * r)) by nia.
  rewrite Zplus_mod_idemp_l. f_equal. ring.
Qed.

Lemma rtv_handle_0 (h r : Z) : 0 <= h < 2 ^ 64 -> rtv_handle h 0 r = h.
Proof.
  intros Hh. unfold rtv_handle, rtv_offset, SIZE_T_wrap, UINT_wrap.
  cbn [Z.mul]. rewrite Z.mod_0_l by lia. rewrite Z.add_0_r. now apply Z.mod_small.
Qed.

Section Views.
Context {W : Type}.
Variable api : forall c : call, W -> ret c * W.

Lemma rtv_loop_views (rtvSize : Z) (n : nat) :
  0 <= rtvSize -> Z.of_nat n * rtvSize <= 2 ^ 32 ->
  forall (i h : Z) (c : config W), 0 <= h < 2 ^ 64 -> 0 <= i -> i + Z.of_nat n <= 2 ^ 32 ->
    hoare anything (Host.rtv_loop api n i rtvSize h) c
      (fun o _ new =>
         o = Normal tt ->
         view_handles new = frame_handles h rtvSize n /\
         buffers_got new = map (fun k => i + Z.of_nat k) (seq 0 n)).
Proof.
  intros Hr. induction n as [|n IH]; intros Hn i h c Hh Hi Hin.
  - cbn [Host.rtv_loop]. apply hoare_ret. intros _. split; reflexivity.
  - destruct c as [g w p f]. hsteps. all: unfold anything; trivial; try discriminate.
    eapply hoare_conseq.
    + apply (IH ltac:(nia) (UINT_wrap (i + 1)) (SIZE_T_wrap (h + rtvSize))).
      * unfold SIZE_T_wrap. apply Z.mod_pos_bound. lia.
      * unfold UINT_wrap. apply Z.mod_pos_bound. lia.
      * unfold UINT_wrap.
        pose proof (Z.mod_pos_bound (i + 1) (2 ^ 32) ltac:(lia)) as Hw.
        destruct n; [ cbn [Z.of_nat]; lia | rewrite Z.mod_small by lia; lia ].
    + cbn beta. intros o c' new H E. destruct (H E) as [Hv Hb].
      change (view_handles (?a :: ?b :: new)) with
        (view_handles [a; b] ++ view_handles new).
      change (buffers_got (?a :: ?b :: new)) with
        (buffers_got [a; b] ++ buffers_got new).
      rewrite Hv, Hb.
      cbn [view_handles buffers_got flat_map call_of app].
      unfold frame_handles. cbn [seq map]. rewrite <- !seq_shift, !map_map.
      split; f_equal.
      * cbn [Z.of_nat]. now rewrite rtv_handle_0.
      * apply map_ext_in. intros k Hk. apply in_seq in Hk.
        rewrite Nat2Z.inj_succ, <- Z.add_1_r. apply rtv_handle_step; nia.
      * cbn [Z.of_nat]. lia.
      * apply map_ext_in. intros k Hk. apply in_seq in Hk.
        unfold UINT_wrap. rewrite Z.mod_small by lia. lia.
Qed.
End Views.

(** X6.  The loop of [InitD3D12] that creates the render-target views steps
    a [SIZE_T] handle by the descriptor size; [Render] multiplies the frame
    index by the size as [UINT]s and adds the product to the heap start.  As
    long as [n] descriptors span no more than 2^32 bytes the two agree: the
    loop, run for the buffers [0 .. n-1] ([n] a [UINT]) from a heap start
    that is a [SIZE_T], asks the swap chain for exactly those buffers, in order, and
    creates the view of buffer [k] at the very handle that [Render] computes
    when [g_frameIndex] is [k]. *)
Theorem rtv_loop_creates_the_views_Render_uses
    (W : Type) (api : forall c : call, W -> ret c * W)
    (n : nat) (rtvSize heapStart : Z) (s : state W) :
  0 <= heapStart < 2 ^ 64 -> 0 <= rtvSize ->
  Z.of_nat n <= 2 ^ 32 -> Z.of_nat n * rtvSize <= 2 ^ 32 ->
  fst (Host.rtv_loop api n 0 rtvSize heapStart s) = Normal tt ->
  exists new,
    trace (snd (Host.rtv_loop api n 0 rtvSize heapStart s)) = trace s ++ new /\
    buffers_got new = map Z.of_nat (seq 0 n) /\
    view_handles new =
      map (fun k => rtv_handle heapStart (Z.of_nat k) rtvSize) (seq 0 n).
Proof.
  intros Hh Hr Hn' Hn H. rewrite <- (Z.add_0_l (Z.of_nat n)) in Hn'.
  destruct (hoare_run s (@rtv_loop_views W api rtvSize n Hr Hn 0 heapStart (cur s)
                           Hh (Z.le_refl 0) Hn'))
    as (new & newh & Et & _ & _ & _ & HQ).
  destruct (HQ H) as [Hv Hb]. exists new. repeat split; assumption.
Qed.

Lemma rtv_loop_creates_the_views_Render_uses_witness :
  exists new,
    trace (snd (Host.rtv_loop (Sim.api (Sim.healthy true)) 2 0 32 65536
                  (state0 Sim.boot))) = trace (state0 Sim.boot) ++ new /\
    buffers_got new = map Z.of_nat (seq 0 2) /\
    view_handles new = map (fun k => rtv_handle 65536 (Z.of_nat k) 32) (seq 0 2).
Proof.
  apply (@rtv_loop_creates_the_views_Render_uses Sim.world (Sim.api (Sim.healthy true))
           2 32 65536 (state0 Sim.boot)).
  - lia.
  - lia.
  - vm_compute. discriminate.
  - vm_compute. discriminate.
  - vm_compute. reflexivity.
Defined.

(** ** Errors in initialisation *)

Ltac ends_at n :=
  lazymatch goal with
  | |- exists pre e report, ?l = _ /\ _ =>
      exists (firstn (List.length l - n) l),
             (nth (List.length l - n) l (Ev CreateDXGIFactory1 (0, 0))),
             (skipn (S (List.length l - n)) l);
      cbn [firstn skipn nth List.length Nat.sub app];
      split; [ reflexivity | ];
      cbn [blamed error_report fst snd]; failures;
      repeat match goal with
             | E : (_ =? _) = _ |- _ => rewrite E
             end;
      split; [ reflexivity | first [ reflexivity | eexists; reflexivity ] ]
  end.

Ltac ends_solve :=
  unfold anything; trivial; units;
  unfold init_ends, window_init_errors, triangle_init_errors;
  lazymatch goal with
  | |- _ <> _ /\ _ =>
      split; [ apply Z.eqb_neq; assumption | reflexivity ]
  | |- In _ _ /\ _ =>
      split; [ cbn [In]; tauto | first [ ends_at 1%nat | ends_at 3%nat ] ]
  end.

Lemma Window_InitD3D12_ends {W} (api : forall c : call, W -> ret c * W)
    (hwnd : handle) (c : config W) :
  hoare anything (Window.InitD3D12 api hwnd) c
    (fun o c' new => init_ends window_init_errors (cg c') o new).
Proof.
  destruct c as [g w p n]. unfold Window.InitD3D12. hsteps. all: ends_solve.
Qed.

Lemma Triangle_InitD3D12_ends {W} (api : forall c : call, W -> ret c * W)
    (_DEBUG : bool) (hwnd : handle) (c : config W) :
  hoare anything (Triangle.InitD3D12 api _DEBUG hwnd) c
    (fun o c' new => init_ends triangle_init_errors (cg c') o new).
Proof.
  destruct c as [g w p n]. unfold Triangle.InitD3D12. hsteps. all: ends_solve.
Qed.

(** X7.  In any world, [InitD3D12] ends in one of two ways.  It returns, and
    then [g_fenceEvent] is not null and [g_fenceValue] is 1.  Or it throws
    for a call that failed, and the message tells which: "HRESULT failed" for
    a failed creation call or [Map], "Failed to create fence event" for a
    null event, and in main.cpp also "Failed to serialize root signature" and
    "Shader compilation failed".  The failed call is the last call made, with
    one exception: after a [D3DCompile] that failed and handed back an error
    blob, the text of the blob is fetched and sent to the debugger before the
    exception is thrown.  dx12window.cpp throws only the first two
    messages. *)
Theorem InitD3D12_returns_or_blames_the_failed_call
    (W : Type) (api : forall c : call, W -> ret c * W) (_DEBUG : bool)
    (hwnd : handle) (s : state W) :
  (exists new,
     trace (snd (Window.InitD3D12 api hwnd s)) = trace s ++ new /\
     init_ends window_init_errors (cg (cur (snd (Window.InitD3D12 api hwnd s))))
       (fst (Window.InitD3D12 api hwnd s)) new) /\
  (exists new,
     trace (snd (Triangle.InitD3D12 api _DEBUG hwnd s)) = trace s ++ new /\
     init_ends triangle_init_errors
       (cg (cur (snd (Triangle.InitD3D12 api _DEBUG hwnd s))))
       (fst (Triangle.InitD3D12 api _DEBUG hwnd s)) new).
Proof.
  split.
  - destruct (hoare_run s (Window_InitD3D12_ends api hwnd (cur s)))
      as (new & newh & Et & _ & _ & _ & HQ).
    eauto.
  - destruct (hoare_run s (Triangle_InitD3D12_ends api _DEBUG hwnd (cur s)))
      as (new & newh & Et & _ & _ & _ & HQ).
    eauto.
Qed.

(** ** The message loop *)

Lemma pump_pumping {W} (api : forall c : call, W -> ret c * W)
    (fuel : nat) (c : config W) :
  hoare anything (Host.pump api fuel) c
    (fun o c' new => pumping o new /\ cg c' = cg c).
Proof.
  revert c. induction fuel as [|fuel IH]; intros [g w p n].
  - cbn. apply hoare_out_of_fuel. split; [ constructor | reflexivity ].
  - cbn [Host.pump]. hsteps.
    all: try (eapply hoare_conseq;
              [ apply IH | cbn beta; intros ? ? ? (E1 & E2); cbn [cg] in E2 ]).
    all: unfold anything; trivial; units.
    all: repeat match goal with
                | H : (_ =? _) = true |- _ => apply Z.eqb_eq in H
                | H : (_ =? _) = false |- _ => apply Z.eqb_neq in H
                end.
    all: try solve [ exfalso; unfold WM_DESTROY, WM_QUIT in *; lia ].
    all: try (split; [ | assumption ]).
    all: lazymatch goal with
         | |- pumping (Normal false) _ => apply pumping_empty
         | |- pumping (Normal true) _ => apply pumping_quit; [ assumption | ]
         | |- pumping _ (?p :: ?a :: ?b :: ?x :: ?rest) =>
             change (p :: a :: b :: x :: rest) with (p :: [a; b; x] ++ rest);
             apply pumping_next; [ assumption | | assumption ]
         | |- pumping _ (?p :: ?a :: ?b :: ?rest) =>
             change (p :: a :: b :: rest) with (p :: [a; b] ++ rest);
             apply pumping_next; [ assumption | | assumption ]
         end.
    all: unfold message_round; do 2 eexists; (split; [ reflexivity | ]).
    all: repeat match goal with
                | H : ?a = ?b |- context [?a =? ?b] =>
                    rewrite (proj2 (Z.eqb_eq a b) H)
                | H : ?a <> ?b |- context [?a =? ?b] =>
                    rewrite (proj2 (Z.eqb_neq a b) H)
                end.
    all: eauto.
Qed.

(** X8.  In both programs and in any world, the inner message loop does
    this and nothing else: every message that [PeekMessage] retrieves is
    passed, at once and in this order, to [TranslateMessage] and to
    [DispatchMessage] (where [WindowProc] answers [WM_DESTROY] for a window by
    [PostQuitMessage(0)] and passes any other message on to [DefWindowProc]);
    the loop goes to [cleanup] exactly when the message just dispatched is
    [WM_QUIT], and falls through to [Render] exactly when [PeekMessage] finds
    no message.  It throws nothing and changes no global. *)
Theorem pump_translates_and_dispatches_every_message
    (W : Type) (api : forall c : call, W -> ret c * W) (fuel : nat) (s : state W) :
  exists new,
    trace (snd (Host.pump api fuel s)) = trace s ++ new /\
    pumping (fst (Host.pump api fuel s)) new /\
    cg (cur (snd (Host.pump api fuel s))) = cg (cur s).
Proof.
  destruct (hoare_run s (pump_pumping api fuel (cur s)))
    as (new & newh & Et & _ & _ & _ & HQ & Hg).
  eauto.
Qed.

(** ** Messages and frames *)

Lemma host_run_app (st : host_state) (l1 l2 : list event) :
  host_run st (l1 ++ l2) =
  match host_run st l1 with Some st' => host_run st' l2 | None => None end.
Proof.
  revert st. induction l1 as [|e l1 IH]; intros st; [ reflexivity | ].
  cbn [app host_run]. destruct (host_step st e); [ apply IH | reflexivity ].
Qed.

Lemma round_host (msg : MSG) (evs : list event) (st : host_state) :
  st <> Empty -> message_round msg evs -> host_run st evs = Some st.
Proof.
  intros Hst (t & proc & -> & H).
  destruct (msg_hwnd msg =? NULL); [ subst proc | ].
  - destruct st; [ reflexivity | contradiction | reflexivity ].
  - destruct (message msg =? WM_DESTROY); [ subst proc | destruct H as [r ->] ].
    + destruct st; [ reflexivity | contradiction | reflexivity ].
    + destruct st; [ reflexivity | contradiction | reflexivity ].
Qed.

Lemma pumping_host (o : outcome bool) (l : list event) :
  pumping o l ->
  (forall what, o <> Thrown what) /\
  host_run Busy l =
    Some match o with Normal true => Quit | Normal false => Empty | _ => Busy end.
Proof.
  induction 1 as [msg | msg evs Hq Hr | msg evs o rest Hq Hr Hp [IH1 IH2] | ].
  - split; [ discriminate | reflexivity ].
  - split; [ discriminate | ].
    cbn [host_run host_step fst snd]. rewrite Hq. cbn [Z.eqb WM_QUIT Pos.eqb].
    eapply round_host; [ discriminate | eassumption ].
  - split; [ exact IH1 | ].
    cbn [host_run host_step fst snd].
    rewrite (proj2 (Z.eqb_neq _ _) Hq), host_run_app.
    rewrite (@round_host msg evs Busy) by (discriminate || assumption).
    exact IH2.
  - split; [ discriminate | reflexivity ].
Qed.

Section Discipline.
Context {W : Type}.
Variable api : forall c : call, W -> ret c * W.

Ltac busy_solve :=
  unfold anything; trivial; try discriminate; try reflexivity.

Ltac host_solve :=
  cbn [app];
  repeat (rewrite host_run_app;
          try match goal with H : host_run _ _ = Some _ |- _ => rewrite H end;
          cbn beta iota);
  try match goal with H : host_run _ _ = Some _ |- _ => rewrite H end;
  cbn [host_run host_step host_end]; try reflexivity; try assumption.

Lemma Triangle_Render_busy : frame_is_busy (Triangle.Render api).
Proof. intros [g w p n]. unfold Triangle.Render. hsteps. all: busy_solve. Qed.

Lemma Window_Render_busy : frame_is_busy (Window.Render api).
Proof. intros [g w p n]. unfold Window.Render. hsteps. all: busy_solve. Qed.

Lemma Triangle_InitD3D12_busy _DEBUG : init_is_busy (Triangle.InitD3D12 api _DEBUG).
Proof. intros hwnd [g w p n]. unfold Triangle.InitD3D12. hsteps. all: busy_solve. Qed.

Lemma Window_InitD3D12_busy : init_is_busy (Window.InitD3D12 api).
Proof. intros hwnd [g w p n]. unfold Window.InitD3D12. hsteps. all: busy_solve. Qed.

Section Whole.
Variable InitD3D12 : handle -> M (W := W) unit.
Variable Render : M (W := W) unit.
Hypothesis HInit : init_is_busy InitD3D12.
Hypothesis HRender : frame_is_busy Render.

Lemma main_loop_host (fuel : nat) (c : config W) :
  hoare anything (Host.main_loop api Render fuel) c
    (fun o _ new =>
       host_run Busy new = Some match o with Normal _ => Quit | _ => Busy end).
Proof.
  revert c. induction fuel as [|fuel IH]; intros c.
  - cbn. apply hoare_out_of_fuel. reflexivity.
  - cbn [Host.main_loop].
    apply hoare_bind. eapply hoare_conseq; [ apply pump_pumping | ].
    cbn beta. intros o c1 new1 [Hp _]. apply pumping_host in Hp.
    destruct Hp as [Ht Hp]. destruct o as [[|]| what |].
    + apply hoare_ret. rewrite app_nil_r. exact Hp.
    + apply hoare_bind, hoare_begin_frame. split; [ exact Logic.I | ].
      apply hoare_bind. eapply hoare_conseq; [ apply HRender | ].
      cbn beta. intros [[]| what |] c2 new2 [Hr Hf].
      * apply hoare_bind, hoare_enter. split; [ exact Logic.I | ].
        eapply hoare_conseq; [ apply IH | ].
        cbn beta. intros o c3 new3 H3.
        host_solve.
      * host_solve.
      * now contradiction Hf.
    + now contradiction (Ht what).
    + exact Hp.
Qed.

Lemma WinMain_rest_host (fuel : nat) (hwnd : handle) (c : config W) :
  hoare anything (Host.WinMain_rest api Render InitD3D12 fuel hwnd) c
    (fun o _ new =>
       host_run Busy new = Some (host_end o) /\ forall z, o = Normal z -> z = 0).
Proof.
  unfold Host.WinMain_rest.
  apply hoare_bind, hoare_enter. split; [ exact Logic.I | ].
  apply hoare_bind. eapply hoare_conseq; [ apply HInit | ].
  cbn beta. intros [[]| what |] c1 new1 [H1 Hf].
  - apply hoare_bind, hoare_enter. split; [ exact Logic.I | ].
    apply hoare_bind. eapply hoare_conseq; [ apply main_loop_host | ].
    cbn beta. intros [[]| what |] c2 new2 H2.
    + destruct c2 as [g2 w2 p2 n2]. hsteps. all: try exact Logic.I.
      * host_solve.
      * intros z E. now inversion E.
    + split; [ | discriminate ]. host_solve.
    + split; [ | discriminate ]. host_solve.
  - split; [ | discriminate ]. host_solve.
  - now contradiction Hf.
Qed.
End Whole.

Lemma Triangle_WinMain_host _DEBUG fuel hInstance nCmdShow (c : config W) :
  hoare anything (Triangle.WinMain api _DEBUG fuel hInstance nCmdShow) c
    (fun o _ new =>
       host_run Busy new = Some (host_end o) /\ forall z, o = Normal z -> z = 0).
Proof.
  destruct c as [g w p n]. unfold Triangle.WinMain. hsteps.
  all: try exact Logic.I.
  eapply hoare_conseq.
  - eapply WinMain_rest_host;
      [ apply Triangle_InitD3D12_busy | apply Triangle_Render_busy ].
  - cbn beta. intros o c' new H. exact H.
Qed.

Lemma Window_WinMain_host fuel hInstance nCmdShow (c : config W) :
  hoare anything (Window.WinMain api fuel hInstance nCmdShow) c
    (fun o _ new =>
       host_run Busy new = Some (host_end o) /\ forall z, o = Normal z -> z = 0).
Proof.
  destruct c as [g w p n]. unfold Window.WinMain. hsteps.
  all: try exact Logic.I.
  eapply hoare_conseq.
  - eapply WinMain_rest_host;
      [ apply Window_InitD3D12_busy | apply Window_Render_busy ].
  - cbn beta. intros o c' new H. exact H.
Qed.
End Discipline.


Lemma returns_iff_quit (o : outcome Z) (t : list event) :
  host_run Busy t = Some (host_end o) /\ (forall z, o = Normal z -> z = 0) ->
  (o = Normal 0 <-> host_run Busy t = Some Quit) /\ (forall z, o = Normal z -> z = 0).
Proof.
  intros [H Hz]. split; [ | exact Hz ]. rewrite H. split.
  - intros ->. reflexivity.
  - destruct o as [z | what |]; cbn [host_end]; try discriminate.
    intros _. now rewrite (Hz z eq_refl).
Qed.

(** X10.  In both programs and in any world, [WinMain] returns if and only
    if [PeekMessage] has retrieved [WM_QUIT] in the course of the run, and
    the value it returns is then 0, whatever exit code the quit message
    carries. *)
Theorem WinMain_returns_zero_exactly_after_WM_QUIT
    (W : Type) (api : forall c : call, W -> ret c * W) (_DEBUG : bool)
    (fuel : nat) (hInstance : handle) (nCmdShow : Z) (w : W) :
  ((fst (Triangle.WinMain api _DEBUG fuel hInstance nCmdShow (state0 w)) = Normal 0 <->
    host_run Busy
      (trace (snd (Triangle.WinMain api _DEBUG fuel hInstance nCmdShow (state0 w)))) =
    Some Quit) /\
   forall z,
     fst (Triangle.WinMain api _DEBUG fuel hInstance nCmdShow (state0 w)) = Normal z ->
     z = 0) /\
  ((fst (Window.WinMain api fuel hInstance nCmdShow (state0 w)) = Normal 0 <->
    host_run Busy
      (trace (snd (Window.WinMain api fuel hInstance nCmdShow (state0 w)))) =
    Some Quit) /\
   forall z,
     fst (Window.WinMain api fuel hInstance nCmdShow (state0 w)) = Normal z -> z = 0).
Proof.
  split; apply returns_iff_quit.
  - destruct (hoare_run (state0 w)
                (Triangle_WinMain_host api _DEBUG fuel hInstance nCmdShow (config0 w)))
      as (new & newh & Et & _ & _ & _ & HQ).
    cbn [state0 trace app] in Et. now rewrite Et.
  - destruct (hoare_run (state0 w)
                (Window_WinMain_host api fuel hInstance nCmdShow (config0 w)))
      as (new & newh & Et & _ & _ & _ & HQ).
    cbn [state0 trace app] in Et. now rewrite Et.
Qed.

(** ** The values signalled *)

Lemma signalled_app (l1 l2 : list event) :
  signalled (l1 ++ l2) = signalled l1 ++ signalled l2.
Proof. apply flat_map_app. Qed.

Lemma pumping_signals (o : outcome bool) (l : list event) :
  pumping o l -> signalled l = [].
Proof.
  induction 1 as [msg | msg evs Hq Hr | msg evs o rest Hq Hr Hp IH | ];
    try reflexivity.
  - destruct Hr as (t & proc & -> & H).
    destruct (msg_hwnd msg =? NULL); [ now subst proc | ].
    destruct (message msg =? WM_DESTROY); [ now subst proc | ].
    now destruct H as [r ->].
  - destruct Hr as (t & proc & -> & H).
    change (signalled (?p :: (?a :: ?b :: proc) ++ rest)) with (signalled (proc ++ rest)).
    rewrite signalled_app, IH, app_nil_r.
    destruct (msg_hwnd msg =? NULL); [ now subst proc | ].
    destruct (message msg =? WM_DESTROY); [ now subst proc | ].
    now destruct H as [r ->].
Qed.

Section Signals.
Context {W : Type}.
Variable api : forall c : call, W -> ret c * W.

Ltac signals_solve :=
  unfold anything; trivial; try discriminate;
  cbn [signalled flat_map call_of app];
  repeat split; try discriminate; try reflexivity; auto.

Lemma Triangle_Render_signals : frame_signals (Triangle.Render api).
Proof. intros [g w p n]. unfold Triangle.Render. hsteps. all: signals_solve. Qed.

Lemma Window_Render_signals : frame_signals (Window.Render api).
Proof. intros [g w p n]. unfold Window.Render. hsteps. all: signals_solve. Qed.

Lemma Triangle_InitD3D12_signals _DEBUG :
  init_signals (Triangle.InitD3D12 api _DEBUG).
Proof. intros hwnd [g w p n]. unfold Triangle.InitD3D12. hsteps. all: signals_solve. Qed.

Lemma Window_InitD3D12_signals : init_signals (Window.InitD3D12 api).
Proof. intros hwnd [g w p n]. unfold Window.InitD3D12. hsteps. all: signals_solve. Qed.

Section Whole.
Variable InitD3D12 : handle -> M (W := W) unit.
Variable Render : M (W := W) unit.
Hypothesis HInit : init_signals InitD3D12.
Hypothesis HRender : frame_signals Render.

Lemma main_loop_signals (fuel : nat) (c : config W) :
  hoare anything (Host.main_loop api Render fuel) c
    (fun _ _ new => exists k, signalled new = count_from (g_fenceValue (cg c)) k).
Proof.
  revert c. induction fuel as [|fuel IH]; intros c.
  - cbn. apply hoare_out_of_fuel. now exists 0%nat.
  - cbn [Host.main_loop].
    apply hoare_bind. eapply hoare_conseq; [ apply pump_pumping | ].
    cbn beta. intros o c1 new1 [Hp Hg]. pose proof (pumping_host Hp) as [Ht _].
    apply pumping_signals in Hp.
    destruct o as [[|]| what |].
    + apply hoare_ret. rewrite app_nil_r, Hp. now exists 0%nat.
    + apply hoare_bind, hoare_begin_frame. split; [ exact Logic.I | ].
      apply hoare_bind. eapply hoare_conseq; [ apply HRender | ].
      cbn beta. unfold begun. cbn [cg]. rewrite Hg.
      intros [[]| what |] c2 new2 [Hf Hr].
      * destruct Hr as [Hr Hv].
        apply hoare_bind, hoare_enter. split; [ exact Logic.I | ].
        eapply hoare_conseq; [ apply IH | ].
        cbn beta. unfold after_enter. cbn [cg]. intros o c3 new3 [k Hk].
        exists (S k). cbn [app]. rewrite !signalled_app, Hp, Hr, Hk, Hv. reflexivity.
      * cbn [app]. rewrite !signalled_app, Hp.
        destruct Hr as [-> | ->]; [ now exists 0%nat | now exists 1%nat ].
      * now contradiction Hf.
    + now contradiction (Ht what).
    + rewrite Hp. now exists 0%nat.
Qed.

Lemma WinMain_rest_signals (fuel : nat) (hwnd : handle) (c : config W) :
  hoare anything (Host.WinMain_rest api Render InitD3D12 fuel hwnd) c
    (fun _ _ new => exists k, signalled new = count_from 1 k).
Proof.
  unfold Host.WinMain_rest.
  apply hoare_bind, hoare_enter. split; [ exact Logic.I | ].
  apply hoare_bind. eapply hoare_conseq; [ apply HInit | ].
  cbn beta. intros [[]| what |] c1 new1 (Hf & H1 & Hv).
  - apply hoare_bind, hoare_enter. split; [ exact Logic.I | ].
    apply hoare_bind. eapply hoare_conseq; [ apply main_loop_signals | ].
    cbn beta. unfold after_enter. cbn [cg]. rewrite (Hv eq_refl).
    intros [[]| what |] c2 new2 [k Hk].
    + destruct c2 as [g2 w2 p2 n2]. hsteps. all: try exact Logic.I.
      exists k. cbn [app]. rewrite !signalled_app, H1, Hk. cbn. now rewrite app_nil_r.
    + exists k. cbn [app]. now rewrite !signalled_app, H1, Hk.
    + exists k. cbn [app]. now rewrite !signalled_app, H1, Hk.
  - exists 0%nat. cbn [app]. now rewrite H1.
  - now contradiction Hf.
Qed.
End Whole.

Lemma Triangle_WinMain_signals _DEBUG fuel hInstance nCmdShow (c : config W) :
  hoare anything (Triangle.WinMain api _DEBUG fuel hInstance nCmdShow) c
    (fun _ _ new => exists k, signalled new = count_from 1 k).
Proof.
  destruct c as [g w p n]. unfold Triangle.WinMain. hsteps.
  all: try exact Logic.I.
  eapply hoare_conseq.
  - eapply WinMain_rest_signals;
      [ apply Triangle_InitD3D12_signals | apply Triangle_Render_signals ].
  - cbn beta. intros o c' new H. exact H.
Qed.

Lemma Window_WinMain_signals fuel hInstance nCmdShow (c : config W) :
  hoare anything (Window.WinMain api fuel hInstance nCmdShow) c
    (fun _ _ new => exists k, signalled new = count_from 1 k).
Proof.
  destruct c as [g w p n]. unfold Window.WinMain. hsteps.
  all: try exact Logic.I.
  eapply hoare_conseq.
  - eapply WinMain_rest_signals;
      [ apply Window_InitD3D12_signals | apply Window_Render_signals ].
  - cbn beta. intros o c' new H. exact H.
Qed.
End Signals.

(** X11.  In both programs and in any world, with or without failures, the
    values that a run of [WinMain] asks the queue to signal on the fence are
    1, 2, 3, ... in this order, each one more than the one before (as a
    [UINT64]): no value is signalled twice in a row, skipped, or signalled
    out of order. *)
Theorem signalled_values_count_up_from_1
    (W : Type) (api : forall c : call, W -> ret c * W) (_DEBUG : bool)
    (fuel : nat) (hInstance : handle) (nCmdShow : Z) (w : W) :
  (exists k,
     signalled (trace (snd (Triangle.WinMain api _DEBUG fuel hInstance nCmdShow
                              (state0 w)))) = count_from 1 k) /\
  (exists k,
     signalled (trace (snd (Window.WinMain api fuel hInstance nCmdShow
                              (state0 w)))) = count_from 1 k).
Proof.
  split.
  - destruct (hoare_run (state0 w)
                (Triangle_WinMain_signals api _DEBUG fuel hInstance nCmdShow (config0 w)))
      as (new & newh & Et & _ & _ & _ & HQ).
    cbn [state0 trace app] in Et. now rewrite Et.
  - destruct (hoare_run (state0 w)
                (Window_WinMain_signals api fuel hInstance nCmdShow (config0 w)))
      as (new & newh & Et & _ & _ & _ & HQ).
    cbn [state0 trace app] in Et. now rewrite Et.
Qed.

(** ** The shape of a run *)

(** X12.  In both programs and in any world, the calls of a run of [WinMain]
    that concern the command list, the fence, the vertex buffer, the swap
    chain and the fence event are, in order: those of initialisation (create
    the list, close it, create the fence at 0 and, in the triangle, map the
    vertex buffer); then whole frames (reset, clear, draw in the triangle,
    close, present); and then, by the way the run ends, the closing of the
    fence event if [WinMain] returns, a part of one more frame if a frame
    threw, or a part of initialisation alone if initialisation threw. *)
Theorem run_is_init_then_frames_then_close
    (W : Type) (api : forall c : call, W -> ret c * W) (_DEBUG : bool)
    (fuel : nat) (hInstance : handle) (nCmdShow : Z) (w : W) :
  run_marks triangle_init triangle_frame
    (fst (Triangle.WinMain api _DEBUG fuel hInstance nCmdShow (state0 w)))
    (cg (cur (snd (Triangle.WinMain api _DEBUG fuel hInstance nCmdShow (state0 w)))))
    (marks (trace (snd (Triangle.WinMain api _DEBUG fuel hInstance nCmdShow (state0 w))))) /\
  run_marks window_init window_frame
    (fst (Window.WinMain api fuel hInstance nCmdShow (state0 w)))
    (cg (cur (snd (Window.WinMain api fuel hInstance nCmdShow (state0 w)))))
    (marks (trace (snd (Window.WinMain api fuel hInstance nCmdShow (state0 w))))).
Proof.
  split.
  - destruct (hoare_run (state0 w)
                (Triangle_WinMain_marks api _DEBUG fuel hInstance nCmdShow (config0 w)))
      as (new & newh & Et & _ & _ & _ & HQ).
    cbn [state0 trace app] in Et. now rewrite Et.
  - destruct (hoare_run (state0 w)
                (Window_WinMain_marks api fuel hInstance nCmdShow (config0 w)))
      as (new & newh & Et & _ & _ & _ & HQ).
    cbn [state0 trace app] in Et. now rewrite Et.
Qed.

(** ** A run with no quit message *)

Section Forever.
Context {W : Type}.
Variable api : forall c : call, W -> ret c * W.
Variable good : W -> Prop.
Hypothesis Hhealthy : healthy api good.

Ltac well E :=
  match type of E with
  | api ?cl ?w = (?r, ?w') =>
      match goal with
      | G : good w |- _ =>
          let G' := fresh "G" in let S := fresh "S" in let Qt := fresh "Qt" in
          destruct (Hhealthy cl G eq_refl) as (G' & S & Qt);
          rewrite E in G', S, Qt; cbn [fst snd succeeds quiet] in G', S, Qt;
          clear E G
      end
  end.

Lemma Triangle_WinMain_goes_on _DEBUG fuel hInstance nCmdShow (c : config W) :
  good (cw c) -> cframe c = 0%nat ->
  hoare anything (Triangle.WinMain api _DEBUG fuel hInstance nCmdShow) c
    (fun o c' _ => o = OutOfFuel /\ cframe c' = fuel).
Proof.
  destruct c as [g w p n]. cbn [cw cframe]. intros G ->. unfold Triangle.WinMain.
  repeat (hstep well). all: try exact Logic.I.
  eapply hoare_conseq.
  - eapply (WinMain_rest_runs Hhealthy);
      [ apply Triangle_InitD3D12_runs, Hhealthy
      | apply Triangle_Render_runs, Hhealthy | eassumption ].
  - cbn beta. intros o c' _ (-> & _ & N & _). cbn [cframe] in N. auto.
Qed.

Lemma Window_WinMain_goes_on fuel hInstance nCmdShow (c : config W) :
  good (cw c) -> cframe c = 0%nat ->
  hoare anything (Window.WinMain api fuel hInstance nCmdShow) c
    (fun o c' _ => o = OutOfFuel /\ cframe c' = fuel).
Proof.
  destruct c as [g w p n]. cbn [cw cframe]. intros G ->. unfold Window.WinMain.
  repeat (hstep well). all: try exact Logic.I.
  eapply hoare_conseq.
  - eapply (WinMain_rest_runs Hhealthy);
      [ apply Window_InitD3D12_runs, Hhealthy
      | apply Window_Render_runs, Hhealthy | eassumption ].
  - cbn beta. intros o c' _ (-> & _ & N & _). cbn [cframe] in N. auto.
Qed.
End Forever.

(** X13.  In a world in which no call fails and no message ever arrives,
    neither program ends by itself: bounded to any number of frames,
    [WinMain] begins that many frames, none of which throws, and is stopped
    by the bound alone.  The loop has no exit but the quit message and an
    exception. *)
Theorem WinMain_goes_on_until_quit_or_failure
    (W : Type) (api : forall c : call, W -> ret c * W) (good : W -> Prop)
    (_DEBUG : bool) (fuel : nat) (hInstance : handle) (nCmdShow : Z) (w : W) :
  healthy api good -> good w ->
  still_running fuel (Triangle.WinMain api _DEBUG fuel hInstance nCmdShow (state0 w)) /\
  still_running fuel (Window.WinMain api fuel hInstance nCmdShow (state0 w)).
Proof.
  intros Hh G. split.
  - destruct (hoare_run (state0 w)
                (@Triangle_WinMain_goes_on W api good Hh _DEBUG fuel hInstance nCmdShow
                   (config0 w) G eq_refl))
      as (new & newh & _ & _ & _ & _ & HQ).
    exact HQ.
  - destruct (hoare_run (state0 w)
                (@Window_WinMain_goes_on W api good Hh fuel hInstance nCmdShow
                   (config0 w) G eq_refl))
      as (new & newh & _ & _ & _ & _ & HQ).
    exact HQ.
Qed.

Lemma WinMain_goes_on_until_quit_or_failure_witness :
  still_running 3
    (Triangle.WinMain (Sim.api (Sim.healthy true)) false 3 1 1 (state0 Sim.boot)) /\
  still_running 3
    (Window.WinMain (Sim.api (Sim.healthy true)) 3 1 1 (state0 Sim.boot)).
Proof.
  apply (@WinMain_goes_on_until_quit_or_failure Sim.world (Sim.api (Sim.healthy true))
           (fun w => Sim.quit_posted w = false) false 3 1 1 Sim.boot).
  - apply sim_healthy.
  - reflexivity.
Defined.

(** ** The pipeline of the triangle *)

Lemma Triangle_InitD3D12_builds {W} (api : forall c : call, W -> ret c * W)
    (_DEBUG : bool) (hwnd : handle) (c : config W) :
  hoare anything (Triangle.InitD3D12 api _DEBUG hwnd) c
    (fun o c' new => o = Normal tt -> pipeline_built _DEBUG (cg c') new).
Proof.
  destruct c as [g w p n]. unfold Triangle.InitD3D12. hsteps.
  all: unfold anything; trivial; try discriminate.
  all: intros _; units; unfold pipeline_built.
  all: lazymatch goal with
       | |- exists pre queries post a, ?l = _ /\ _ =>
           exists (firstn 18 l), (firstn 2 (skipn 19 l)), (skipn 29 l);
           eexists (Build_pipeline_answers (_, _, _) _ _ (_, _) (_, _, _) (_, _, _)
                      _ _ _ _ (_, _))
       end.
  all: unfold pipeline_calls, pipeline_checks, signature_queries, triangle_pso_desc,
         compile_flags.
  all: cbn [firstn skipn app p_serialize p_pBlob p_size p_rootSig p_vs p_ps p_vsPtr
            p_vsLen p_psPtr p_psLen p_pso fst snd List.length
            g_device g_rootSig g_pipelineState].
  all: destruct _DEBUG; cbn [app].
  all: split; [ reflexivity | ].
  all: repeat split; try eassumption; try reflexivity.
  all: left; reflexivity.
Qed.

(** X14.  In the triangle program and in any world, an [InitD3D12] that
    returns normally has built the pipeline between the 18 calls it shares
    with dx12window.cpp and the 5 calls that fill the vertex buffer, so: it
    serialises a version-1 root signature with no parameters that allows the
    input-assembler layout, and creates [g_rootSig] on the device from the
    pointer and size of the serialised blob; it compiles the vertex shader as
    "vs_5_0" and then the pixel shader as "ps_5_0", both with entry point
    "main"; and it creates [g_pipelineState] with that root signature, the
    byte code of the two shaders, the input layout POSITION (three floats at
    offset 0) and COLOR (four floats at offset 12), one R8G8B8A8_UNORM render
    target, triangle topology, sample mask [UINT_MAX] and sample count 1.
    Every result was a success. *)
Theorem Triangle_InitD3D12_builds_the_pipeline
    (W : Type) (api : forall c : call, W -> ret c * W) (_DEBUG : bool)
    (hwnd : handle) (s s' : state W) :
  Triangle.InitD3D12 api _DEBUG hwnd s = (Normal tt, s') ->
  exists new, trace s' = trace s ++ new /\ pipeline_built _DEBUG (cg (cur s')) new.
Proof.
  intros H.
  destruct (hoare_run s (Triangle_InitD3D12_builds api _DEBUG hwnd (cur s)))
    as (new & newh & Et & _ & _ & _ & HQ).
  rewrite H in Et, HQ. cbn [fst snd] in Et, HQ. eauto.
Qed.

Lemma Triangle_InitD3D12_builds_the_pipeline_witness :
  exists new,
    trace (snd (Triangle.InitD3D12 (Sim.api (Sim.healthy true)) false Sim.hwnd_main
                  (state0 Sim.boot))) = trace (state0 Sim.boot) ++ new /\
    pipeline_built false
      (cg (cur (snd (Triangle.InitD3D12 (Sim.api (Sim.healthy true)) false
                       Sim.hwnd_main (state0 Sim.boot)))))
      new.
Proof.
  apply (@Triangle_InitD3D12_builds_the_pipeline Sim.world (Sim.api (Sim.healthy true))
           false Sim.hwnd_main (state0 Sim.boot)
           (snd (Triangle.InitD3D12 (Sim.api (Sim.healthy true)) false Sim.hwnd_main
                   (state0 Sim.boot)))).
  vm_compute. reflexivity.
Defined.

(** ** The GPU between frames *)

Section GpuIdle.
Context {W : Type}.
Variable api : forall c : call, W -> ret c * W.
Variable O : gpu W.
Hypothesis Hobeys : obeys api O.

(** What the contract says of the call just made, in terms of the new
    world only. *)
Ltac law E :=
  match type of E with
  | api ?cl ?w = (?r, ?w') =>
      let L := fresh "L" in
      pose proof (api_obeys Hobeys cl w) as L;
      rewrite E in L; cbn [api_step fst snd cw] in L; unfold fence_kept in L;
      clear E;
      try match type of L with
          | context [if FAILED ?x then _ else _] => destruct (FAILED x) eqn:?
          end;
      decompose [and] L; clear L;
      repeat match goal with
             | Heq : ?f O w' = ?f O w |- _ => rewrite <- Heq in *; clear Heq
             end;
      try match goal with
          | Hold : fence_completed O w <= fence_signaled O _ |- _ => clear Hold
          end;
      pose proof (fence_order Hobeys w');
      lazymatch goal with
      | _ : 0 <= backbuffer O w' < 2 |- _ => idtac
      | _ => pose proof (backbuffer_range Hobeys w')
      end
  end.

Ltac inv :=
  unfold sync_inv, signal_inv, run_inv, counter_inv, fence_inv, index_inv, event_inv,
    unwrapped, NULL, ended, after_call, after_write, after_enter, begun in *;
  cbn [cg cw cphase cframe g_fence g_fenceValue g_frameIndex g_fenceEvent
       set_g_device set_g_swapChain set_g_commandQueue set_g_commandAllocator
       set_g_commandList set_g_rtvHeap set_g_fence set_g_fenceValue set_g_fenceEvent
       set_g_renderTargets set_g_frameIndex set_g_rootSig set_g_pipelineState
       set_g_vertexBuffer set_g_vbView globals0] in *;
  unfold NULL in *;
  repeat match goal with
         | H : (_ =? _) = false |- _ => apply Z.eqb_neq in H
         | H : (_ =? _) = true |- _ => apply Z.eqb_eq in H
         | H : (_ <? _) = false |- _ => apply Z.ltb_ge in H
         | H : (_ <? _) = true |- _ => apply Z.ltb_lt in H
         end.

Ltac inv_in H :=
  unfold sync_inv, signal_inv, run_inv, counter_inv, fence_inv, index_inv, event_inv,
    unwrapped, NULL in H;
  cbn [cg cw cphase cframe g_fence g_fenceValue g_frameIndex g_fenceEvent] in H.

Ltac inv_solve :=
  try congruence;
  inv;
  try (let X := fresh in intros X; discriminate X);
  repeat split; intros; try discriminate;
  unfold UINT64_wrap;
  rewrite ?Z.mod_small by lia;
  try lia.

Lemma Triangle_Render_syncs : frame_syncs O (Triangle.Render api).
Proof.
  intros c Hp Hc. destruct c as [g w p n]. cbn in Hp. subst p.
  pose proof (fence_order Hobeys w). pose proof (backbuffer_range Hobeys w).
  inv_in Hc. unfold Triangle.Render.
  repeat (hstep law).
  all: inv_solve.
Qed.

Lemma Window_Render_syncs : frame_syncs O (Window.Render api).
Proof.
  intros c Hp Hc. destruct c as [g w p n]. cbn in Hp. subst p.
  pose proof (fence_order Hobeys w). pose proof (backbuffer_range Hobeys w).
  inv_in Hc. unfold Window.Render.
  repeat (hstep law).
  all: inv_solve.
Qed.

Lemma pump_syncs (fuel : nat) (c : config W) :
  cphase c = Idle -> sync_inv O c ->
  hoare (sync_inv O) (Host.pump api fuel) c
    (fun o c' _ => forall b, o = Normal b ->
       cphase c' = Idle /\ sync_inv O c' /\ cframe c' = cframe c).
Proof.
  revert c. induction fuel as [|fuel IH]; intros c Hp Hc.
  - cbn. apply hoare_out_of_fuel. discriminate.
  - destruct c as [g w p n]. cbn in Hp. subst p.
    pose proof (fence_order Hobeys w). pose proof (backbuffer_range Hobeys w).
    inv_in Hc. cbn [Host.pump].
    repeat (hstep law).
    all: try (eapply hoare_conseq;
              [ apply IH | cbn; intros ? ? ? HQ ? ->; apply (HQ _ eq_refl) ]).
    all: cbn [cphase]; inv_solve.
Qed.

Lemma Window_InitD3D12_syncs : init_syncs O (Window.InitD3D12 api).
Proof.
  intros hwnd c Hp Hn Hf Hv. destruct c as [g w p n]. cbn in Hp, Hn, Hf, Hv. subst p n.
  unfold Window.InitD3D12.
  repeat (hstep law).
  all: inv_solve.
Qed.

Lemma Triangle_InitD3D12_syncs _DEBUG : init_syncs O (Triangle.InitD3D12 api _DEBUG).
Proof.
  intros hwnd c Hp Hn Hf Hv. destruct c as [g w p n]. cbn in Hp, Hn, Hf, Hv. subst p n.
  unfold Triangle.InitD3D12.
  repeat (hstep law).
  all: inv_solve.
Qed.

Section Whole.
Variable InitD3D12 : handle -> M (W := W) unit.
Variable Render : M (W := W) unit.
Hypothesis HInit : init_syncs O InitD3D12.
Hypothesis HRender : frame_syncs O Render.

Lemma main_loop_syncs (fuel : nat) (c : config W) :
  cphase c = Idle -> sync_inv O c ->
  hoare (sync_inv O) (Host.main_loop api Render fuel) c
    (fun o c' _ => o = Normal tt -> cphase c' = Idle /\ sync_inv O c').
Proof.
  revert c. induction fuel as [|fuel IH]; intros c Hp Hc.
  - cbn. apply hoare_out_of_fuel. discriminate.
  - cbn [Host.main_loop].
    apply hoare_bind. eapply hoare_conseq; [ apply pump_syncs; assumption | ].
    cbn beta. intros [b| |] c1 _ HQ; try discriminate.
    destruct (HQ _ eq_refl) as (Hp1 & Hc1 & _). clear HQ.
    destruct b.
    + apply hoare_ret. auto.
    + apply hoare_bind, hoare_begin_frame. split.
      * clear - Hp1 Hc1. destruct c1 as [g w p n]. cbn in Hp1. subst p.
        unfold begun. inv_solve.
      * apply hoare_bind. eapply hoare_conseq; [ apply HRender; assumption | ].
        cbn beta. intros [[]| |] c2 _ HQ; try discriminate.
        destruct (HQ eq_refl) as [Hc2 _].
        apply hoare_bind, hoare_enter. split; [ exact Hc2 | ].
        eapply hoare_conseq; [ apply IH; [ reflexivity | exact Hc2 ] | ].
        cbn beta. auto.
Qed.

Lemma WinMain_rest_syncs (fuel : nat) (hwnd : handle) (w : W) :
  hoare (sync_inv O) (Host.WinMain_rest api Render InitD3D12 fuel hwnd)
    {| cg := globals0; cw := w; cphase := Startup; cframe := 0 |}
    (fun _ _ _ => True).
Proof.
  unfold Host.WinMain_rest.
  apply hoare_bind, hoare_enter. split; [ inv_solve | ].
  apply hoare_bind. eapply hoare_conseq; [ apply HInit; reflexivity | ].
  cbn beta. intros [[]| |] c1 _ HQ; trivial.
  specialize (HQ eq_refl).
  apply hoare_bind, hoare_enter. split; [ exact HQ | ].
  apply hoare_bind. eapply hoare_conseq;
    [ apply main_loop_syncs; [ reflexivity | exact HQ ] | ].
  cbn beta. intros [[]| |] c2 _ HQ2; trivial.
  destruct (HQ2 eq_refl) as [Hp2 Hc2]. clear HQ2.
  destruct c2 as [g2 w2 p2 n2]. cbn in Hp2. subst p2. inv_in Hc2.
  repeat (hstep law).
  all: inv_solve.
Qed.
End Whole.

Lemma sync_inv_config0 (w : W) : sync_inv O (config0 w).
Proof.
  split; [ apply run_inv_config0 | ].
  unfold signal_inv, config0. cbn [cg globals0 g_fence]. congruence.
Qed.

Lemma Triangle_WinMain_syncs _DEBUG fuel hInstance nCmdShow (w : W) :
  Forall (sync_inv O)
    (hist (snd (Triangle.WinMain api _DEBUG fuel hInstance nCmdShow (state0 w)))).
Proof.
  destruct (@hoare_run W (sync_inv O) Z
              (Triangle.WinMain api _DEBUG fuel hInstance nCmdShow) (state0 w)
              (fun _ _ _ => True)) as (new & newh & _ & Eh & HI & _).
  - unfold Triangle.WinMain, state0, config0. cbn [cur].
    repeat (hstep ltac:(fun E => clear E)).
    all: try exact Logic.I.
    all: try (eapply hoare_conseq;
              [ eapply WinMain_rest_syncs;
                [ apply Triangle_InitD3D12_syncs | apply Triangle_Render_syncs ]
              | trivial ]).
    all: inv_solve.
  - rewrite Eh. apply Forall_app. split; [ | exact HI ].
    constructor; [ apply sync_inv_config0 | constructor ].
Qed.

Lemma Window_WinMain_syncs fuel hInstance nCmdShow (w : W) :
  Forall (sync_inv O)
    (hist (snd (Window.WinMain api fuel hInstance nCmdShow (state0 w)))).
Proof.
  destruct (@hoare_run W (sync_inv O) Z
              (Window.WinMain api fuel hInstance nCmdShow) (state0 w)
              (fun _ _ _ => True)) as (new & newh & _ & Eh & HI & _).
  - unfold Window.WinMain, state0, config0. cbn [cur].
    repeat (hstep ltac:(fun E => clear E)).
    all: try exact Logic.I.
    all: try (eapply hoare_conseq;
              [ eapply WinMain_rest_syncs;
                [ apply Window_InitD3D12_syncs | apply Window_Render_syncs ]
              | trivial ]).
    all: inv_solve.
  - rewrite Eh. apply Forall_app. split; [ | exact HI ].
    constructor; [ apply sync_inv_config0 | constructor ].
Qed.
End GpuIdle.

(** X15.  In both programs, in any world that keeps the contract of the API,
    and as long as fewer than 2^64 - 1 frames were started: whenever the
    program is between two frames, with [n] frames begun, the last value
    signalled on the fence is [n] and the fence has completed [n].  So when
    [Render] resets the command allocator and the command list, the GPU has
    finished every command list that was submitted: nothing is in flight. *)
Theorem gpu_is_idle_between_frames
    (W : Type) (api : forall c : call, W -> ret c * W) (O : gpu W)
    (Hobeys : obeys api O)
    (_DEBUG : bool) (fuel : nat) (hInstance : handle) (nCmdShow : Z) (w : W)
    (c : config W) :
  In c (hist (snd (Triangle.WinMain api _DEBUG fuel hInstance nCmdShow (state0 w)))) \/
  In c (hist (snd (Window.WinMain api fuel hInstance nCmdShow (state0 w)))) ->
  Z.of_nat (cframe c) < 2 ^ 64 - 1 ->
  cphase c = Idle -> g_fence (cg c) <> NULL ->
  gpu_idle O c.
Proof.
  intros Hin Hn Hp Hg.
  assert (Hc : sync_inv O c).
  { destruct Hin as [Hin | Hin].
    - exact (proj1 (Forall_forall _ _)
               (Triangle_WinMain_syncs Hobeys _DEBUG fuel hInstance nCmdShow w) c Hin).
    - exact (proj1 (Forall_forall _ _)
               (Window_WinMain_syncs Hobeys fuel hInstance nCmdShow w) c Hin). }
  destruct Hc as [(_ & Hf & _ & _) Hs].
  unfold fence_inv, signal_inv, unwrapped in *.
  destruct (Hf Hg Hn) as (H1 & H2 & H3). specialize (Hs Hg Hn).
  rewrite Hp in H3. unfold gpu_idle. lia.
Qed.

Lemma gpu_is_idle_between_frames_witness :
  gpu_idle Sim.obs
    (cur (snd (Triangle.WinMain (Sim.api (Sim.healthy false)) false 2 1 1
                 (state0 Sim.boot)))).
Proof.
  apply (@gpu_is_idle_between_frames Sim.world (Sim.api (Sim.healthy false)) Sim.obs
           (sim_obeys (Sim.healthy false)) false 2 1 1 Sim.boot
           (cur (snd (Triangle.WinMain (Sim.api (Sim.healthy false)) false 2 1 1
                        (state0 Sim.boot))))).
  - left. apply Triangle_cur_in_hist.
  - vm_compute. reflexivity.
  - vm_compute. reflexivity.
  - vm_compute. discriminate.
Defined.

(** ** The exceptions that end a run *)

Section Throws.
Context {W : Type}.
Variable api : forall c : call, W -> ret c * W.

Lemma Triangle_Render_throws : frame_throws (Triangle.Render api).
Proof.
  intros c. eapply hoare_conseq; [ apply Triangle_Render_stops | ].
  cbn beta. intros [[]| what |] c' new H; cbn in H; try contradiction.
  - split; discriminate.
  - split; [ discriminate | ]. intros ? E. inversion E; subst. apply H.
Qed.

Lemma Window_Render_throws : frame_throws (Window.Render api).
Proof.
  intros c. eapply hoare_conseq; [ apply Window_Render_stops | ].
  cbn beta. intros [[]| what |] c' new H; cbn in H; try contradiction.
  - split; discriminate.
  - split; [ discriminate | ]. intros ? E. inversion E; subst. apply H.
Qed.

Lemma Triangle_InitD3D12_throws _DEBUG :
  init_throws triangle_init_errors (Triangle.InitD3D12 api _DEBUG).
Proof.
  intros hwnd c. eapply hoare_conseq; [ apply Triangle_InitD3D12_ends | ].
  cbn beta. intros [[]| what |] c' new H; cbn in H; try contradiction.
  - split; discriminate.
  - split; [ discriminate | ]. intros ? E. inversion E; subst. apply H.
Qed.

Lemma Window_InitD3D12_throws :
  init_throws window_init_errors (Window.InitD3D12 api).
Proof.
  intros hwnd c. eapply hoare_conseq; [ apply Window_InitD3D12_ends | ].
  cbn beta. intros [[]| what |] c' new H; cbn in H; try contradiction.
  - split; discriminate.
  - split; [ discriminate | ]. intros ? E. inversion E; subst. apply H.
Qed.

Section Whole.
Variable msgs : list string.
Hypothesis Hmsgs : In "HRESULT failed"%string msgs.
Variable InitD3D12 : handle -> M (W := W) unit.
Variable Render : M (W := W) unit.
Hypothesis HInit : init_throws msgs InitD3D12.
Hypothesis HRender : frame_throws Render.

Lemma main_loop_throws (fuel : nat) (c : config W) :
  hoare anything (Host.main_loop api Render fuel) c
    (fun o _ _ => forall what, o = Thrown what -> what = "HRESULT failed"%string).
Proof.
  revert c. induction fuel as [|fuel IH]; intros c.
  - cbn. apply hoare_out_of_fuel. discriminate.
  - cbn [Host.main_loop].
    apply hoare_bind. eapply hoare_conseq; [ apply pump_pumping | ].
    cbn beta. intros o c1 new1 [Hp _]. apply pumping_host in Hp.
    destruct Hp as [Ht _]. destruct o as [[|]| what |].
    + apply hoare_ret. discriminate.
    + apply hoare_bind, hoare_begin_frame. split; [ exact Logic.I | ].
      apply hoare_bind. eapply hoare_conseq; [ apply HRender | ].
      cbn beta. intros [[]| what |] c2 new2 [Hf Hr].
      * apply hoare_bind, hoare_enter. split; [ exact Logic.I | ].
        eapply hoare_conseq; [ apply IH | ]. cbn beta. auto.
      * exact Hr.
      * now contradiction Hf.
    + now contradiction (Ht what).
    + discriminate.
Qed.

Lemma WinMain_rest_throws (fuel : nat) (hwnd : handle) (c : config W) :
  hoare anything (Host.WinMain_rest api Render InitD3D12 fuel hwnd) c
    (fun o _ _ => forall what, o = Thrown what -> In what msgs).
Proof.
  unfold Host.WinMain_rest.
  apply hoare_bind, hoare_enter. split; [ exact Logic.I | ].
  apply hoare_bind. eapply hoare_conseq; [ apply HInit | ].
  cbn beta. intros [[]| what |] c1 new1 [Hf H1].
  - apply hoare_bind, hoare_enter. split; [ exact Logic.I | ].
    apply hoare_bind. eapply hoare_conseq; [ apply main_loop_throws | ].
    cbn beta. intros [[]| what |] c2 new2 H2.
    + destruct c2 as [g2 w2 p2 n2]. hsteps. all: try exact Logic.I. discriminate.
    + intros ? E. inversion E; subst. rewrite (H2 _ eq_refl). exact Hmsgs.
    + discriminate.
  - intros ? E. inversion E; subst. now apply H1.
  - now contradiction Hf.
Qed.
End Whole.

Lemma Triangle_WinMain_throws _DEBUG fuel hInstance nCmdShow (c : config W) :
  hoare anything (Triangle.WinMain api _DEBUG fuel hInstance nCmdShow) c
    (fun o _ _ => forall what, o = Thrown what -> In what triangle_init_errors).
Proof.
  destruct c as [g w p n]. unfold Triangle.WinMain. hsteps.
  all: try exact Logic.I.
  eapply hoare_conseq.
  - eapply WinMain_rest_throws;
      [ | apply Triangle_InitD3D12_throws | apply Triangle_Render_throws ].
    now left.
  - cbn beta. intros o c' new H. exact H.
Qed.

Lemma Window_WinMain_throws fuel hInstance nCmdShow (c : config W) :
  hoare anything (Window.WinMain api fuel hInstance nCmdShow) c
    (fun o _ _ => forall what, o = Thrown what -> In what window_init_errors).
Proof.
  destruct c as [g w p n]. unfold Window.WinMain. hsteps.
  all: try exact Logic.I.
  eapply hoare_conseq.
  - eapply WinMain_rest_throws;
      [ | apply Window_InitD3D12_throws | apply Window_Render_throws ].
    now left.
  - cbn beta. intros o c' new H. exact H.
Qed.
End Throws.

(** X16.  In any world, an exception that leaves [WinMain] (none is caught)
    carries one of the messages that [InitD3D12] and [Render] throw: in
    dx12window.cpp "HRESULT failed" or "Failed to create fence event"; in
    main.cpp those two, "Failed to serialize root signature" or "Shader
    compilation failed".  The window set-up, the message loop, [WindowProc]
    and the clean-up throw nothing. *)
Theorem WinMain_throws_only_what_InitD3D12_and_Render_throw
    (W : Type) (api : forall c : call, W -> ret c * W) (_DEBUG : bool)
    (fuel : nat) (hInstance : handle) (nCmdShow : Z) (s : state W) (what : string) :
  (fst (Triangle.WinMain api _DEBUG fuel hInstance nCmdShow s) = Thrown what ->
   In what triangle_init_errors) /\
  (fst (Window.WinMain api fuel hInstance nCmdShow s) = Thrown what ->
   In what window_init_errors).
Proof.
  split.
  - destruct (hoare_run s
                (Triangle_WinMain_throws api _DEBUG fuel hInstance nCmdShow (cur s)))
      as (new & newh & _ & _ & _ & _ & HQ).
    apply HQ.
  - destruct (hoare_run s (Window_WinMain_throws api fuel hInstance nCmdShow (cur s)))
      as (new & newh & _ & _ & _ & _ & HQ).
    apply HQ.
Qed.

(** ** The fence event *)

Lemma event_handles_app (l1 l2 : list event) :
  event_handles (l1 ++ l2) = event_handles l1 ++ event_handles l2.
Proof. apply flat_map_app. Qed.

Lemma pumping_handles (o : outcome bool) (l : list event) :
  pumping o l -> event_handles l = [].
Proof.
  induction 1 as [msg | msg evs Hq Hr | msg evs o rest Hq Hr Hp IH | ];
    try reflexivity.
  - destruct Hr as (t & proc & -> & H).
    destruct (msg_hwnd msg =? NULL); [ now subst proc | ].
    destruct (message msg =? WM_DESTROY); [ now subst proc | ].
    now destruct H as [r ->].
  - destruct Hr as (t & proc & -> & H).
    change (event_handles (?p :: (?a :: ?b :: proc) ++ rest))
      with (event_handles (proc ++ rest)).
    rewrite event_handles_app, IH, app_nil_r.
    destruct (msg_hwnd msg =? NULL); [ now subst proc | ].
    destruct (message msg =? WM_DESTROY); [ now subst proc | ].
    now destruct H as [r ->].
Qed.

Section FenceEvent.
Context {W : Type}.
Variable api : forall c : call, W -> ret c * W.

Ltac handles_solve :=
  unfold anything; trivial; try discriminate;
  cbn [event_handles flat_map call_of app g_fenceEvent];
  repeat match goal with
         | H : (_ =? _) = false |- _ => apply Z.eqb_neq in H
         end;
  repeat split; try discriminate; try reflexivity; try assumption;
  try (intros _; split; [ | assumption ]);
  try solve [ cbn [In]; repeat first [ left; reflexivity | right ] ];
  try (repeat constructor).

Lemma Triangle_Render_uses_event : frame_uses_event (Triangle.Render api).
Proof. intros [g w p n]. unfold Triangle.Render. hsteps. all: handles_solve. Qed.

Lemma Window_Render_uses_event : frame_uses_event (Window.Render api).
Proof. intros [g w p n]. unfold Window.Render. hsteps. all: handles_solve. Qed.

Lemma Triangle_InitD3D12_creates_event _DEBUG :
  init_creates_event (Triangle.InitD3D12 api _DEBUG).
Proof.
  intros hwnd [g w p n]. unfold Triangle.InitD3D12. hsteps. all: handles_solve.
Qed.

Lemma Window_InitD3D12_creates_event : init_creates_event (Window.InitD3D12 api).
Proof.
  intros hwnd [g w p n]. unfold Window.InitD3D12. hsteps. all: handles_solve.
Qed.

Section Whole.
Variable InitD3D12 : handle -> M (W := W) unit.
Variable Render : M (W := W) unit.
Hypothesis HInit : init_creates_event InitD3D12.
Hypothesis HRender : frame_uses_event Render.

Lemma main_loop_uses_event (fuel : nat) (c : config W) :
  hoare anything (Host.main_loop api Render fuel) c
    (fun _ c' new =>
       Forall (eq (g_fenceEvent (cg c))) (event_handles new) /\
       g_fenceEvent (cg c') = g_fenceEvent (cg c)).
Proof.
  revert c. induction fuel as [|fuel IH]; intros c.
  - cbn. apply hoare_out_of_fuel. split; [ constructor | reflexivity ].
  - cbn [Host.main_loop].
    apply hoare_bind. eapply hoare_conseq; [ apply pump_pumping | ].
    cbn beta. intros o c1 new1 [Hp Hg]. pose proof (pumping_host Hp) as [Ht _].
    apply pumping_handles in Hp.
    destruct o as [[|]| what |].
    + apply hoare_ret. rewrite app_nil_r, Hp, Hg. split; [ constructor | reflexivity ].
    + apply hoare_bind, hoare_begin_frame. split; [ exact Logic.I | ].
      apply hoare_bind. eapply hoare_conseq; [ apply HRender | ].
      cbn beta. unfold begun. cbn [cg]. rewrite Hg.
      intros [[]| what |] c2 new2 (Hf & Hr & Hv).
      * apply hoare_bind, hoare_enter. split; [ exact Logic.I | ].
        eapply hoare_conseq; [ apply IH | ].
        cbn beta. unfold after_enter. cbn [cg]. rewrite Hv. intros o c3 new3 [H3 Hv3].
        split; [ | exact Hv3 ].
        cbn [app]. rewrite !event_handles_app, Hp. cbn [app].
        apply Forall_app. split; assumption.
      * split; [ | exact Hv ].
        cbn [app]. rewrite !event_handles_app, Hp. exact Hr.
      * now contradiction Hf.
    + now contradiction (Ht what).
    + rewrite Hp, Hg. split; [ constructor | reflexivity ].
Qed.

Lemma WinMain_rest_uses_event (fuel : nat) (hwnd : handle) (c : config W) :
  hoare anything (Host.WinMain_rest api Render InitD3D12 fuel hwnd) c
    (fun _ _ new => uses_created_events new).
Proof.
  unfold Host.WinMain_rest.
  apply hoare_bind, hoare_enter. split; [ exact Logic.I | ].
  apply hoare_bind. eapply hoare_conseq; [ apply HInit | ].
  cbn beta. intros [[]| what |] c1 new1 (Hf & H1 & Hv).
  - destruct (Hv eq_refl) as [Hin Hnn]. clear Hv.
    apply hoare_bind, hoare_enter. split; [ exact Logic.I | ].
    apply hoare_bind. eapply hoare_conseq; [ apply main_loop_uses_event | ].
    cbn beta. unfold after_enter. cbn [cg].
    assert (Huse : forall new2 tail,
               Forall (eq (g_fenceEvent (cg c1))) (event_handles new2) ->
               Forall (eq (g_fenceEvent (cg c1))) (event_handles tail) ->
               uses_created_events (new1 ++ new2 ++ tail)).
    { intros new2 tail F2 Ft h Hh.
      rewrite !event_handles_app, H1 in Hh. cbn [app] in Hh.
      apply in_app_or in Hh.
      assert (E : g_fenceEvent (cg c1) = h).
      { destruct Hh as [Hh | Hh];
          [ exact (proj1 (Forall_forall _ _) F2 h Hh)
          | exact (proj1 (Forall_forall _ _) Ft h Hh) ]. }
      subst h. split; [ | exact Hnn ]. apply in_or_app. now left. }
    intros [[]| what |] c2 new2 [H2 Hv2].
    + destruct c2 as [g2 w2 p2 n2]. cbn [cg] in Hv2. hsteps. all: try exact Logic.I.
      cbn [app]. apply Huse.
      * exact H2.
      * cbn [event_handles flat_map call_of app]. rewrite Hv2. repeat constructor.
    + cbn [app]. rewrite <- (app_nil_r new2). apply Huse; [ exact H2 | constructor ].
    + cbn [app]. rewrite <- (app_nil_r new2). apply Huse; [ exact H2 | constructor ].
  - cbn [app]. intros h Hh. rewrite H1 in Hh. destruct Hh.
  - now contradiction Hf.
Qed.
End Whole.

Lemma uses_created_events_cons (e : event) (t : list event) :
  event_handles [e] = [] -> uses_created_events t -> uses_created_events (e :: t).
Proof.
  intros He Ht h Hh. change (e :: t) with ([e] ++ t) in Hh.
  rewrite event_handles_app, He in Hh. destruct (Ht h Hh) as [H1 H2].
  split; [ now right | exact H2 ].
Qed.

Lemma Triangle_WinMain_uses_event _DEBUG fuel hInstance nCmdShow (c : config W) :
  hoare anything (Triangle.WinMain api _DEBUG fuel hInstance nCmdShow) c
    (fun _ _ new => uses_created_events new).
Proof.
  destruct c as [g w p n]. unfold Triangle.WinMain. hsteps.
  all: try exact Logic.I.
  eapply hoare_conseq.
  - eapply WinMain_rest_uses_event;
      [ apply Triangle_InitD3D12_creates_event | apply Triangle_Render_uses_event ].
  - cbn beta. intros o c' new H.
    repeat (apply uses_created_events_cons; [ reflexivity | ]). exact H.
Qed.

Lemma Window_WinMain_uses_event fuel hInstance nCmdShow (c : config W) :
  hoare anything (Window.WinMain api fuel hInstance nCmdShow) c
    (fun _ _ new => uses_created_events new).
Proof.
  destruct c as [g w p n]. unfold Window.WinMain. hsteps.
  all: try exact Logic.I.
  eapply hoare_conseq.
  - eapply WinMain_rest_uses_event;
      [ apply Window_InitD3D12_creates_event | apply Window_Render_uses_event ].
  - cbn beta. intros o c' new H.
    repeat (apply uses_created_events_cons; [ reflexivity | ]). exact H.
Qed.
End FenceEvent.

(** X17.  In both programs and in any world, every handle that a run of
    [WinMain] registers with the fence, waits on or closes is the handle that
    [CreateEvent] returned in [InitD3D12], and is not null: the program never
    waits on, or closes, a null handle or one it did not create. *)
Theorem only_the_created_event_is_used
    (W : Type) (api : forall c : call, W -> ret c * W) (_DEBUG : bool)
    (fuel : nat) (hInstance : handle) (nCmdShow : Z) (w : W) :
  uses_created_events
    (trace (snd (Triangle.WinMain api _DEBUG fuel hInstance nCmdShow (state0 w)))) /\
  uses_created_events
    (trace (snd (Window.WinMain api fuel hInstance nCmdShow (state0 w)))).
Proof.
  split.
  - destruct (hoare_run (state0 w)
                (Triangle_WinMain_uses_event api _DEBUG fuel hInstance nCmdShow (config0 w)))
      as (new & newh & Et & _ & _ & _ & HQ).
    cbn [state0 trace app] in Et. now rewrite Et.
  - destruct (hoare_run (state0 w)
                (Window_WinMain_uses_event api fuel hInstance nCmdShow (config0 w)))
      as (new & newh & Et & _ & _ & _ & HQ).
    cbn [state0 trace app] in Et. now rewrite Et.
Qed.

(** ** The descriptors rendered to *)

Lemma targets_app (l1 l2 : list event) : targets (l1 ++ l2) = targets l1 ++ targets l2.
Proof. apply flat_map_app. Qed.

Lemma pumping_targets (o : outcome bool) (l : list event) :
  pumping o l -> targets l = [].
Proof.
  induction 1 as [msg | msg evs Hq Hr | msg evs o rest Hq Hr Hp IH | ];
    try reflexivity.
  - destruct Hr as (t & proc & -> & H).
    destruct (msg_hwnd msg =? NULL); [ now subst proc | ].
    destruct (message msg =? WM_DESTROY); [ now subst proc | ].
    now destruct H as [r ->].
  - destruct Hr as (t & proc & -> & H).
    change (targets (?p :: (?a :: ?b :: proc) ++ rest)) with (targets (proc ++ rest)).
    rewrite targets_app, IH, app_nil_r.
    destruct (msg_hwnd msg =? NULL); [ now subst proc | ].
    destruct (message msg =? WM_DESTROY); [ now subst proc | ].
    now destruct H as [r ->].
Qed.

Section RenderTargets.
Context {W : Type}.
Variable api : forall c : call, W -> ret c * W.
Variables heapStart rtvSize : Z.
Hypothesis Hsteady : steady_device api heapStart rtvSize.
Hypothesis Hstart : 0 <= heapStart < 2 ^ 64.
Hypothesis Hsize : 0 <= rtvSize < 2 ^ 32.

(** What the device answered to the call just made. *)
Ltac answer E :=
  match type of E with
  | api ?cl ?w = (?r, ?w') =>
      let L := fresh "L" in
      pose proof (Hsteady cl w) as L;
      rewrite E in L; cbn [device_answer fst] in L; clear E;
      try match type of L with
          | True => clear L
          | ?x = _ => subst x
          end
  end.

Lemma frame_handles_2 :
  frame_handles heapStart rtvSize 2 = [heapStart; SIZE_T_wrap (heapStart + rtvSize)].
Proof.
  unfold frame_handles. cbn [seq map Z.of_nat Pos.of_succ_nat].
  rewrite rtv_handle_0 by assumption.
  rewrite <- (rtv_handle_0 rtvSize (h := SIZE_T_wrap (heapStart + rtvSize)))
    by (unfold SIZE_T_wrap; apply Z.mod_pos_bound; lia).
  rewrite (@rtv_handle_step heapStart rtvSize 0) by lia. reflexivity.
Qed.

Lemma rtv_handle_in (index : Z) :
  0 <= index < 2 ->
  In (rtv_handle heapStart index rtvSize) (frame_handles heapStart rtvSize 2).
Proof.
  intros Hi. unfold frame_handles. cbn [seq map Z.of_nat Pos.of_succ_nat In].
  assert (E : index = 0 \/ index = 1) by lia. destruct E as [-> | ->]; auto.
Qed.

Ltac targets_solve :=
  unfold anything; trivial; try discriminate;
  cbn [targets view_handles flat_map call_of app g_frameIndex];
  try reflexivity;
  try (intros _);
  lazymatch goal with
  | |- Forall _ _ =>
      repeat (apply Forall_cons; [ now apply rtv_handle_in | ]); apply Forall_nil
  | |- _ = frame_handles _ _ _ /\ _ =>
      split; [ symmetry; apply frame_handles_2 | assumption ]
  | |- _ <= _ < _ => assumption
  | |- _ => idtac
  end.

Lemma Triangle_Render_targets : frame_targets heapStart rtvSize (Triangle.Render api).
Proof.
  intros [g w p n] Hi. cbn [cg] in Hi. unfold Triangle.Render.
  repeat (hstep answer). all: targets_solve.
Qed.

Lemma Window_Render_targets : frame_targets heapStart rtvSize (Window.Render api).
Proof.
  intros [g w p n] Hi. cbn [cg] in Hi. unfold Window.Render.
  repeat (hstep answer). all: targets_solve.
Qed.

Lemma Triangle_InitD3D12_views _DEBUG :
  init_views heapStart rtvSize (Triangle.InitD3D12 api _DEBUG).
Proof.
  intros hwnd [g w p n]. unfold Triangle.InitD3D12.
  repeat (hstep answer). all: targets_solve.
Qed.

Lemma Window_InitD3D12_views : init_views heapStart rtvSize (Window.InitD3D12 api).
Proof.
  intros hwnd [g w p n]. unfold Window.InitD3D12.
  repeat (hstep answer). all: targets_solve.
Qed.

Section Whole.
Variable InitD3D12 : handle -> M (W := W) unit.
Variable Render : M (W := W) unit.
Hypothesis HInit : init_views heapStart rtvSize InitD3D12.
Hypothesis HRender : frame_targets heapStart rtvSize Render.

Lemma main_loop_targets (fuel : nat) (c : config W) :
  0 <= g_frameIndex (cg c) < 2 ->
  hoare anything (Host.main_loop api Render fuel) c
    (fun _ _ new =>
       Forall (fun x => In x (frame_handles heapStart rtvSize 2)) (targets new)).
Proof.
  revert c. induction fuel as [|fuel IH]; intros c Hi.
  - cbn. apply hoare_out_of_fuel. constructor.
  - cbn [Host.main_loop].
    apply hoare_bind. eapply hoare_conseq; [ apply pump_pumping | ].
    cbn beta. intros o c1 new1 [Hp Hg]. pose proof (pumping_host Hp) as [Ht _].
    apply pumping_targets in Hp.
    destruct o as [[|]| what |].
    + apply hoare_ret. rewrite app_nil_r, Hp. constructor.
    + apply hoare_bind, hoare_begin_frame. split; [ exact Logic.I | ].
      apply hoare_bind. eapply hoare_conseq;
        [ apply HRender; unfold begun; cbn [cg]; now rewrite Hg | ].
      cbn beta. intros [[]| what |] c2 new2 (Hf & Hr & Hv).
      * apply hoare_bind, hoare_enter. split; [ exact Logic.I | ].
        eapply hoare_conseq; [ apply IH; exact (Hv eq_refl) | ].
        cbn beta. intros o c3 new3 H3.
        cbn [app]. rewrite !targets_app, Hp. cbn [app].
        apply Forall_app. split; assumption.
      * cbn [app]. rewrite !targets_app, Hp. exact Hr.
      * now contradiction Hf.
    + now contradiction (Ht what).
    + rewrite Hp. constructor.
Qed.

Lemma WinMain_rest_targets (fuel : nat) (hwnd : handle) (c : config W) :
  hoare anything (Host.WinMain_rest api Render InitD3D12 fuel hwnd) c
    (fun _ _ new => targets_have_views new).
Proof.
  unfold Host.WinMain_rest.
  apply hoare_bind, hoare_enter. split; [ exact Logic.I | ].
  apply hoare_bind. eapply hoare_conseq; [ apply HInit | ].
  cbn beta. intros [[]| what |] c1 new1 (Hf & H1 & Hv).
  - destruct (Hv eq_refl) as [Hviews Hi]. clear Hv.
    apply hoare_bind, hoare_enter. split; [ exact Logic.I | ].
    apply hoare_bind. eapply hoare_conseq; [ apply main_loop_targets; exact Hi | ].
    cbn beta.
    assert (Huse : forall new2 tail,
               Forall (fun x => In x (frame_handles heapStart rtvSize 2)) (targets new2) ->
               targets tail = [] ->
               targets_have_views (new1 ++ new2 ++ tail)).
    { intros new2 tail F2 Ft x Hx.
      rewrite !targets_app, H1, Ft, app_nil_r in Hx. cbn [app] in Hx.
      rewrite view_handles_app, Hviews. apply in_or_app. left.
      exact (proj1 (Forall_forall _ _) F2 x Hx). }
    intros [[]| what |] c2 new2 H2.
    + destruct c2 as [g2 w2 p2 n2]. hsteps. all: try exact Logic.I.
      cbn [app]. apply Huse; [ exact H2 | reflexivity ].
    + cbn [app]. rewrite <- (app_nil_r new2). apply Huse; [ exact H2 | reflexivity ].
    + cbn [app]. rewrite <- (app_nil_r new2). apply Huse; [ exact H2 | reflexivity ].
  - cbn [app]. intros x Hx. rewrite H1 in Hx. destruct Hx.
  - now contradiction Hf.
Qed.
End Whole.

Lemma targets_have_views_cons (e : event) (t : list event) :
  targets [e] = [] -> targets_have_views t -> targets_have_views (e :: t).
Proof.
  intros He Ht x Hx. change (e :: t) with ([e] ++ t) in *.
  rewrite targets_app, He in Hx. rewrite view_handles_app.
  apply in_or_app. right. now apply Ht.
Qed.

Lemma Triangle_WinMain_targets _DEBUG fuel hInstance nCmdShow (c : config W) :
  hoare anything (Triangle.WinMain api _DEBUG fuel hInstance nCmdShow) c
    (fun _ _ new => targets_have_views new).
Proof.
  destruct c as [g w p n]. unfold Triangle.WinMain. hsteps.
  all: try exact Logic.I.
  eapply hoare_conseq.
  - eapply WinMain_rest_targets;
      [ apply Triangle_InitD3D12_views | apply Triangle_Render_targets ].
  - cbn beta. intros o c' new H.
    repeat (apply targets_have_views_cons; [ reflexivity | ]). exact H.
Qed.

Lemma Window_WinMain_targets fuel hInstance nCmdShow (c : config W) :
  hoare anything (Window.WinMain api fuel hInstance nCmdShow) c
    (fun _ _ new => targets_have_views new).
Proof.
  destruct c as [g w p n]. unfold Window.WinMain. hsteps.
  all: try exact Logic.I.
  eapply hoare_conseq.
  - eapply WinMain_rest_targets;
      [ apply Window_InitD3D12_views | apply Window_Render_targets ].
  - cbn beta. intros o c' new H.
    repeat (apply targets_have_views_cons; [ reflexivity | ]). exact H.
Qed.
End RenderTargets.

(** X18.  In both programs: on a device whose descriptor size and heap
    start do not change, with a swap chain that reports back-buffer index 0
    or 1, every descriptor that a run of [WinMain] binds as render target or
    clears is one at which [InitD3D12] created a render-target view in that
    run.  No frame renders to a descriptor without a view. *)
Theorem every_target_has_a_view
    (W : Type) (api : forall c : call, W -> ret c * W) (heapStart rtvSize : Z)
    (_DEBUG : bool) (fuel : nat) (hInstance : handle) (nCmdShow : Z) (w : W) :
  steady_device api heapStart rtvSize ->
  0 <= heapStart < 2 ^ 64 -> 0 <= rtvSize < 2 ^ 32 ->
  targets_have_views
    (trace (snd (Triangle.WinMain api _DEBUG fuel hInstance nCmdShow (state0 w)))) /\
  targets_have_views
    (trace (snd (Window.WinMain api fuel hInstance nCmdShow (state0 w)))).
Proof.
  intros Hs Hh Hr. split.
  - destruct (hoare_run (state0 w)
                (@Triangle_WinMain_targets W api heapStart rtvSize Hs Hh Hr
                   _DEBUG fuel hInstance nCmdShow (config0 w)))
      as (new & newh & Et & _ & _ & _ & HQ).
    cbn [state0 trace app] in Et. now rewrite Et.
  - destruct (hoare_run (state0 w)
                (@Window_WinMain_targets W api heapStart rtvSize Hs Hh Hr
                   fuel hInstance nCmdShow (config0 w)))
      as (new & newh & Et & _ & _ & _ & HQ).
    cbn [state0 trace app] in Et. now rewrite Et.
Qed.

(** The simulated device is steady. *)
Lemma sim_steady (k : Sim.knobs) : steady_device (Sim.api k) 65536 32.
Proof.
  intros c w. destruct c; cbn -[Z.modulo]; trivial.
  apply Z.mod_pos_bound. lia.
Qed.

Lemma every_target_has_a_view_witness :
  targets_have_views
    (trace (snd (Triangle.WinMain (Sim.api (Sim.healthy true)) false 2 1 1
                   (state0 Sim.boot)))) /\
  targets_have_views
    (trace (snd (Window.WinMain (Sim.api (Sim.healthy true)) 2 1 1 (state0 Sim.boot)))).
Proof.
  apply (@every_target_has_a_view Sim.world (Sim.api (Sim.healthy true)) 65536 32
           false 2 1 1 Sim.boot).
  - apply sim_steady.
  - lia.
  - lia.
Defined.

(** ** The vertices drawn *)

Lemma bound_views_app (l1 l2 : list event) :
  bound_views (l1 ++ l2) = bound_views l1 ++ bound_views l2.
Proof. apply flat_map_app. Qed.

Lemma addresses_app (l1 l2 : list event) :
  addresses (l1 ++ l2) = addresses l1 ++ addresses l2.
Proof. apply flat_map_app. Qed.

Lemma pumping_views (o : outcome bool) (l : list event) :
  pumping o l -> bound_views l = [].
Proof.
  induction 1 as [msg | msg evs Hq Hr | msg evs o rest Hq Hr Hp IH | ];
    try reflexivity.
  - destruct Hr as (t & proc & -> & H).
    destruct (msg_hwnd msg =? NULL); [ now subst proc | ].
    destruct (message msg =? WM_DESTROY); [ now subst proc | ].
    now destruct H as [r ->].
  - destruct Hr as (t & proc & -> & H).
    change (bound_views (?p :: (?a :: ?b :: proc) ++ rest))
      with (bound_views (proc ++ rest)).
    rewrite bound_views_app, IH, app_nil_r.
    destruct (msg_hwnd msg =? NULL); [ now subst proc | ].
    destruct (message msg =? WM_DESTROY); [ now subst proc | ].
    now destruct H as [r ->].
Qed.

Section Vertices.
Context {W : Type}.
Variable api : forall c : call, W -> ret c * W.

Ltac views_solve :=
  unfold anything; trivial; try discriminate;
  cbn [bound_views flat_map call_of app g_vbView];
  try reflexivity;
  try (intros _);
  lazymatch goal with
  | |- Forall _ _ => repeat constructor
  | |- exists address, _ =>
      eexists; split;
      [ cbn [addresses flat_map app In]; repeat first [ left; reflexivity | right ]
      | repeat split ]
  | |- _ => idtac
  end.

Lemma Triangle_Render_binds_view : frame_binds_view (Triangle.Render api).
Proof. intros [g w p n]. unfold Triangle.Render. hsteps. all: views_solve. Qed.

Lemma Triangle_InitD3D12_sets_view _DEBUG :
  init_sets_view (Triangle.InitD3D12 api _DEBUG).
Proof.
  intros hwnd [g w p n]. unfold Triangle.InitD3D12. hsteps. all: views_solve.
Qed.

Section Whole.
Variable InitD3D12 : handle -> M (W := W) unit.
Variable Render : M (W := W) unit.
Hypothesis HInit : init_sets_view InitD3D12.
Hypothesis HRender : frame_binds_view Render.

Lemma main_loop_binds_view (fuel : nat) (c : config W) :
  hoare anything (Host.main_loop api Render fuel) c
    (fun _ _ new => Forall (eq (g_vbView (cg c))) (bound_views new)).
Proof.
  revert c. induction fuel as [|fuel IH]; intros c.
  - cbn. apply hoare_out_of_fuel. constructor.
  - cbn [Host.main_loop].
    apply hoare_bind. eapply hoare_conseq; [ apply pump_pumping | ].
    cbn beta. intros o c1 new1 [Hp Hg]. pose proof (pumping_host Hp) as [Ht _].
    apply pumping_views in Hp.
    destruct o as [[|]| what |].
    + apply hoare_ret. rewrite app_nil_r, Hp. constructor.
    + apply hoare_bind, hoare_begin_frame. split; [ exact Logic.I | ].
      apply hoare_bind. eapply hoare_conseq; [ apply HRender | ].
      cbn beta. unfold begun. cbn [cg]. rewrite Hg.
      intros [[]| what |] c2 new2 (Hf & Hr & Hv).
      * apply hoare_bind, hoare_enter. split; [ exact Logic.I | ].
        eapply hoare_conseq; [ apply IH | ].
        cbn beta. unfold after_enter. cbn [cg]. rewrite Hv. intros o c3 new3 H3.
        cbn [app]. rewrite !bound_views_app, Hp. cbn [app].
        apply Forall_app. split; assumption.
      * cbn [app]. rewrite !bound_views_app, Hp. exact Hr.
      * now contradiction Hf.
    + now contradiction (Ht what).
    + rewrite Hp. constructor.
Qed.

Lemma WinMain_rest_draws (fuel : nat) (hwnd : handle) (c : config W) :
  hoare anything (Host.WinMain_rest api Render InitD3D12 fuel hwnd) c
    (fun _ _ new => draws_the_triangle new).
Proof.
  unfold Host.WinMain_rest.
  apply hoare_bind, hoare_enter. split; [ exact Logic.I | ].
  apply hoare_bind. eapply hoare_conseq; [ apply HInit | ].
  cbn beta. intros [[]| what |] c1 new1 (Hf & H1 & Hv).
  - destruct (Hv eq_refl) as (address & Hin & Hview). clear Hv.
    apply hoare_bind, hoare_enter. split; [ exact Logic.I | ].
    apply hoare_bind. eapply hoare_conseq; [ apply main_loop_binds_view | ].
    cbn beta. unfold after_enter. cbn [cg].
    assert (Huse : forall new2 tail,
               Forall (eq (g_vbView (cg c1))) (bound_views new2) ->
               bound_views tail = [] ->
               draws_the_triangle (new1 ++ new2 ++ tail)).
    { intros new2 tail F2 Ft v Hin'.
      rewrite !bound_views_app, H1, Ft, app_nil_r in Hin'. cbn [app] in Hin'.
      rewrite <- (proj1 (Forall_forall _ _) F2 v Hin').
      exists address. split; [ | exact Hview ].
      rewrite addresses_app. apply in_or_app. now left. }
    intros [[]| what |] c2 new2 H2.
    + destruct c2 as [g2 w2 p2 n2]. hsteps. all: try exact Logic.I.
      cbn [app]. apply Huse; [ exact H2 | reflexivity ].
    + cbn [app]. rewrite <- (app_nil_r new2). apply Huse; [ exact H2 | reflexivity ].
    + cbn [app]. rewrite <- (app_nil_r new2). apply Huse; [ exact H2 | reflexivity ].
  - cbn [app]. intros v Hin. rewrite H1 in Hin. destruct Hin.
  - now contradiction Hf.
Qed.
End Whole.

Lemma draws_the_triangle_cons (e : event) (t : list event) :
  bound_views [e] = [] -> draws_the_triangle t -> draws_the_triangle (e :: t).
Proof.
  intros He Ht v Hin. change (e :: t) with ([e] ++ t) in *.
  rewrite bound_views_app, He in Hin. destruct (Ht v Hin) as (a & Ha & Hv).
  exists a. split; [ | exact Hv ]. rewrite addresses_app. apply in_or_app. now right.
Qed.

Lemma Triangle_WinMain_draws _DEBUG fuel hInstance nCmdShow (c : config W) :
  hoare anything (Triangle.WinMain api _DEBUG fuel hInstance nCmdShow) c
    (fun _ _ new => draws_the_triangle new).
Proof.
  destruct c as [g w p n]. unfold Triangle.WinMain. hsteps.
  all: try exact Logic.I.
  eapply hoare_conseq.
  - eapply WinMain_rest_draws;
      [ apply Triangle_InitD3D12_sets_view | apply Triangle_Render_binds_view ].
  - cbn beta. intros o c' new H.
    repeat (apply draws_the_triangle_cons; [ reflexivity | ]). exact H.
Qed.
End Vertices.

(** X19.  In the triangle program and in any world, every vertex-buffer
    view that a run of [WinMain] binds for drawing is the view that
    [InitD3D12] set up: it is at a GPU address that the vertex buffer
    reported in that run, its stride is 28 bytes and it holds 3 elements.  No frame draws from a view that was not initialised. *)
Theorem every_draw_uses_the_filled_vertex_buffer
    (W : Type) (api : forall c : call, W -> ret c * W) (_DEBUG : bool)
    (fuel : nat) (hInstance : handle) (nCmdShow : Z) (w : W) :
  draws_the_triangle
    (trace (snd (Triangle.WinMain api _DEBUG fuel hInstance nCmdShow (state0 w)))).
Proof.
  destruct (hoare_run (state0 w)
              (Triangle_WinMain_draws api _DEBUG fuel hInstance nCmdShow (config0 w)))
    as (new & newh & Et & _ & _ & _ & HQ).
  cbn [state0 trace app] in Et. now rewrite Et.
Qed.

(* ================================================================== *)
(** * The frame index *)

Lemma rendered_app (l1 l2 : list event) (size start : Z) :
  rendered size start (l1 ++ l2) =
  rendered size start l1 ++
  rendered (fst (reported size start l1)) (snd (reported size start l1)) l2.
Proof.
  revert size start. induction l1 as [|[c r] l1 IH]; intros size start.
  - reflexivity.
  - cbn [app rendered reported]. destruct c; cbn; rewrite ?IH; reflexivity.
Qed.

Lemma renders_to_slots_app (l1 l2 : list event) :
  renders_to_slots l1 -> renders_to_slots l2 -> renders_to_slots (l1 ++ l2).
Proof.
  intros H1 H2 size start. rewrite rendered_app. apply Forall_app. split; auto.
Qed.

Lemma renders_nothing_slots (l : list event) : renders_nothing l -> renders_to_slots l.
Proof. intros H size start. rewrite H. constructor. Qed.

Lemma renders_nothing_app (l1 l2 : list event) :
  renders_nothing l1 -> renders_nothing l2 -> renders_nothing (l1 ++ l2).
Proof.
  intros H1 H2 size start. rewrite rendered_app, H1, H2. reflexivity.
Qed.

Section Slots.
Context {W : Type}.
Variable api : forall c : call, W -> ret c * W.
Variable O : gpu W.
Hypothesis Hobeys : obeys api O.

(** What the contract says of the index that the swap chain reports. *)
Ltac idx E :=
  lazymatch type of E with
  | api (IDXGISwapChain3_GetCurrentBackBufferIndex ?sc) ?w = _ =>
      let L := fresh "L" in
      pose proof (api_obeys Hobeys (IDXGISwapChain3_GetCurrentBackBufferIndex sc) w) as L;
      rewrite E in L; cbn [api_step fst snd] in L;
      destruct L as [L _]; pose proof (backbuffer_range Hobeys w); clear E
  | _ => clear E
  end.

Ltac slots_solve :=
  unfold slot_inv, renders_nothing, renders_to_slots, in_a_slot in *;
  cbn [cg g_frameIndex
       set_g_device set_g_swapChain set_g_commandQueue set_g_commandAllocator
       set_g_commandList set_g_rtvHeap set_g_fence set_g_fenceValue set_g_fenceEvent
       set_g_renderTargets set_g_frameIndex set_g_rootSig set_g_pipelineState
       set_g_vertexBuffer set_g_vbView] in *;
  try lia;
  try (intros ? ?; cbn [rendered app];
       first [ reflexivity
             | repeat (apply Forall_cons;
                       [ refine (ex_intro _ _ (conj _ eq_refl)); assumption | ]);
               apply Forall_nil ]).

Lemma Triangle_Render_slots : frame_slots (Triangle.Render api).
Proof.
  intros [g w p n] Hc. unfold Triangle.Render.
  repeat (hstep idx). all: slots_solve.
Qed.

Lemma Window_Render_slots : frame_slots (Window.Render api).
Proof.
  intros [g w p n] Hc. unfold Window.Render.
  repeat (hstep idx). all: slots_solve.
Qed.

Lemma Window_InitD3D12_slots : init_slots (Window.InitD3D12 api).
Proof.
  intros hwnd [g w p n] Hc. unfold Window.InitD3D12.
  repeat (hstep idx). all: slots_solve.
Qed.

Lemma Triangle_InitD3D12_slots _DEBUG : init_slots (Triangle.InitD3D12 api _DEBUG).
Proof.
  intros hwnd [g w p n] Hc. unfold Triangle.InitD3D12.
  repeat (hstep idx). all: slots_solve.
Qed.

Lemma pump_slots (fuel : nat) (c : config W) :
  slot_inv c ->
  hoare slot_inv (Host.pump api fuel) c
    (fun _ c' new => slot_inv c' /\ renders_nothing new).
Proof.
  revert c. induction fuel as [|fuel IH]; intros [g w p n] Hc.
  - cbn. apply hoare_out_of_fuel. split; [ exact Hc | intros ? ?; reflexivity ].
  - cbn [Host.pump]. repeat (hstep idx).
    all: try (eapply hoare_conseq;
              [ apply IH; exact Hc
              | cbn beta; intros ? ? ? [H1 H2]; split; [ exact H1 | ];
                intros ? ?; cbn [rendered app]; apply H2 ]).
    all: slots_solve.
Qed.

Section Whole.
Variable InitD3D12 : handle -> M (W := W) unit.
Variable Render : M (W := W) unit.
Hypothesis HInit : init_slots InitD3D12.
Hypothesis HRender : frame_slots Render.

Lemma main_loop_slots (fuel : nat) (c : config W) :
  slot_inv c ->
  hoare slot_inv (Host.main_loop api Render fuel) c
    (fun _ c' new => slot_inv c' /\ renders_to_slots new).
Proof.
  revert c. induction fuel as [|fuel IH]; intros c Hc.
  - cbn. apply hoare_out_of_fuel. split; [ exact Hc | intros ? ?; constructor ].
  - cbn [Host.main_loop].
    apply hoare_bind. eapply hoare_conseq; [ apply pump_slots; assumption | ].
    cbn beta. intros [b| what |] c1 new1 [Hc1 Hn1].
    2, 3: split; [ exact Hc1 | now apply renders_nothing_slots ].
    apply renders_nothing_slots in Hn1.
    destruct b.
    + apply hoare_ret. split; [ exact Hc1 | ]. now rewrite app_nil_r.
    + apply hoare_bind, hoare_begin_frame. split; [ exact Hc1 | ].
      apply hoare_bind. eapply hoare_conseq; [ apply HRender; exact Hc1 | ].
      cbn beta. intros [[]| what |] c2 new2 [Hc2 Hn2].
      2, 3: split; [ exact Hc2 | cbn [app]; now apply renders_to_slots_app ].
      apply hoare_bind, hoare_enter. split; [ exact Hc2 | ].
      eapply hoare_conseq; [ apply IH; exact Hc2 | ].
      cbn beta. intros o c3 new3 [Hc3 Hn3]. split; [ exact Hc3 | ].
      cbn [app]. repeat apply renders_to_slots_app; trivial.
Qed.

Lemma WinMain_rest_slots (fuel : nat) (hwnd : handle) (c : config W) :
  slot_inv c ->
  hoare slot_inv (Host.WinMain_rest api Render InitD3D12 fuel hwnd) c
    (fun _ _ new => renders_to_slots new).
Proof.
  intros Hc. unfold Host.WinMain_rest.
  apply hoare_bind, hoare_enter. split; [ exact Hc | ].
  apply hoare_bind. eapply hoare_conseq; [ apply HInit; exact Hc | ].
  cbn beta. intros [[]| what |] c1 new1 [Hc1 Hn1].
  2, 3: cbn [app]; now apply renders_nothing_slots.
  apply renders_nothing_slots in Hn1.
  apply hoare_bind, hoare_enter. split; [ exact Hc1 | ].
  apply hoare_bind. eapply hoare_conseq; [ apply main_loop_slots; exact Hc1 | ].
  cbn beta. intros [[]| what |] c2 new2 [Hc2 Hn2].
  2, 3: cbn [app]; now apply renders_to_slots_app.
  destruct c2 as [g2 w2 p2 n2].
  repeat (hstep idx).
  all: try exact Hc2.
  cbn [app]. repeat apply renders_to_slots_app; trivial.
  intros ? ?. cbn [rendered]. constructor.
Qed.
End Whole.

Lemma Triangle_WinMain_slots _DEBUG fuel hInstance nCmdShow (w : W) :
  hoare slot_inv (Triangle.WinMain api _DEBUG fuel hInstance nCmdShow) (config0 w)
    (fun _ _ new => renders_to_slots new).
Proof.
  unfold Triangle.WinMain, config0.
  repeat (hstep idx).
  all: try (eapply hoare_conseq;
            [ eapply WinMain_rest_slots;
              [ apply Triangle_InitD3D12_slots | apply Triangle_Render_slots | ]
            | cbn beta; intros ? ? ? H ? ?; cbn [app rendered]; apply H ]).
  all: unfold slot_inv; cbn [cg g_frameIndex globals0]; lia.
Qed.

Lemma Window_WinMain_slots fuel hInstance nCmdShow (w : W) :
  hoare slot_inv (Window.WinMain api fuel hInstance nCmdShow) (config0 w)
    (fun _ _ new => renders_to_slots new).
Proof.
  unfold Window.WinMain, config0.
  repeat (hstep idx).
  all: try (eapply hoare_conseq;
            [ eapply WinMain_rest_slots;
              [ apply Window_InitD3D12_slots | apply Window_Render_slots | ]
            | cbn beta; intros ? ? ? H ? ?; cbn [app rendered]; apply H ]).
  all: unfold slot_inv; cbn [cg g_frameIndex globals0]; lia.
Qed.
End Slots.

(** C5.  In both programs, in any world that keeps the contract of the API,
    [g_frameIndex] is 0 or 1 at every point of the run, inside [Render] and
    outside it; between frames -- from the end of initialisation on, outside
    every call of [Render] -- it is the swap chain's current back-buffer
    index.  So for any stride the device can report, the offset
    [g_frameIndex * rtvSize] computed in [UINT] arithmetic is the offset of
    slot 0 or slot 1 of the two-descriptor heap; and every descriptor that a
    run binds as render target or clears is slot 0 or slot 1 of the heap,
    counted from the heap start and with the descriptor size that the device
    reported last before the call. *)
Theorem frameIndex_is_current_back_buffer
    (W : Type) (api : forall c : call, W -> ret c * W) (O : gpu W)
    (Hobeys : obeys api O)
    (_DEBUG : bool) (fuel : nat) (hInstance : handle) (nCmdShow : Z) (w : W)
    (c : config W) :
  In c (hist (snd (Triangle.WinMain api _DEBUG fuel hInstance nCmdShow (state0 w)))) \/
  In c (hist (snd (Window.WinMain api fuel hInstance nCmdShow (state0 w)))) ->
  0 <= g_frameIndex (cg c) < 2 /\
  (cphase c = Idle -> g_frameIndex (cg c) = backbuffer O (cw c)) /\
  (forall rtvSize, 0 <= rtvSize < 2 ^ 32 ->
     exists slot, 0 <= slot < 2 /\
       rtv_offset (g_frameIndex (cg c)) rtvSize = slot * rtvSize) /\
  renders_to_slots
    (trace (snd (Triangle.WinMain api _DEBUG fuel hInstance nCmdShow (state0 w)))) /\
  renders_to_slots
    (trace (snd (Window.WinMain api fuel hInstance nCmdShow (state0 w)))).
Proof.
  intros Hin.
  destruct (hoare_run (state0 w)
              (Triangle_WinMain_slots Hobeys _DEBUG fuel hInstance nCmdShow w))
    as (newT & newhT & EtT & EhT & HIT & _ & HQT).
  destruct (hoare_run (state0 w)
              (Window_WinMain_slots Hobeys fuel hInstance nCmdShow w))
    as (newW & newhW & EtW & EhW & HIW & _ & HQW).
  change (trace (state0 w) ++ newT) with newT in EtT.
  change (trace (state0 w) ++ newW) with newW in EtW.
  assert (Hr : 0 <= g_frameIndex (cg c) < 2).
  { assert (H0 : slot_inv (config0 w))
      by (unfold slot_inv; cbn [cg config0 globals0 g_frameIndex]; lia).
    destruct Hin as [Hin | Hin]; [ rewrite EhT in Hin | rewrite EhW in Hin ];
      cbn [hist state0 app] in Hin;
      (destruct Hin as [<- | Hin]; [ exact H0 | ]).
    - exact (proj1 (Forall_forall _ _) HIT c Hin).
    - exact (proj1 (Forall_forall _ _) HIW c Hin). }
  split; [ exact Hr | ]. split; [ | split; [ | split ] ].
  - intros Hp.
    assert (Hc : run_inv O c).
    { destruct Hin as [Hin | Hin].
      - exact (proj1 (Forall_forall _ _)
                 (Triangle_WinMain_inv _DEBUG Hobeys fuel hInstance nCmdShow w) c Hin).
      - exact (proj1 (Forall_forall _ _)
                 (Window_WinMain_inv Hobeys fuel hInstance nCmdShow w) c Hin). }
    destruct Hc as (_ & _ & Hi & _). unfold index_inv in Hi. rewrite Hp in Hi.
    exact (proj1 Hi).
  - intros rtvSize Hs. exists (g_frameIndex (cg c)). split; [ exact Hr | ].
    unfold rtv_offset, UINT_wrap. apply Z.mod_small. nia.
  - rewrite EtT. exact HQT.
  - rewrite EtW. exact HQW.
Qed.

(** The claim holds of a run of the triangle on the simulated machine. *)
Lemma frameIndex_is_current_back_buffer_witness :
  let s := snd (Triangle.WinMain (Sim.api (Sim.healthy false)) false 2 1 1
                  (state0 Sim.boot)) in
  cphase (cur s) = Idle /\
  0 <= g_frameIndex (cg (cur s)) < 2 /\
  (cphase (cur s) = Idle -> g_frameIndex (cg (cur s)) = backbuffer Sim.obs (cw (cur s))) /\
  (forall rtvSize, 0 <= rtvSize < 2 ^ 32 ->
     exists slot, 0 <= slot < 2 /\
       rtv_offset (g_frameIndex (cg (cur s))) rtvSize = slot * rtvSize) /\
  renders_to_slots (trace s) /\
  renders_to_slots
    (trace (snd (Window.WinMain (Sim.api (Sim.healthy false)) 2 1 1 (state0 Sim.boot)))).
Proof.
  cbn zeta. split; [ reflexivity | ].
  apply (frameIndex_is_current_back_buffer (sim_obeys (Sim.healthy false))
           false 2 1 1 Sim.boot).
  left. apply Triangle_cur_in_hist.
Defined.

(* ================================================================== *)
(** * The window that is not tested *)

(** C7 as amended.  Neither program tests what [RegisterClass] and
    [CreateWindowEx] return.  In any world, and so also where they answer
    null, the run of [WinMain] begins: register the class; create the window;
    show the handle that creation returned (and, in the triangle, update it);
    and initialise the GPU with that handle: the DXGI factory, the device and
    the command queue are created, the run stopping with "HRESULT failed" at
    the first of them that fails, and then the swap chain is created for the
    very handle that [CreateWindowEx] returned.  No exception of either
    program is a host-initialisation error: one that leaves [WinMain] carries
    a message of [InitD3D12] or [Render]. *)
Theorem WinMain_initialises_for_the_untested_window
    (W : Type) (api : forall c : call, W -> ret c * W) (_DEBUG : bool)
    (fuel : nat) (hInstance : handle) (nCmdShow : Z) (w : W) :
  (exists atom hwnd shown updated init,
     trace (snd (Triangle.WinMain api _DEBUG fuel hInstance nCmdShow (state0 w))) =
       window_shown "Triangle DX12" true hInstance nCmdShow atom hwnd shown updated
       ++ init /\
     gpu_init_takes hwnd
       (fst (Triangle.WinMain api _DEBUG fuel hInstance nCmdShow (state0 w))) init) /\
  (exists atom hwnd shown init,
     trace (snd (Window.WinMain api fuel hInstance nCmdShow (state0 w))) =
       window_shown "window" false hInstance nCmdShow atom hwnd shown false ++ init /\
     gpu_init_takes hwnd
       (fst (Window.WinMain api fuel hInstance nCmdShow (state0 w))) init) /\
  (forall what,
     fst (Triangle.WinMain api _DEBUG fuel hInstance nCmdShow (state0 w)) = Thrown what ->
     In what triangle_init_errors) /\
  (forall what,
     fst (Window.WinMain api fuel hInstance nCmdShow (state0 w)) = Thrown what ->
     In what window_init_errors).
Proof.
  split; [ | split; [ | split ] ].
  - destruct (hoare_run (state0 w)
                (Triangle_WinMain_takes api _DEBUG fuel hInstance nCmdShow (config0 w)))
      as (new & newh & Et & _ & _ & _ & HQ).
    rewrite Et. exact HQ.
  - destruct (hoare_run (state0 w)
                (Window_WinMain_takes api fuel hInstance nCmdShow (config0 w)))
      as (new & newh & Et & _ & _ & _ & HQ).
    rewrite Et. exact HQ.
  - destruct (hoare_run (state0 w)
                (Triangle_WinMain_throws api _DEBUG fuel hInstance nCmdShow (config0 w)))
      as (new & newh & _ & _ & _ & _ & HQ).
    exact HQ.
  - destruct (hoare_run (state0 w)
                (Window_WinMain_throws api fuel hInstance nCmdShow (config0 w)))
      as (new & newh & _ & _ & _ & _ & HQ).
    exact HQ.
Qed.
